(** * Literature-mining pipeline: a shallow embedding of its core

    The model follows the Python sources module by module:
    - [Py]            the Python values the pipeline handles (strings, JSON
                      values, table cells, insertion-ordered dicts);
    - [Json]          the standard library's [json.loads], as the C scanner
                      implements it;
    - [PyOps]         truth values and subscripts;
    - [Config]        config.py;
    - [Queue]         the log queue and the effects of a worker;
    - [Pandas]        the tables pandas reads: rows, columns and the numeric
                      type a column gets when it is read;
    - [Utils]         utils.py ([flatten_json_result], [read_csv_robustly]);
    - [ApiClients]    api_clients.py (retry loop, response cleaner, providers);
    - [DataProcessor] data_processor.py (per-document task, orchestrator);
    - [Providers]     config.py (the providers and their defaults);
    - [Factory]       api_clients.py ([get_api_client]);
    - [PyContainers]  membership, item assignment and [get] on Python objects;
    - [SettingsManager] settings_manager.py (loading, getters and setters);
    - [PromptManager] prompt_manager.py.
    The properties follow, in [JsonFacts], [UtilsFacts], [ApiClientsFacts],
    [DocumentFacts], [PipelineFacts] and [RunFacts]; then, for more of the
    same code, in [ClientFacts], [FlattenerFacts], [OrchestratorFacts],
    [SettingsFacts] and [PromptFacts].

    What the model leaves out.  A Python [str] is modelled by its UTF-8
    encoding, as a Rocq [string].  A float decoded from JSON is kept as the
    literal it was read from and is never computed with.  A table cell is
    NaN, an integer, a float, a boolean or text; a float cell is a binary64
    value, and a column of numbers with a missing value is read as floats,
    each integer rounded to the nearest one.  [Series.isin] is pandas' own
    and is given by the environment; what the properties need of it is
    stated where they need it.  The two limits of the interpreter that
    [json.loads] can hit, the recursion depth left and the number of digits
    an integer literal may have, are a record [interpreter] that a client
    and the settings loader carry.  [str(v)] of a float or a container,
    [str(exc)] and [str.format] belong to the interpreter and are
    parameters.  Time is not modelled: the sleeps of the retry loop are
    recorded, the pacing delay between submissions is not.  The thread pool
    is followed from the orchestrator's thread: the order in which futures
    complete and the moment the user sets the stop flag are given by the
    environment.  The settings file and the prompts directory are given
    by what the file system answers; [str.title] is a parameter. *)

From Stdlib Require Import String Ascii List ZArith NArith Lia Bool Arith.
From Stdlib Require Import DecimalString Permutation Sorted.
Import ListNotations.

Set Warnings "-register-all".
Local Open Scope list_scope.
Local Open Scope string_scope.

(* ================================================================== *)
(** ** Python values *)
(* ================================================================== *)
Module Py.

(** Built-in exceptions that the modelled code can meet. *)
Inductive exn : Type :=
| KeyError
| IndexError
| ValueError
| TypeError
| AttributeError
| RecursionError
| OtherError (name : string).

(** A computation that either returns or raises. *)
Inductive result (A : Type) : Type :=
| Ret (a : A)
| Raise (e : exn).
Arguments Ret {A} a.
Arguments Raise {A} e.

(** Python objects: what [json.loads] produces, plus NaN. A dict keeps its
    items in insertion order, keys unique. *)
Inductive pyval : Type :=
| PNone
| PNaN
| PBool (b : bool)
| PInt (z : Z)
| PFloat (literal : string)
| PStr (s : string)
| PList (l : list pyval)
| PDict (d : list (string * pyval)).

Definition dict : Type := list (string * pyval).

(** What the interpreter allows a decoder: how many objects and arrays
    may be open at once before [RecursionError] (what is left of the
    recursion limit where [json.loads] is called), and
    [sys.get_int_max_str_digits()], the longest integer literal that
    [int] converts ([0] for no limit; 4300 unless the interpreter is
    started otherwise). *)
Record interpreter : Type := {
  recursion_budget : nat;
  int_max_str_digits : nat
}.

(** CPython as it starts by default: 4300 digits, and a recursion limit of
    1000 of which the callers' frames have used ten. *)
Definition cpython : interpreter :=
  {| recursion_budget := 990; int_max_str_digits := 4300 |}.

(** A binary64 number other than NaN: plus or minus [m * 2^e], or an
    infinity.  One number has many such writings; they are compared by
    value ([float_eqb]). *)
Inductive float64 : Type :=
| FFinite (negative : bool) (m : N) (e : Z)
| FInf (negative : bool).

Definition signed (negative : bool) (m : N) : Z :=
  if negative then (- Z.of_N m)%Z else Z.of_N m.

(** [x == y] for two floats. *)
Definition float_eqb (f g : float64) : bool :=
  match f, g with
  | FInf a, FInf b => Bool.eqb a b
  | FFinite s m e, FFinite s' m' e' =>
      if (e <=? e')%Z then (signed s m =? signed s' m' * 2 ^ (e' - e))%Z
      else (signed s m * 2 ^ (e - e') =? signed s' m')%Z
  | _, _ => false
  end.

(** [x == z] for a float and an integer: Python compares the exact
    values. *)
Definition float_eq_Z (f : float64) (z : Z) : bool :=
  match f with
  | FFinite s m e =>
      if (0 <=? e)%Z then (signed s m * 2 ^ e =? z)%Z
      else (signed s m =? z * 2 ^ (- e))%Z
  | FInf _ => false
  end.

(** The binary64 number nearest to an integer, ties going to the even
    mantissa: what the conversion of an integer column to [float64]
    stores. *)
Definition float_of_Z (z : Z) : float64 :=
  let a := Z.abs z in
  if (a <? 2 ^ 53)%Z then FFinite (z <? 0)%Z (Z.to_N a) 0
  else
    let k := (Z.log2 a - 52)%Z in
    let q := Z.shiftr a k in
    let r := (a - Z.shiftl q k)%Z in
    let half := (2 ^ (k - 1))%Z in
    let q' := if ((half <? r)%Z || ((half =? r)%Z && Z.odd q))%bool
              then (q + 1)%Z else q in
    if (2 ^ 1024 <=? q' * 2 ^ k)%Z then FInf (z <? 0)%Z
    else FFinite (z <? 0)%Z (Z.to_N q') k.

(** A cell of a table read by [pandas.read_csv]: missing (NaN), integer,
    float, boolean or text. *)
Inductive cell : Type :=
| CNaN
| CInt (z : Z)
| CFloat (f : float64)
| CBool (b : bool)
| CStr (s : string).

Definition Z_of_bool (b : bool) : Z := if b then 1%Z else 0%Z.

(** [a == b] for the values of two cells, as Python compares them: numbers
    and booleans by value ([True == 1 == 1.0]), text with text, and NaN
    equal to nothing. *)
Definition cell_eqb (a b : cell) : bool :=
  match a, b with
  | CInt x, CInt y => Z.eqb x y
  | CInt x, CBool y => Z.eqb x (Z_of_bool y)
  | CBool x, CInt y => Z.eqb (Z_of_bool x) y
  | CBool x, CBool y => Bool.eqb x y
  | CFloat f, CFloat g => float_eqb f g
  | CFloat f, CInt y => float_eq_Z f y
  | CInt x, CFloat g => float_eq_Z g x
  | CFloat f, CBool y => float_eq_Z f (Z_of_bool y)
  | CBool x, CFloat g => float_eq_Z g (Z_of_bool x)
  | CStr x, CStr y => String.eqb x y
  | _, _ => false
  end.

(** [d[k]] lookup, [d[k] = v] and [d.update(other)] on insertion-ordered
    dicts: assigning an existing key keeps its position. *)
Fixpoint dict_get {V : Type} (d : list (string * V)) (k : string) : option V :=
  match d with
  | [] => None
  | (k', v) :: rest => if String.eqb k' k then Some v else dict_get rest k
  end.

Fixpoint dict_set {V : Type} (d : list (string * V)) (k : string) (v : V)
  : list (string * V) :=
  match d with
  | [] => [(k, v)]
  | (k', v') :: rest =>
      if String.eqb k' k then (k', v) :: rest else (k', v') :: dict_set rest k v
  end.

Definition dict_update {V : Type} (d other : list (string * V))
  : list (string * V) :=
  fold_left (fun acc kv => dict_set acc (fst kv) (snd kv)) other d.

Definition dict_keys {V : Type} (d : list (string * V)) : list string :=
  map fst d.

(** [str(z)] for an integer. *)
Definition str_of_Z (z : Z) : string := NilZero.string_of_int (Z.to_int z).

(** [str(x)] where the text does not depend on Python's [repr]. *)
Definition str_of_bool (b : bool) : string := if b then "True" else "False".

Fixpoint zeros (n : nat) : string :=
  match n with
  | O => EmptyString
  | S n' => String "0" (zeros n')
  end.

(** A decimal literal that denotes the float exactly (every binary
    fraction has a finite decimal expansion). *)
Definition float_literal (f : float64) : string :=
  match f with
  | FInf negative => if negative then "-Infinity" else "Infinity"
  | FFinite negative m e =>
      (if negative then "-" else "") ++
      (if (0 <=? e)%Z then str_of_Z (Z.of_N m * 2 ^ e) ++ ".0"
       else
         let d := Z.to_nat (- e) in
         let digits := str_of_Z (Z.of_N m * 5 ^ (- e)) in
         let len := String.length digits in
         if (len <=? d)%nat then "0." ++ zeros (d - len) ++ digits
         else substring 0 (len - d) digits ++ "." ++ substring (len - d) d digits)
  end.

(** The Python object a cell holds. *)
Definition py_of_cell (c : cell) : pyval :=
  match c with
  | CNaN => PNaN
  | CInt z => PInt z
  | CFloat f => PFloat (float_literal f)
  | CBool b => PBool b
  | CStr s => PStr s
  end.

(** Truth value of a cell: NaN is a non-zero float, hence true. *)
Definition cell_truthy (c : cell) : bool :=
  match c with
  | CNaN => true
  | CInt z => negb (Z.eqb z 0)
  | CFloat (FFinite _ m _) => negb (N.eqb m 0)
  | CFloat (FInf _) => true
  | CBool b => b
  | CStr s => negb (String.eqb s "")
  end.

(** *** [str.strip()]

    Python strips the code points for which [str.isspace] holds.  On the
    UTF-8 encoding these are the one-byte characters 09-0D, 1C-1F and 20,
    the two-byte C2 85 and C2 A0, and the three-byte E1 9A 80,
    E2 80 80 .. E2 80 8A, E2 80 A8, E2 80 A9, E2 80 AF, E2 81 9F, E3 80 80. *)
Definition byte_of (c : ascii) : N := N_of_ascii c.

Definition ws1 (c : ascii) : bool :=
  let n := byte_of c in
  ((9 <=? n) && (n <=? 13) || (28 <=? n) && (n <=? 32))%N.

Definition ws2 (a b : ascii) : bool :=
  ((byte_of a =? 194) && ((byte_of b =? 133) || (byte_of b =? 160)))%N.

Definition ws3 (a b c : ascii) : bool :=
  let x := byte_of a in
  let y := byte_of b in
  let z := byte_of c in
  ((x =? 225) && (y =? 154) && (z =? 128)
   || (x =? 226) && (y =? 128)
      && ((128 <=? z) && (z <=? 138) || (z =? 168) || (z =? 169) || (z =? 175))
   || (x =? 226) && (y =? 129) && (z =? 159)
   || (x =? 227) && (y =? 128) && (z =? 128))%N.

Fixpoint lstrip (s : string) : string :=
  match s with
  | EmptyString => EmptyString
  | String a s1 =>
      if ws1 a then lstrip s1
      else
        match s1 with
        | EmptyString => s
        | String b s2 =>
            if ws2 a b then lstrip s2
            else
              match s2 with
              | EmptyString => s
              | String c s3 => if ws3 a b c then lstrip s3 else s
              end
        end
  end.

Fixpoint string_rev_onto (s acc : string) : string :=
  match s with
  | EmptyString => acc
  | String c s' => string_rev_onto s' (String c acc)
  end.

Definition string_rev (s : string) : string := string_rev_onto s EmptyString.

(** The same scan from the right end: the encodings are met last byte
    first. *)
Fixpoint lstrip_rev (s : string) : string :=
  match s with
  | EmptyString => EmptyString
  | String a s1 =>
      if ws1 a then lstrip_rev s1
      else
        match s1 with
        | EmptyString => s
        | String b s2 =>
            if ws2 b a then lstrip_rev s2
            else
              match s2 with
              | EmptyString => s
              | String c s3 => if ws3 c b a then lstrip_rev s3 else s
              end
        end
  end.

Definition rstrip (s : string) : string := string_rev (lstrip_rev (string_rev s)).

Definition strip (s : string) : string := rstrip (lstrip s).

(** [s] without its prefix [p], when it starts with it. *)
Fixpoint strip_prefix (p s : string) : option string :=
  match p with
  | EmptyString => Some s
  | String a p' =>
      match s with
      | EmptyString => None
      | String b s' => if Ascii.eqb a b then strip_prefix p' s' else None
      end
  end.

(** [s.split(sep, 1)]: the text before and after the first occurrence of
    [sep], if there is one. *)
Fixpoint split_once (sep s : string) : option (string * string) :=
  match strip_prefix sep s with
  | Some after => Some (EmptyString, after)
  | None =>
      match s with
      | EmptyString => None
      | String c s' =>
          match split_once sep s' with
          | Some (before, after) => Some (String c before, after)
          | None => None
          end
      end
  end.

End Py.

(* ================================================================== *)
(** ** [json.loads]

    The decoder of CPython's [json] package with its default settings
    ([strict=True], no hooks), following the C scanner [_json.c]:
    [scan_once] dispatches on the first character, objects and arrays
    recurse, [scanstring] decodes a string body.  The scanner enters a
    recursive call for every object and array it opens and raises
    [RecursionError] when the interpreter allows no more; [int] raises
    [ValueError] for an integer literal with too many digits.  The
    functions recurse on [fuel]; [loads] supplies more than the text can
    use (see [scan_once_enough_fuel]). *)
(* ================================================================== *)
Module Json.
Import Py.

Definition dquote : ascii := "034"%char.
Definition backslash : ascii := "092"%char.

(** Outcome of a scanner: a value and the unread text, a syntax error, an
    exception other than the syntax error, or fuel exhausted. *)
Inductive pres (A : Type) : Type :=
| POk (a : A) (rest : string)
| PErr
| PRaise (e : exn)
| PFuel.
Arguments POk {A} a rest.
Arguments PErr {A}.
Arguments PRaise {A} e.
Arguments PFuel {A}.

(** WHITESPACE: space, tab, line feed, carriage return. *)
Definition is_json_ws (c : ascii) : bool :=
  (Ascii.eqb c " " || Ascii.eqb c "009" || Ascii.eqb c "010" || Ascii.eqb c "013")%char.

Fixpoint skip_ws (s : string) : string :=
  match s with
  | EmptyString => EmptyString
  | String c s' => if is_json_ws c then skip_ws s' else s
  end.

(** *** Strings *)

Definition is_digit (c : ascii) : bool :=
  ((48 <=? byte_of c) && (byte_of c <=? 57))%N.

Definition hex_val (c : ascii) : option N :=
  let n := byte_of c in
  if ((48 <=? n) && (n <=? 57))%N then Some (n - 48)%N
  else if ((97 <=? n) && (n <=? 102))%N then Some (n - 87)%N
  else if ((65 <=? n) && (n <=? 70))%N then Some (n - 55)%N
  else None.

(** The character a backslash escape other than [\u] stands for. *)
Definition simple_escape (c : ascii) : option ascii :=
  if Ascii.eqb c dquote then Some dquote
  else if Ascii.eqb c backslash then Some backslash
  else if Ascii.eqb c "/" then Some "/"%char
  else if Ascii.eqb c "b" then Some "008"%char
  else if Ascii.eqb c "f" then Some "012"%char
  else if Ascii.eqb c "n" then Some "010"%char
  else if Ascii.eqb c "r" then Some "013"%char
  else if Ascii.eqb c "t" then Some "009"%char
  else None.

(** What a string body is made of: a byte taken as it stands (or from a
    simple escape), or the 16-bit unit of a [\uXXXX] escape. *)
Inductive item : Type :=
| IByte (c : ascii)
| IUnit (u : N).

Inductive sstate : Type :=
| SText
| SEsc
| SHex (left : nat) (acc : N).

(** The body of a string, from after its opening quote to its closing
    quote.  Control characters below U+0020 are refused ([strict]). *)
Fixpoint scan_items (st : sstate) (s : string) (acc : list item)
  : option (list item * string) :=
  match s with
  | EmptyString => None
  | String c s' =>
      match st with
      | SText =>
          if Ascii.eqb c dquote then Some (rev acc, s')
          else if Ascii.eqb c backslash then scan_items SEsc s' acc
          else if (byte_of c <? 32)%N then None
          else scan_items SText s' (IByte c :: acc)
      | SEsc =>
          if Ascii.eqb c "u" then scan_items (SHex 4 0%N) s' acc
          else
            match simple_escape c with
            | Some b => scan_items SText s' (IByte b :: acc)
            | None => None
            end
      | SHex n v =>
          match hex_val c with
          | None => None
          | Some d =>
              let v' := (v * 16 + d)%N in
              match n with
              | 1 => scan_items SText s' (IUnit v' :: acc)
              | S n' => scan_items (SHex n' v') s' acc
              | O => None
              end
          end
      end
  end.

Definition ascii_of (n : N) : ascii := ascii_of_N n.

(** UTF-8 encoding of a code point (a lone surrogate is encoded like any
    other three-byte code point). *)
Definition utf8 (cp : N) : string :=
  (if cp <? 128 then String (ascii_of cp) EmptyString
   else if cp <? 2048 then
     String (ascii_of (192 + cp / 64))
       (String (ascii_of (128 + cp mod 64)) EmptyString)
   else if cp <? 65536 then
     String (ascii_of (224 + cp / 4096))
       (String (ascii_of (128 + (cp / 64) mod 64))
          (String (ascii_of (128 + cp mod 64)) EmptyString))
   else
     String (ascii_of (240 + cp / 262144))
       (String (ascii_of (128 + (cp / 4096) mod 64))
          (String (ascii_of (128 + (cp / 64) mod 64))
             (String (ascii_of (128 + cp mod 64)) EmptyString))))%N.

Definition is_high_surrogate (u : N) : bool := ((55296 <=? u) && (u <=? 56319))%N.
Definition is_low_surrogate (u : N) : bool := ((56320 <=? u) && (u <=? 57343))%N.
Definition join_surrogates (hi lo : N) : N :=
  (65536 + (hi - 55296) * 1024 + (lo - 56320))%N.

(** A high surrogate escape directly followed by a low surrogate escape is
    one code point; any other unit stands alone. *)
Fixpoint decode_items (l : list item) : string :=
  match l with
  | [] => EmptyString
  | IByte c :: r => String c (decode_items r)
  | IUnit hi :: r =>
      match r with
      | IUnit lo :: r' =>
          if is_high_surrogate hi && is_low_surrogate lo
          then utf8 (join_surrogates hi lo) ++ decode_items r'
          else utf8 hi ++ decode_items r
      | _ => utf8 hi ++ decode_items r
      end
  end.

Definition scanstring (s : string) : option (string * string) :=
  match scan_items SText s [] with
  | Some (items, rest) => Some (decode_items items, rest)
  | None => None
  end.

(** *** Numbers

    NUMBER_RE: an optional minus sign and an integer part (a lone 0, or a
    non-zero digit and any digits), then optionally a dot and one or more
    digits, then optionally e or E, an optional sign and one or more
    digits.  The longest such prefix is taken. *)

Fixpoint span_digits (s : string) : string * string :=
  match s with
  | EmptyString => (EmptyString, EmptyString)
  | String c s' =>
      if is_digit c
      then let (d, r) := span_digits s' in (String c d, r)
      else (EmptyString, s)
  end.

Definition match_int (s : string) : option (string * string) :=
  let (sign, s1) :=
    match s with
    | String c r => if Ascii.eqb c "-" then ("-", r) else ("", s)
    | EmptyString => ("", s)
    end in
  match s1 with
  | EmptyString => None
  | String c r =>
      if Ascii.eqb c "0" then Some (sign ++ "0", r)
      else if is_digit c
           then let (d, r') := span_digits r in Some (sign ++ String c d, r')
           else None
  end.

Definition match_frac (s : string) : string * string :=
  match s with
  | String c r =>
      if Ascii.eqb c "."
      then match span_digits r with
           | (EmptyString, _) => (EmptyString, s)
           | (d, r') => (String c d, r')
           end
      else (EmptyString, s)
  | EmptyString => (EmptyString, s)
  end.

Definition match_exp (s : string) : string * string :=
  match s with
  | String c r =>
      if (Ascii.eqb c "e" || Ascii.eqb c "E")%bool
      then
        let (sg, r1) :=
          match r with
          | String c2 r2 =>
              if (Ascii.eqb c2 "-" || Ascii.eqb c2 "+")%bool
              then (String c2 EmptyString, r2) else (EmptyString, r)
          | EmptyString => (EmptyString, r)
          end in
        match span_digits r1 with
        | (EmptyString, _) => (EmptyString, s)
        | (d, r') => (String c (sg ++ d), r')
        end
      else (EmptyString, s)
  | EmptyString => (EmptyString, s)
  end.

(** The integer that an optional minus sign followed by decimal digits
    denotes. *)
Fixpoint nat_digits (s : string) (acc : Z) : Z :=
  match s with
  | EmptyString => acc
  | String c s' => nat_digits s' (10 * acc + Z.of_N (byte_of c - 48))%Z
  end.

Definition Z_of_text (s : string) : Z :=
  match s with
  | String c r => if Ascii.eqb c "-" then (- nat_digits r 0)%Z else nat_digits s 0%Z
  | EmptyString => 0%Z
  end.

(** The number of digits of such a text, the sign not counted. *)
Definition count_digits (s : string) : nat :=
  match s with
  | String c r => if Ascii.eqb c "-" then String.length r else String.length s
  | EmptyString => 0
  end.

(** [int(text)]: beyond 640 digits the conversion checks the limit on
    integer literals and raises [ValueError] when the text has more digits
    than the limit allows. *)
Definition int_of_text (max_str_digits : nat) (s : string) : result Z :=
  let digits := count_digits s in
  if ((640 <? digits) && (0 <? max_str_digits) && (max_str_digits <? digits))%nat
  then Raise ValueError
  else Ret (Z_of_text s).

(** A number: an integer goes through [int], anything with a fraction or
    an exponent is a float. *)
Definition match_number (max_str_digits : nat) (s : string)
  : option (result pyval * string) :=
  match match_int s with
  | None => None
  | Some (i, r) =>
      let (f, r1) := match_frac r in
      let (e, r2) := match_exp r1 in
      if (String.eqb f "" && String.eqb e "")%bool
      then
        match int_of_text max_str_digits i with
        | Ret z => Some (Ret (PInt z), r2)
        | Raise exc => Some (Raise exc, r2)
        end
      else Some (Ret (PFloat (i ++ f ++ e)), r2)
  end.

(** The constants and, failing them, a number. *)
Definition scan_atom (max_str_digits : nat) (s : string) : pres pyval :=
  match strip_prefix "null" s with
  | Some r => POk PNone r
  | None =>
  match strip_prefix "true" s with
  | Some r => POk (PBool true) r
  | None =>
  match strip_prefix "false" s with
  | Some r => POk (PBool false) r
  | None =>
  match match_number max_str_digits s with
  | Some (Ret v, r) => POk v r
  | Some (Raise exc, _) => PRaise exc
  | None =>
  match strip_prefix "NaN" s with
  | Some r => POk PNaN r
  | None =>
  match strip_prefix "Infinity" s with
  | Some r => POk (PFloat "Infinity") r
  | None =>
  match strip_prefix "-Infinity" s with
  | Some r => POk (PFloat "-Infinity") r
  | None => PErr
  end end end end end end end.

(** *** Values, objects and arrays

    [depth] is the number of objects and arrays the scanner may still
    open: [scan_once] enters a recursive call when it meets an opening
    brace or bracket, before it looks at what follows. *)

Section Scanner.

Variable max_str_digits : nat.

Fixpoint scan_once (fuel depth : nat) (s : string) {struct fuel} : pres pyval :=
  match fuel with
  | O => PFuel
  | S fuel' =>
      match s with
      | EmptyString => PErr
      | String c s' =>
          if Ascii.eqb c dquote then
            match scanstring s' with
            | Some (k, r) => POk (PStr k) r
            | None => PErr
            end
          else if Ascii.eqb c "{" then
            match depth with
            | O => PRaise RecursionError
            | S depth' =>
                match skip_ws s' with
                | EmptyString => PErr
                | String c1 r1 =>
                    if Ascii.eqb c1 "}" then POk (PDict []) r1
                    else
                      match parse_object fuel' depth' (String c1 r1) [] with
                      | POk d r => POk (PDict d) r
                      | PErr => PErr
                      | PRaise e => PRaise e
                      | PFuel => PFuel
                      end
                end
            end
          else if Ascii.eqb c "[" then
            match depth with
            | O => PRaise RecursionError
            | S depth' =>
                match skip_ws s' with
                | EmptyString => PErr
                | String c1 r1 =>
                    if Ascii.eqb c1 "]" then POk (PList []) r1
                    else
                      match parse_array fuel' depth' (String c1 r1) [] with
                      | POk l r => POk (PList l) r
                      | PErr => PErr
                      | PRaise e => PRaise e
                      | PFuel => PFuel
                      end
                end
            end
          else scan_atom max_str_digits s
      end
  end

(** One [key : value] pair and what follows it; [s] starts at the key. *)
with parse_object (fuel depth : nat) (s : string) (acc : dict) {struct fuel}
  : pres dict :=
  match fuel with
  | O => PFuel
  | S fuel' =>
      match s with
      | EmptyString => PErr
      | String c s' =>
          if negb (Ascii.eqb c dquote) then PErr
          else
            match scanstring s' with
            | None => PErr
            | Some (key, r) =>
                match skip_ws r with
                | EmptyString => PErr
                | String c2 r2 =>
                    if negb (Ascii.eqb c2 ":") then PErr
                    else
                      match scan_once fuel' depth (skip_ws r2) with
                      | PErr => PErr
                      | PRaise e => PRaise e
                      | PFuel => PFuel
                      | POk v r3 =>
                          let acc' := dict_set acc key v in
                          match skip_ws r3 with
                          | EmptyString => PErr
                          | String c4 r4 =>
                              if Ascii.eqb c4 "}" then POk acc' r4
                              else if Ascii.eqb c4 ","
                                   then parse_object fuel' depth (skip_ws r4) acc'
                                   else PErr
                          end
                      end
                end
            end
      end
  end

(** One array element and what follows it; [s] starts at the element. *)
with parse_array (fuel depth : nat) (s : string) (acc : list pyval) {struct fuel}
  : pres (list pyval) :=
  match fuel with
  | O => PFuel
  | S fuel' =>
      match scan_once fuel' depth s with
      | PErr => PErr
      | PRaise e => PRaise e
      | PFuel => PFuel
      | POk v r =>
          let acc' := (acc ++ [v])%list in
          match skip_ws r with
          | EmptyString => PErr
          | String c r1 =>
              if Ascii.eqb c "]" then POk acc' r1
              else if Ascii.eqb c ","
                   then parse_array fuel' depth (skip_ws r1) acc'
                   else PErr
          end
      end
  end.

End Scanner.

(** What [json.loads] answers: a value, [JSONDecodeError], or another
    exception ([RecursionError], [ValueError]).  The last case is this
    model's own and never occurs ([loads_never_out_of_fuel]). *)
Inductive loads_result : Type :=
| Loaded (v : pyval)
| JSONDecodeError
| LoadsRaises (e : exn)
| OutOfFuel.

Definition bom : string :=
  String (ascii_of 239) (String (ascii_of 187) (String (ascii_of 191) EmptyString)).

Definition loads (py : interpreter) (s : string) : loads_result :=
  match strip_prefix bom s with
  | Some _ => JSONDecodeError
  | None =>
      match scan_once (int_max_str_digits py) (S (2 * String.length s))
              (recursion_budget py) (skip_ws s) with
      | POk v r =>
          match skip_ws r with
          | EmptyString => Loaded v
          | String _ _ => JSONDecodeError
          end
      | PErr => JSONDecodeError
      | PRaise e => LoadsRaises e
      | PFuel => OutOfFuel
      end
  end.

End Json.

(* ================================================================== *)
(** ** Truth values and subscripts of decoded values *)
(* ================================================================== *)
Module PyOps.
Import Py Json.

(** Exponent of a float literal's [e...] part. *)
Definition exp_value (e : string) : Z :=
  match e with
  | EmptyString => 0%Z
  | String _ rest =>
      match rest with
      | String c d =>
          if Ascii.eqb c "-" then (- nat_digits d 0)%Z
          else if Ascii.eqb c "+" then nat_digits d 0%Z
          else nat_digits rest 0%Z
      | EmptyString => 0%Z
      end
  end.

(** [float(literal) == 0.0]: the literal denotes zero, or a number that
    rounds to zero in binary64 (at most 2^-1075 in magnitude). *)
Definition float_is_zero (literal : string) : bool :=
  match match_int literal with
  | None => false
  | Some (i, r) =>
      let (f, r1) := match_frac r in
      let (e, _) := match_exp r1 in
      let frac_digits := match f with String _ d => d | EmptyString => EmptyString end in
      let mantissa :=
        nat_digits frac_digits (Z.abs (Z_of_text i)) in
      let e10 := (exp_value e - Z.of_nat (String.length frac_digits))%Z in
      (Z.eqb mantissa 0
       || (e10 <? 0)%Z && (mantissa * 2 ^ 1075 <=? 10 ^ (- e10))%Z)%bool
  end.

(** [bool(v)] *)
Definition py_truthy (v : pyval) : bool :=
  match v with
  | PNone => false
  | PNaN => true
  | PBool b => b
  | PInt z => negb (Z.eqb z 0)
  | PFloat literal => negb (float_is_zero literal)
  | PStr s => negb (String.eqb s "")
  | PList l => match l with [] => false | _ => true end
  | PDict d => match d with [] => false | _ => true end
  end.

(** A byte that continues a UTF-8 character. *)
Definition is_continuation (c : ascii) : bool :=
  ((128 <=? byte_of c) && (byte_of c <? 192))%N.

(** [s[:n]], counted in characters. *)
Fixpoint take_chars (n : nat) (s : string) : string :=
  match s with
  | EmptyString => EmptyString
  | String c s' =>
      if is_continuation c then String c (take_chars n s')
      else
        match n with
        | O => EmptyString
        | S n' => String c (take_chars n' s')
        end
  end.

(** [v[key]] for a string key. *)
Definition getitem_str (v : pyval) (key : string) : result pyval :=
  match v with
  | PDict d =>
      match dict_get d key with
      | Some x => Ret x
      | None => Raise KeyError
      end
  | _ => Raise TypeError
  end.

(** [v[0]] *)
Definition getitem_0 (v : pyval) : result pyval :=
  match v with
  | PList l =>
      match l with
      | x :: _ => Ret x
      | [] => Raise IndexError
      end
  | PStr s =>
      match s with
      | EmptyString => Raise IndexError
      | String _ _ => Ret (PStr (take_chars 1 s))
      end
  | PDict _ => Raise KeyError
  | _ => Raise TypeError
  end.

End PyOps.

(* ================================================================== *)
(** ** config.py *)
(* ================================================================== *)
Module Config.

Record config : Type := {
  MAX_WORKERS : nat;
  MAX_RETRIES : nat;
  SAVE_INTERVAL : nat;
  REQUIRED_INPUT_COLUMNS : list string
}.

(** The values config.py assigns. *)
Definition settings : config := {|
  MAX_WORKERS := 10;
  MAX_RETRIES := 3;
  SAVE_INTERVAL := 100;
  REQUIRED_INPUT_COLUMNS := ["Article Title"; "Abstract"]
|}.

End Config.

(* ================================================================== *)
(** ** The log queue and the effects of a worker

    Every component reports through [queue.put].  The messages are kept as
    constructors, one per message of the sources, with the values the
    message interpolates.  A worker's run is the list of what it did, in
    order (lines it logged, HTTP posts, sleeps), and how it ended. *)
(* ================================================================== *)
Module Queue.
Import Py.

Inductive log_line : Type :=
(* utils.read_csv_robustly *)
| EmptyPathError
| GbkFallbackHint
| GbkReadError
| FileNotFoundLine
| UnknownReadError
(* api_clients *)
| HttpErrorLine (attempt max_retries status : nat) (text : string)
| RequestFailedLine (attempt max_retries : nat)
| RetryInLine (seconds : nat)
| RequestGaveUpLine (max_retries : nat)
| JsonDecodeWarning
| RawContentLine (first_500 : string)
| NoJsonWarning
| FormatErrorLine (provider : string) (e : exn)
(* data_processor *)
| StopSignalLine
| FatalErrorLine
| AbortedLine
| FinishedLine
| ReadOkLine (articles : nat)
| MissingColumnsLine
| ResumeFoundLine (uids : nat)
| ResumeWarningLine
| NoUidWarningLine
| NothingToDoLine
| WillProcessLine (articles : nat)
| StartWorkersLine (workers : nat)
| TaskExceptionLine (uid : cell) (e : exn)
| ProgressEvent (processed total : nat)
| AllSavedLine
| SkipMissingTitleLine (uid : cell)
| BadTemplateLine
| AnalyzingLine (uid : cell) (title_60 : string)
| SavingLine (rows : nat)
| SavedLine
| SaveErrorLine.

(** An HTTP request as [requests.post] receives it. *)
Record request : Type := {
  url : string;
  headers : list (string * string);
  payload : pyval
}.

Inductive event : Type :=
| Log (line : log_line)
| Post (req : request) (attempt : nat)
| Sleep (seconds : nat).

(** A worker computation: its trace and its outcome. *)
Definition M (A : Type) : Type := list event * result A.

Definition ret {A : Type} (a : A) : M A := ([], Ret a).
Definition raise {A : Type} (e : exn) : M A := ([], Raise e).
Definition emit (ev : event) : M unit := ([ev], Ret tt).
Definition put (line : log_line) : M unit := emit (Log line).
Definition lift {A : Type} (r : result A) : M A := ([], r).

Definition bind {A B : Type} (m : M A) (k : A -> M B) : M B :=
  match m with
  | (tr, Ret a) => let (tr', r) := k a in ((tr ++ tr')%list, r)
  | (tr, Raise e) => (tr, Raise e)
  end.

(** [try: body except <caught>: handler] *)
Definition try_except {A : Type} (body : M A) (caught : exn -> bool)
  (handler : exn -> M A) : M A :=
  match body with
  | (tr, Ret a) => (tr, Ret a)
  | (tr, Raise e) =>
      if caught e
      then let (tr', r) := handler e in ((tr ++ tr')%list, r)
      else (tr, Raise e)
  end.

Definition trace {A : Type} (m : M A) : list event := fst m.
Definition outcome {A : Type} (m : M A) : result A := snd m.

End Queue.

Declare Scope worker_scope.
Delimit Scope worker_scope with worker.
Notation "x <- c ;; k" := (Queue.bind c (fun x => k))
  (at level 61, c at next level, right associativity) : worker_scope.
Notation "c ;; k" := (Queue.bind c (fun _ => k))
  (at level 61, right associativity) : worker_scope.

(* ================================================================== *)
(** ** Tables

    A table as [pandas.read_csv] handles it: the column names and the
    rows, each row giving the cell of every column.  The index is the
    position of the row ([RangeIndex]); a cell a row does not give is
    NaN. *)
(* ================================================================== *)
Module Pandas.
Import Py.

Definition row : Type := list (string * cell).

Record DataFrame : Type := {
  columns : list string;
  rows : list row
}.

(** [row[col]] *)
Definition row_get (r : row) (col : string) : cell :=
  match dict_get r col with
  | Some c => c
  | None => CNaN
  end.

(** [row.get(col, '')] *)
Definition row_get_or_empty (r : row) (col : string) : cell :=
  match dict_get r col with
  | Some c => c
  | None => CStr ""
  end.

(** [col in df.columns] *)
Definition has_column (df : DataFrame) (col : string) : bool :=
  existsb (String.eqb col) (columns df).

(** [df[col]], the cells of a column from the first row to the last. *)
Definition column_cells (rs : list row) (col : string) : list cell :=
  map (fun r => row_get r col) rs.

(** *** The dtype of a column

    [read_csv] gives each column one dtype.  A column in which every cell
    of the file is an integer is [int64].  A column of numbers in which a
    cell is missing, or is a float, is [float64]: NaN stands for the
    missing cells and every integer is stored as a float, the nearest one, so
    that an integer beyond 2^53 may change.  The other columns keep what
    the file says (a number beside text in one column is what a file
    parsed in several chunks gives).  Integers are taken to fit [int64]. *)
Definition is_int (c : cell) : bool :=
  match c with
  | CInt _ => true
  | _ => false
  end.

Definition is_number_or_nan (c : cell) : bool :=
  match c with
  | CNaN | CInt _ | CFloat _ => true
  | CBool _ | CStr _ => false
  end.

Definition is_float64 (cells : list cell) : bool :=
  (forallb is_number_or_nan cells && negb (forallb is_int cells))%bool.

Definition to_float64 (c : cell) : cell :=
  match c with
  | CInt z => CFloat (float_of_Z z)
  | _ => c
  end.

Definition typed_row (rs : list row) (r : row) : row :=
  map (fun kc : string * cell =>
         (fst kc,
          if is_float64 (column_cells rs (fst kc)) then to_float64 (snd kc)
          else snd kc))
      r.

(** The frame [read_csv] returns for a file whose cells say [df]. *)
Definition as_read (df : DataFrame) : DataFrame :=
  {| columns := columns df; rows := map (typed_row (rows df)) (rows df) |}.

End Pandas.

(* ================================================================== *)
(** ** utils.py *)
(* ================================================================== *)
Module Utils.
Import Py Pandas.

Section Flatten.

(** [str(x)] for a float, a list or a dict: the text Python's [repr]
    machinery gives, taken as given. *)
Variable py_repr : pyval -> string.

Definition py_str (v : pyval) : string :=
  match v with
  | PNone => "None"
  | PNaN => "nan"
  | PBool b => str_of_bool b
  | PInt z => str_of_Z z
  | PStr s => s
  | PFloat _ | PList _ | PDict _ => py_repr v
  end.

(** [parent_key + sep + k if parent_key else k] *)
Definition child_key (parent_key sep k : string) : string :=
  if String.eqb parent_key "" then k else parent_key ++ sep ++ k.

Fixpoint flatten_json_result (data : pyval) (parent_key sep : string)
  {struct data} : dict :=
  match data with
  | PDict d =>
      (fix each_item (d : list (string * pyval)) (items : dict) {struct d} : dict :=
         match d with
         | [] => items
         | (k, v) :: rest =>
             let new_key := child_key parent_key sep k in
             each_item rest
               match v with
               | PDict _ => dict_update items (flatten_json_result v new_key sep)
               | PList l =>
                   dict_set items new_key
                     (PStr (String.concat ", " (map py_str l)))
               | _ => dict_set items new_key v
               end
         end) d []
  | _ => [(if String.eqb parent_key "" then "value" else parent_key, data)]
  end.

(** The call with the default arguments [parent_key=''] and [sep='_']. *)
Definition flatten (data : pyval) : dict := flatten_json_result data "" "_".

End Flatten.

(** How [read_csv_robustly] ends for a given path; the file system and
    [pandas.read_csv] decide which.  A read that succeeds comes with the
    table of the file: what each of its cells says. *)
Inductive read_outcome (frame : Type) : Type :=
| EmptyPath
| ReadUtf8 (df : frame)
| ReadGbk (df : frame)
| GbkFailed
| NotFound
| ReadFailed.
Arguments EmptyPath {frame}.
Arguments ReadUtf8 {frame} df.
Arguments ReadGbk {frame} df.
Arguments GbkFailed {frame}.
Arguments NotFound {frame}.
Arguments ReadFailed {frame}.

(** [read_csv_robustly]: the lines it logs and the frame it returns
    ([None] when the read fails).  It raises nothing: every handler ends in
    [return None]. *)
Definition read_csv_robustly (file : read_outcome DataFrame)
  : list Queue.log_line * option DataFrame :=
  match file with
  | EmptyPath => ([Queue.EmptyPathError], None)
  | ReadUtf8 df => ([], Some (as_read df))
  | ReadGbk df => ([Queue.GbkFallbackHint], Some (as_read df))
  | GbkFailed => ([Queue.GbkFallbackHint; Queue.GbkReadError], None)
  | NotFound => ([Queue.FileNotFoundLine], None)
  | ReadFailed => ([Queue.UnknownReadError], None)
  end.

End Utils.

(* ================================================================== *)
(** ** api_clients.py *)
(* ================================================================== *)
Module ApiClients.
Import Py Json PyOps Queue Config.
Local Open Scope worker_scope.

(** How one [requests.post(...)] followed by [raise_for_status()] and
    [response.json()] ends.  [requests] reports a body that is not JSON as
    a [RequestException] too. *)
Inductive post_outcome : Type :=
| PostJson (body : pyval)
| PostHTTPError (status : nat) (text : string)
| PostRequestException
| PostRaises (e : exn).

(** The attributes [BaseAPIClient.__init__] stores, and what the object
    meets outside the program: the network (the outcome of each post, by
    request and attempt) and the interpreter it runs in (what it allows
    [json.loads] when an answer is decoded). *)
Record client_fields : Type := {
  api_key : string;
  model : string;
  endpoint : string;
  requests_post : request -> nat -> post_outcome;
  interp : interpreter
}.

(** The interface: an object answering [analyze_text(prompt)] (with the
    default [temperature] and [top_p]). *)
Record BaseAPIClient : Type := {
  analyze_text : string -> M pyval
}.

(** [BaseAPIClient.__init__] *)
Definition init (key mdl url : string) (net : request -> nat -> post_outcome)
  (py : interpreter) : result client_fields :=
  if String.eqb key "" then Raise ValueError
  else Ret {| api_key := key; model := mdl; endpoint := url; requests_post := net;
              interp := py |}.

Section Shared.

Variable cfg : config.
Variable self : client_fields.

(** The tail of the loop body: back off unless this was the last attempt. *)
Definition backoff (attempt : nat) : M unit :=
  if (attempt <? MAX_RETRIES cfg - 1)%nat then
    let sleep_time := (2 ^ (attempt + 1))%nat in
    put (RetryInLine sleep_time) ;;
    emit (Sleep sleep_time)
  else ret tt.

(** [for attempt in range(MAX_RETRIES): ...] and what follows the loop. *)
Fixpoint attempts_loop (req : request) (attempts : list nat) : M pyval :=
  match attempts with
  | [] =>
      put (RequestGaveUpLine (MAX_RETRIES cfg)) ;;
      ret PNone
  | attempt :: rest =>
      emit (Post req attempt) ;;
      match requests_post self req attempt with
      | PostJson body => ret body
      | PostHTTPError status text =>
          put (HttpErrorLine (attempt + 1)%nat (MAX_RETRIES cfg) status text) ;;
          backoff attempt ;;
          attempts_loop req rest
      | PostRequestException =>
          put (RequestFailedLine (attempt + 1)%nat (MAX_RETRIES cfg)) ;;
          backoff attempt ;;
          attempts_loop req rest
      | PostRaises e => raise e
      end
  end.

Definition _make_request_with_retries (hdrs : list (string * string))
  (data : pyval) : M pyval :=
  attempts_loop {| url := endpoint self; headers := hdrs; payload := data |}
    (seq 0 (MAX_RETRIES cfg)).

(** [re.search(r'\{.*\}', text, re.DOTALL)]: with DOTALL the dot matches
    every character, so the leftmost match starts at the first opening
    brace that has a closing brace after it, and the greedy star carries it
    to the last closing brace of the text. *)
Fixpoint from_first_open (s : string) : option string :=
  match s with
  | EmptyString => None
  | String c s' => if Ascii.eqb c "{" then Some s' else from_first_open s'
  end.

Fixpoint upto_last_close (s : string) : option string :=
  match s with
  | EmptyString => None
  | String c s' =>
      match upto_last_close s' with
      | Some t => Some (String c t)
      | None => if Ascii.eqb c "}" then Some (String c EmptyString) else None
      end
  end.

Definition re_search_braces (text : string) : option string :=
  match from_first_open text with
  | None => None
  | Some after_open =>
      match upto_last_close after_open with
      | Some t => Some (String "{" t)
      | None => None
      end
  end.

Definition error_dict (message raw : string) : pyval :=
  PDict [("error", PStr message); ("raw_content", PStr raw)].

Definition _clean_json_response (text_content : string) : M pyval :=
  match re_search_braces text_content with
  | Some json_str =>
      match loads (interp self) json_str with
      | Loaded v => ret v
      | JSONDecodeError =>
          put JsonDecodeWarning ;;
          put (RawContentLine (take_chars 500 text_content)) ;;
          ret (error_dict "JSON Decode Error" text_content)
      | LoadsRaises e => raise e
      | OutOfFuel => raise (OtherError "out of fuel")
      end
  | None =>
      put NoJsonWarning ;;
      put (RawContentLine (take_chars 500 text_content)) ;;
      ret (error_dict "No JSON found in response" text_content)
  end.

(** The call [self._clean_json_response(content)]: [re.search] refuses
    anything but text. *)
Definition clean_content (content : pyval) : M pyval :=
  match content with
  | PStr s => _clean_json_response s
  | _ => raise TypeError
  end.

(** [response_json["choices"][0]["message"]["content"]] *)
Definition chat_content (response_json : pyval) : result pyval :=
  match getitem_str response_json "choices" with
  | Raise e => Raise e
  | Ret choices =>
      match getitem_0 choices with
      | Raise e => Raise e
      | Ret first =>
          match getitem_str first "message" with
          | Raise e => Raise e
          | Ret message => getitem_str message "content"
          end
      end
  end.

(** [response_json["content"][0]["text"]] *)
Definition anthropic_content (response_json : pyval) : result pyval :=
  match getitem_str response_json "content" with
  | Raise e => Raise e
  | Ret blocks =>
      match getitem_0 blocks with
      | Raise e => Raise e
      | Ret first => getitem_str first "text"
      end
  end.

Definition key_or_index_error (e : exn) : bool :=
  match e with
  | KeyError | IndexError => true
  | _ => false
  end.

(** What every [analyze_text] does with the answer of the retry loop. *)
Definition read_answer (provider : string) (content_of : pyval -> result pyval)
  (response_json : pyval) : M pyval :=
  if py_truthy response_json then
    try_except
      (content <- lift (content_of response_json) ;; clean_content content)
      key_or_index_error
      (fun e =>
         put (FormatErrorLine provider e) ;;
         ret (PDict [("error", PStr "API Format Error")]))
  else ret (PDict [("error", PStr "API Failure")]).

Definition bearer : list (string * string) :=
  [("Authorization", "Bearer " ++ api_key self)].

Definition user_message (content : string) : pyval :=
  PList [PDict [("role", PStr "user"); ("content", PStr content)]].

Definition json_object_format : pyval := PDict [("type", PStr "json_object")].

Definition OpenAIClient_analyze_text (prompt : string) : M pyval :=
  let data := PDict [("model", PStr (model self));
                     ("messages", user_message prompt);
                     ("temperature", PFloat "0.1");
                     ("top_p", PFloat "0.9");
                     ("response_format", json_object_format)] in
  response_json <- _make_request_with_retries bearer data ;;
  read_answer "OpenAI" chat_content response_json.

Definition text_marker : string := "--- TEXT TO ANALYZE ---".

Definition AnthropicClient_analyze_text (prompt : string) : M pyval :=
  let hdrs := [("x-api-key", api_key self); ("anthropic-version", "2023-06-01")] in
  match split_once text_marker prompt with
  | None => raise ValueError
  | Some (system_prompt, user_prompt) =>
      let data := PDict [("model", PStr (model self));
                         ("max_tokens", PInt 4096);
                         ("temperature", PFloat "0.1");
                         ("top_p", PFloat "0.9");
                         ("system", PStr (strip system_prompt));
                         ("messages", user_message (text_marker ++ user_prompt))] in
      response_json <- _make_request_with_retries hdrs data ;;
      read_answer "Anthropic" anthropic_content response_json
  end.

Definition DeepSeekClient_analyze_text (prompt : string) : M pyval :=
  let data := PDict [("model", PStr (model self));
                     ("messages", user_message prompt);
                     ("temperature", PFloat "0.1");
                     ("top_p", PFloat "0.9")] in
  response_json <- _make_request_with_retries bearer data ;;
  read_answer "DeepSeek" chat_content response_json.

Definition MoonshotClient_analyze_text (prompt : string) : M pyval :=
  let data := PDict [("model", PStr (model self));
                     ("messages", user_message prompt);
                     ("temperature", PFloat "0.1");
                     ("top_p", PFloat "0.9");
                     ("response_format", json_object_format)] in
  response_json <- _make_request_with_retries bearer data ;;
  read_answer "Moonshot" chat_content response_json.

Definition InternAIClient_analyze_text (prompt : string) : M pyval :=
  let data := PDict [("model", PStr (model self));
                     ("messages", user_message prompt);
                     ("n", PInt 1);
                     ("temperature", PFloat "0.1");
                     ("top_p", PFloat "0.9");
                     ("thinking_mode", PBool false)] in
  response_json <- _make_request_with_retries bearer data ;;
  read_answer "Intern-AI" chat_content response_json.

Definition OpenAIClient : BaseAPIClient :=
  {| analyze_text := OpenAIClient_analyze_text |}.
Definition AnthropicClient : BaseAPIClient :=
  {| analyze_text := AnthropicClient_analyze_text |}.
Definition DeepSeekClient : BaseAPIClient :=
  {| analyze_text := DeepSeekClient_analyze_text |}.
Definition MoonshotClient : BaseAPIClient :=
  {| analyze_text := MoonshotClient_analyze_text |}.
Definition InternAIClient : BaseAPIClient :=
  {| analyze_text := InternAIClient_analyze_text |}.

End Shared.

End ApiClients.

(* ================================================================== *)
(** ** data_processor.py *)
(* ================================================================== *)
Module DataProcessor.
Export Pandas.
Import Py Json PyOps Queue Config Utils ApiClients.
Local Open Scope worker_scope.

(** [df.loc[index].to_dict()] *)
Definition to_dict (df : DataFrame) (index : nat) : dict :=
  let r := nth index (rows df) [] in
  fold_left (fun d col => dict_set d col (py_of_cell (row_get r col)))
    (columns df) [].

(** [df['UID'] = df.index] *)
Fixpoint number_rows (i : nat) (rs : list row) : list row :=
  match rs with
  | [] => []
  | r :: rest => dict_set r "UID" (CInt (Z.of_nat i)) :: number_rows (S i) rest
  end.

Definition set_uid_to_index (df : DataFrame) : DataFrame :=
  {| columns := (columns df ++ ["UID"])%list; rows := number_rows 0 (rows df) |}.

(** [pd.isna(c)] *)
Definition is_nan (c : cell) : bool :=
  match c with
  | CNaN => true
  | _ => false
  end.

(** [v in s] for a Python set [s] of values that are not NaN. *)
Definition member (c : cell) (values : list cell) : bool :=
  existsb (cell_eqb c) values.

(** [set(values)]: a value is added unless the set already holds one equal
    to it. *)
Definition to_set (l : list cell) : list cell :=
  fold_left (fun seen c => if member c seen then seen else (seen ++ [c])%list) l [].

(** [df['UID']] *)
Definition uid_column (df : DataFrame) : list cell := column_cells (rows df) "UID".

(** [set(df_out['UID'].dropna())] *)
Definition uid_set (df_out : DataFrame) : list cell :=
  to_set (filter (fun c => negb (is_nan c)) (uid_column df_out)).

(** A [Series.isin] that finds a cell among the values when Python's [==]
    finds it equal to one of them. *)
Definition isin_by_value (column values : list cell) : list bool :=
  map (fun c => member c values) column.

(** A submitted future, with what [future_to_uid] records for it and the
    row it was made from. *)
Record task : Type := {
  index : nat;
  record : row
}.

Definition uid_of (t : task) : cell := row_get (record t) "UID".

Fixpoint iterrows (i : nat) (rs : list row) : list task :=
  match rs with
  | [] => []
  | r :: rest => {| index := i; record := r |} :: iterrows (S i) rest
  end.

(** One append to the output file: the rows, whether the header line is
    asked for, and whether [to_csv] succeeded. *)
Record flush : Type := {
  batch : list dict;
  write_header : bool;
  saved : bool
}.

(** What the run meets outside the program. *)
Record environment : Type := {
  (** [read_csv_robustly(input_file)] *)
  input_file : read_outcome DataFrame;
  (** [os.path.exists(output_file)] and [os.path.getsize(output_file)] when
      the run starts *)
  output_exists : bool;
  output_size : nat;
  (** [read_csv_robustly(output_file)] *)
  output_file : read_outcome DataFrame;
  (** The user's [stop()]: [Some n] when the first [n] reads of
      [_stop_event] still see [False] and every later one sees [True];
      [None] when it is never called. *)
  stop_after : option nat;
  (** The order in which the submitted futures complete. *)
  as_completed : list task -> list task;
  (** Whether the n-th [to_csv] of the run succeeds. *)
  to_csv : nat -> bool;
  (** [column.isin(values)] of the installed pandas: for each cell of the
      column, whether it is found among the values.  Cells and values are
      compared after a cast to a common dtype that differs between
      versions of pandas. *)
  isin : list cell -> list cell -> list bool
}.

Definition stop_event (env : environment) (reads : nat) : bool :=
  match stop_after env with
  | Some n => (n <=? reads)%nat
  | None => false
  end.

Section Pipeline.

Variable cfg : config.
(** [str(v)] for floats, lists and dicts (see [Utils]). *)
Variable py_repr : pyval -> string.
(** [template.format(content_to_analyze=content)], Python's built-in. *)
Variable str_format : string -> string -> result string.
(** [str(exc)], the message of an exception. *)
Variable exn_str : exn -> string.

Definition nl : string := String "010" EmptyString.

Definition is_key_error (e : exn) : bool :=
  match e with
  | KeyError => true
  | _ => false
  end.

Definition missing_title : pyval := PDict [("error", PStr "Missing Title")].
Definition invalid_template : pyval := PDict [("error", PStr "Invalid Prompt Template")].

(** f"Title: {title}\n\nAbstract: {abstract or ''}" for a title that is text *)
Definition content_of (text : string) (abstract : cell) : string :=
  let abstract_or_empty := if cell_truthy abstract then abstract else CStr "" in
  "Title: " ++ text ++ nl ++ nl ++ "Abstract: "
  ++ py_str py_repr (py_of_cell abstract_or_empty).

Definition _analyze_single_document (api_client : BaseAPIClient)
  (title abstract : cell) (prompt_template : string) (uid : cell) : M pyval :=
  match title with
  | CNaN => put (SkipMissingTitleLine uid) ;; ret missing_title
  | CInt _ | CFloat _ | CBool _ => raise AttributeError
  | CStr text =>
      if String.eqb (strip text) "" then
        put (SkipMissingTitleLine uid) ;; ret missing_title
      else
        let content_to_analyze := content_of text abstract in
        match str_format prompt_template content_to_analyze with
        | Raise KeyError =>
            put BadTemplateLine ;;
            ret invalid_template
        | Raise e => raise e
        | Ret prompt =>
            put (AnalyzingLine uid (take_chars 60 text)) ;;
            analyze_text api_client prompt
        end
  end.

(** *** The orchestrator

    The orchestrator's thread is followed step by step.  Its state is the
    queue (the lines this thread has put, in order; workers' lines are in
    the workers' traces), the number of times [_stop_event] has been read,
    and the appends made to the output file. *)
Record state : Type := {
  queue : list log_line;
  reads : nat;
  flushes : list flush
}.

Definition say (lines : list log_line) (st : state) : state :=
  {| queue := (queue st ++ lines)%list; reads := reads st; flushes := flushes st |}.

(** [if self._stop_event] *)
Definition read_stop (env : environment) (st : state) : bool * state :=
  (stop_event env (reads st),
   {| queue := queue st; reads := S (reads st); flushes := flushes st |}).

Definition _save_batch_results (env : environment) (batch_results : list dict)
  (header : bool) (st : state) : state :=
  match batch_results with
  | [] => st
  | _ :: _ =>
      let ok := to_csv env (length (flushes st)) in
      {| queue := (queue st ++ [SavingLine (length batch_results);
                               if ok then SavedLine else SaveErrorLine])%list;
         reads := reads st;
         flushes := (flushes st ++ [{| batch := batch_results;
                                       write_header := header;
                                       saved := ok |}])%list |}
  end.

(** The resume set: [processed_uids].  [read_csv_robustly] raises nothing
    and neither does building the set, so the [except] branch of the source
    (and its warning line) is never entered. *)
Definition load_resume_set (env : environment) (resume_mode : bool)
  : list log_line * list cell :=
  if (resume_mode && output_exists env)%bool then
    let (lines, df_out) := read_csv_robustly (output_file env) in
    match df_out with
    | Some d =>
        if has_column d "UID"
        then ((lines ++ [ResumeFoundLine (length (uid_set d))])%list, uid_set d)
        else (lines, [])
    | None => (lines, [])
    end
  else ([], []).

(** [df[~df['UID'].isin(processed_uids)]]: the rows for which the mask
    says [False], in their order. *)
Definition unprocessed (env : environment) (df : DataFrame)
  (processed_uids : list cell) : list task :=
  let mask := isin env (uid_column df) processed_uids in
  filter (fun t => negb (nth (index t) mask false)) (iterrows 0 (rows df)).

(** [df[~df['UID'].isin(processed_uids)]], then [head(process_count)]. *)
Definition select (env : environment) (df : DataFrame) (processed_uids : list cell)
  (process_count : Z) : list task :=
  let df_to_process := unprocessed env df processed_uids in
  if (0 <? process_count)%Z
  then firstn (Z.to_nat process_count) df_to_process
  else df_to_process.

(** The first loop: one submission per row until the stop flag is seen. *)
Fixpoint submit_loop (env : environment) (todo : list task) (st : state)
  : list task * state :=
  match todo with
  | [] => ([], st)
  | t :: rest =>
      let (stop, st1) := read_stop env st in
      if stop then ([], st1)
      else let (more, st2) := submit_loop env rest st1 in (t :: more, st2)
  end.

(** What the worker running a future answers. *)
Definition future_result (api_client : BaseAPIClient) (prompt_template : string)
  (t : task) : result pyval :=
  let title := row_get (record t) (nth 0 (REQUIRED_INPUT_COLUMNS cfg) "") in
  let abstract := row_get_or_empty (record t) (nth 1 (REQUIRED_INPUT_COLUMNS cfg) "") in
  outcome (_analyze_single_document api_client title abstract prompt_template (uid_of t)).

(** The body of the second loop from [uid, index = future_to_uid[future]]
    to [batch_results.append]: the line it logs, if any, and the row. *)
Definition merge_result (df : DataFrame) (t : task) (res : result pyval)
  : list log_line * dict :=
  let original_data := to_dict df (index t) in
  match res with
  | Ret result_json =>
      if py_truthy result_json
      then ([], dict_update original_data (flatten py_repr result_json))
      else ([], dict_set original_data "error" (PStr "API Failure after retries"))
  | Raise exc =>
      ([TaskExceptionLine (uid_of t) exc],
       dict_set original_data "error" (PStr (exn_str exc)))
  end.

Record collector : Type := {
  st : state;
  batch_results : list dict;
  header_written : bool;
  processed_count : nat;
  (** futures [as_completed] has handed over: each of them has completed *)
  yielded : list task;
  (** futures whose result became a row *)
  merged : list task
}.

(** The second loop, over the futures in completion order. *)
Fixpoint collect_loop (env : environment) (api_client : BaseAPIClient)
  (prompt_template : string) (df : DataFrame) (total_to_process : nat)
  (completed : list task) (c : collector) : collector :=
  match completed with
  | [] => c
  | future :: rest =>
      let (stop, st1) := read_stop env (st c) in
      if stop then
        {| st := st1;
           batch_results := batch_results c;
           header_written := header_written c;
           processed_count := processed_count c;
           yielded := (yielded c ++ [future])%list;
           merged := merged c |}
      else
        let (lines, new_row) :=
          merge_result df future (future_result api_client prompt_template future) in
        let batch := (batch_results c ++ [new_row])%list in
        let count := S (processed_count c) in
        let st2 := say (lines ++ [ProgressEvent count total_to_process])%list st1 in
        let full := (SAVE_INTERVAL cfg <=? length batch)%nat in
        collect_loop env api_client prompt_template df total_to_process rest
          {| st := if full
                   then _save_batch_results env batch (negb (header_written c)) st2
                   else st2;
             batch_results := if full then [] else batch;
             header_written := if full then true else header_written c;
             processed_count := count;
             yielded := (yielded c ++ [future])%list;
             merged := (merged c ++ [future])%list |}
  end.

(** What a run leaves behind. *)
Record run : Type := {
  final : state;
  df_to_process : list task;
  submitted : list task;
  collected : list task;
  merged_futures : list task
}.

Definition returned_early (st : state) : run :=
  {| final := st; df_to_process := []; submitted := []; collected := [];
     merged_futures := [] |}.

(** The frame the run works on: the input, with [UID] set to the index
    when the input has no such column. *)
Definition working_frame (df0 : DataFrame) : DataFrame :=
  if has_column df0 "UID" then df0 else set_uid_to_index df0.

(** [_execute_analysis] up to the announcement of the work (source lines
    61-98): reading, validation, resume set, selection.  [None] stands for
    each early [return]. *)
Definition prepare (env : environment) (process_count : Z) (resume_mode : bool)
  (st0 : state) : state * option (DataFrame * list task) :=
  let (lines, read) := read_csv_robustly (input_file env) in
  let st1 := say lines st0 in
  match read with
  | None => (st1, None)
  | Some df0 =>
      let st2 := say [ReadOkLine (length (rows df0))] st1 in
      if negb (forallb (has_column df0) (REQUIRED_INPUT_COLUMNS cfg)) then
        (say [MissingColumnsLine] st2, None)
      else
        let (resume_lines, uids) := load_resume_set env resume_mode in
        let st3 := say resume_lines st2 in
        let st4 := if has_column df0 "UID" then st3 else say [NoUidWarningLine] st3 in
        let df := working_frame df0 in
        let todo := select env df uids process_count in
        let total_to_process := length todo in
        if (total_to_process =? 0)%nat then (say [NothingToDoLine] st4, None)
        else (say [WillProcessLine total_to_process] st4, Some (df, todo))
  end.

(** The rest of [_execute_analysis] (source lines 100-159): the two loops
    inside the executor, the last flush and the closing line. *)
Definition process (env : environment) (api_client : BaseAPIClient)
  (prompt_template : string) (df : DataFrame) (todo : list task) (st5 : state)
  : run :=
  let total_to_process := length todo in
  let header := (output_exists env && (0 <? output_size env)%nat)%bool in
  let st6 := say [StartWorkersLine (MAX_WORKERS cfg)] st5 in
  let (futures, st7) := submit_loop env todo st6 in
  let c := collect_loop env api_client prompt_template df total_to_process
             (as_completed env futures)
             {| st := st7; batch_results := []; header_written := header;
                processed_count := 0; yielded := []; merged := [] |} in
  let st8 := _save_batch_results env (batch_results c)
               (negb (header_written c)) (st c) in
  {| final := say [AllSavedLine] st8; df_to_process := todo; submitted := futures;
     collected := yielded c; merged_futures := merged c |}.

Definition _execute_analysis (env : environment) (api_client : BaseAPIClient)
  (process_count : Z) (prompt_template : string) (resume_mode : bool)
  (st0 : state) : run :=
  match prepare env process_count resume_mode st0 with
  | (st, None) => returned_early st
  | (st, Some (df, todo)) => process env api_client prompt_template df todo st
  end.

(** [run_analysis]: the modelled steps of [_execute_analysis] raise
    nothing, so the [except] branch is not entered; the [finally] branch
    reads the stop flag once more. *)
Definition run_analysis (env : environment) (api_client : BaseAPIClient)
  (process_count : Z) (prompt_template : string) (resume_mode : bool) : run :=
  let r := _execute_analysis env api_client process_count prompt_template resume_mode
             {| queue := []; reads := 0; flushes := [] |} in
  let (stop, st1) := read_stop env (final r) in
  {| final := say [if stop then AbortedLine else FinishedLine] st1;
     df_to_process := df_to_process r;
     submitted := submitted r;
     collected := collected r;
     merged_futures := merged_futures r |}.

(** The rows the output file has gained: the batches whose append
    succeeded, in order. *)
Definition rows_written (fl : list flush) : list dict :=
  flat_map (fun f => if saved f then batch f else []) fl.

End Pipeline.

End DataProcessor.

(* ================================================================== *)
(** ** A formatter for closed examples

    [str.format] belongs to the interpreter and the pipeline takes it as a
    parameter.  Examples need a concrete one: [format_plain] is
    [template.format(content_to_analyze=content)] for templates whose
    replacement fields are plain ASCII names (no conversion, no format
    spec, no attribute or index).  It reads the template left to right
    and stops at the first error, as Python does.  Fields outside that
    fragment are not modelled: the function answers [ValueError] for them
    and no statement below puts such a template in. *)
(* ================================================================== *)
Module PlainFormat.
Import Py Json.

Inductive fstate : Type :=
| FText
| FOpen
| FField (name : string)
| FClose.

Definition all_digits (s : string) : bool :=
  match span_digits s with
  | (_, EmptyString) => true
  | _ => false
  end.

(** Looking the field's name up: the keyword argument, a position (there
    are no positional arguments), or an unknown keyword. *)
Definition lookup_field (name content : string) : result string :=
  if String.eqb name "content_to_analyze" then Ret content
  else if all_digits name then
    if (nat_digits name 0 <? 2 ^ 63)%Z then Raise IndexError else Raise ValueError
  else Raise KeyError.

Definition outside_fragment (c : ascii) : bool :=
  (Ascii.eqb c "!" || Ascii.eqb c ":" || Ascii.eqb c "." || Ascii.eqb c "["
   || (128 <=? byte_of c)%N)%bool.

Definition prepend (s : string) (r : result string) : result string :=
  match r with
  | Ret t => Ret (s ++ t)
  | Raise e => Raise e
  end.

Fixpoint format_from (st : fstate) (template content : string) : result string :=
  match template with
  | EmptyString =>
      match st with
      | FText => Ret EmptyString
      | FOpen | FField _ | FClose => Raise ValueError
      end
  | String c rest =>
      match st with
      | FText =>
          if Ascii.eqb c "{" then format_from FOpen rest content
          else if Ascii.eqb c "}" then format_from FClose rest content
          else prepend (String c EmptyString) (format_from FText rest content)
      | FOpen =>
          if Ascii.eqb c "{" then prepend "{" (format_from FText rest content)
          else if Ascii.eqb c "}"
               then match lookup_field EmptyString content with
                    | Ret v => prepend v (format_from FText rest content)
                    | Raise e => Raise e
                    end
          else if outside_fragment c then Raise ValueError
          else format_from (FField (String c EmptyString)) rest content
      | FField name =>
          if Ascii.eqb c "}"
          then match lookup_field name content with
               | Ret v => prepend v (format_from FText rest content)
               | Raise e => Raise e
               end
          else if Ascii.eqb c "{" then Raise ValueError
          else if outside_fragment c then Raise ValueError
          else format_from (FField (name ++ String c EmptyString)) rest content
      | FClose =>
          if Ascii.eqb c "}" then prepend "}" (format_from FText rest content)
          else Raise ValueError
      end
  end.

Definition format_plain (template content : string) : result string :=
  format_from FText template content.

(** Stand-ins for [str(v)] of floats and containers and for [str(exc)],
    for examples in which neither is consulted. *)
Definition no_repr (v : pyval) : string := EmptyString.
Definition no_message (e : exn) : string := EmptyString.

End PlainFormat.

(* ================================================================== *)
(** ** config.py: the providers *)
(* ================================================================== *)
Module Providers.

Record provider_config : Type := {
  api_key : string;
  endpoint : string;
  model_list : list string;
  default_model : string
}.

Definition SUPPORTED_API_PROVIDERS : list string :=
  ["OpenAI"; "Anthropic"; "DeepSeek"; "Moonshot"; "Intern-AI (Internal)"].

Definition DEFAULT_API_PROVIDER : string := "OpenAI".

Definition API_CONFIGS : list (string * provider_config) :=
  [("OpenAI",
    {| api_key := "";
       endpoint := "https://api.openai.com/v1/chat/completions";
       model_list := ["gpt-4o"; "gpt-4-turbo"; "gpt-3.5-turbo"];
       default_model := "gpt-4o" |});
   ("Anthropic",
    {| api_key := "";
       endpoint := "https://api.anthropic.com/v1/messages";
       model_list := ["claude-3-opus-20240229"; "claude-3-sonnet-20240229";
                      "claude-3-haiku-20240307"];
       default_model := "claude-3-sonnet-20240229" |});
   ("DeepSeek",
    {| api_key := "";
       endpoint := "https://api.deepseek.com/chat/completions";
       model_list := ["deepseek-chat"];
       default_model := "deepseek-chat" |});
   ("Moonshot",
    {| api_key := "";
       endpoint := "https://api.moonshot.cn/v1/chat/completions";
       model_list := ["moonshot-v1-8k"; "moonshot-v1-32k"; "moonshot-v1-128k"];
       default_model := "moonshot-v1-8k" |});
   ("Intern-AI (Internal)",
    {| api_key := "";
       endpoint := "https://chat.intern-ai.org.cn/api/v1/chat/completions";
       model_list := ["intern-s1"];
       default_model := "intern-s1" |})].

End Providers.

(* ================================================================== *)
(** ** api_clients.py: the factory *)
(* ================================================================== *)
Module Factory.
Import Py Queue Config ApiClients.

Definition client_map : list (string * (config -> client_fields -> BaseAPIClient)) :=
  [("OpenAI", OpenAIClient);
   ("Anthropic", AnthropicClient);
   ("DeepSeek", DeepSeekClient);
   ("Moonshot", MoonshotClient);
   ("Intern-AI (Internal)", InternAIClient)].

Definition get_api_client (cfg : config) (provider_name key mdl url : string)
  (net : request -> nat -> post_outcome) (py : interpreter)
  : result BaseAPIClient :=
  match dict_get client_map provider_name with
  | None => Raise ValueError
  | Some client_class =>
      match init key mdl url net py with
      | Raise e => Raise e
      | Ret self => Ret (client_class cfg self)
      end
  end.

End Factory.

(* ================================================================== *)
(** ** Membership, item assignment and [get] on Python objects *)
(* ================================================================== *)
Module PyContainers.
Import Py PyOps.

(** [sub in s] for two strings. *)
Fixpoint contains (sub s : string) {struct s} : bool :=
  match strip_prefix sub s with
  | Some _ => true
  | None =>
      match s with
      | EmptyString => false
      | String _ s' => contains sub s'
      end
  end.

(** [x == key] for a string [key]: only the same string is equal to it. *)
Definition eq_str (x : pyval) (key : string) : bool :=
  match x with
  | PStr s => String.eqb s key
  | _ => false
  end.

(** [key in container]: a key of a dict, a substring of a string, an element
    of a list; the other objects are not iterable. *)
Definition py_in (key : string) (container : pyval) : result bool :=
  match container with
  | PDict d => Ret (match dict_get d key with Some _ => true | None => false end)
  | PStr s => Ret (contains key s)
  | PList l => Ret (existsb (fun x => eq_str x key) l)
  | PNone | PNaN | PBool _ | PInt _ | PFloat _ => Raise TypeError
  end.

(** [container[key] = value] for a string key: only a dict supports it. *)
Definition setitem_str (container : pyval) (key : string) (value : pyval)
  : result pyval :=
  match container with
  | PDict d => Ret (PDict (dict_set d key value))
  | _ => Raise TypeError
  end.

(** [container.get(key, default)]: only a dict has the method. *)
Definition py_get (container : pyval) (key : string) (default : pyval) : result pyval :=
  match container with
  | PDict d => Ret (match dict_get d key with Some v => v | None => default end)
  | _ => Raise AttributeError
  end.

End PyContainers.

(* ================================================================== *)
(** ** settings_manager.py *)
(* ================================================================== *)
Module SettingsManager.
Import Py Json PyOps PyContainers.

Inductive settings_line : Type :=
| SettingsLoadedLine
| SettingsUnusableLine
| SettingsMissingLine.

(** What [os.path.exists], [open] and [f.read()] give for the settings
    file. *)
Inductive settings_file : Type :=
| NoSettingsFile
| SettingsText (text : string)
| SettingsReadRaises (e : exn).

Definition default_items : dict :=
  [("api_keys",
    PDict (map (fun pc => (fst pc, PStr "")) Providers.API_CONFIGS));
   ("selected_models",
    PDict (map (fun pc => (fst pc, PStr (Providers.default_model (snd pc))))
             Providers.API_CONFIGS));
   ("last_provider", PStr "OpenAI");
   ("last_input_file", PStr "");
   ("last_output_file", PStr "");
   ("last_viz_file", PStr "")].

Definition _load_defaults : pyval := PDict default_items.

(** The inner loop of [load_settings]:
    [for sub_key, sub_value in value.items(): ...] *)
Fixpoint fill_sub_keys (loaded_settings : pyval) (key : string) (subs : dict)
  : result pyval :=
  match subs with
  | [] => Ret loaded_settings
  | (sub_key, sub_value) :: rest =>
      match getitem_str loaded_settings key with
      | Raise e => Raise e
      | Ret inner =>
          match py_in sub_key inner with
          | Raise e => Raise e
          | Ret true => fill_sub_keys loaded_settings key rest
          | Ret false =>
              match setitem_str inner sub_key sub_value with
              | Raise e => Raise e
              | Ret inner' =>
                  match setitem_str loaded_settings key inner' with
                  | Raise e => Raise e
                  | Ret loaded_settings' => fill_sub_keys loaded_settings' key rest
                  end
              end
          end
      end
  end.

(** The outer loop: [for key, value in default_settings.items(): ...] *)
Fixpoint merge_defaults (loaded_settings : pyval) (defaults : dict) : result pyval :=
  match defaults with
  | [] => Ret loaded_settings
  | (key, value) :: rest =>
      match py_in key loaded_settings with
      | Raise e => Raise e
      | Ret false =>
          match setitem_str loaded_settings key value with
          | Raise e => Raise e
          | Ret loaded_settings' => merge_defaults loaded_settings' rest
          end
      | Ret true =>
          match value with
          | PDict subs =>
              match fill_sub_keys loaded_settings key subs with
              | Raise e => Raise e
              | Ret loaded_settings' => merge_defaults loaded_settings' rest
              end
          | _ => merge_defaults loaded_settings rest
          end
      end
  end.

Definition is_type_error (e : exn) : bool :=
  match e with
  | TypeError => true
  | _ => false
  end.

(** [load_settings]: the lines it logs and the new [self.settings]; when it
    raises, [self.settings] is left as it was.  The handler catches
    [JSONDecodeError] and [TypeError], whoever raised them. *)
Definition load_settings (py : interpreter) (file : settings_file)
  : list settings_line * result pyval :=
  match file with
  | NoSettingsFile => ([SettingsMissingLine], Ret _load_defaults)
  | SettingsReadRaises e =>
      if is_type_error e then ([SettingsUnusableLine], Ret _load_defaults)
      else ([], Raise e)
  | SettingsText text =>
      match loads py text with
      | JSONDecodeError => ([SettingsUnusableLine], Ret _load_defaults)
      | LoadsRaises e =>
          if is_type_error e then ([SettingsUnusableLine], Ret _load_defaults)
          else ([], Raise e)
      | OutOfFuel => ([], Raise (OtherError "out of fuel"))
      | Loaded loaded_settings =>
          match merge_defaults loaded_settings default_items with
          | Ret merged => ([SettingsLoadedLine], Ret merged)
          | Raise e =>
              if is_type_error e then ([SettingsUnusableLine], Ret _load_defaults)
              else ([], Raise e)
          end
      end
  end.

(** [get(key, default)] *)
Definition get (settings : pyval) (key : string) (default : pyval) : result pyval :=
  py_get settings key default.

(** [set(key, value)] *)
Definition set (settings : pyval) (key : string) (value : pyval) : result pyval :=
  setitem_str settings key value.

(** [self.settings.get(section, {}).get(name, '')] *)
Definition get_nested (settings : pyval) (section name : string) : result pyval :=
  match py_get settings section (PDict []) with
  | Raise e => Raise e
  | Ret inner => py_get inner name (PStr "")
  end.

(** [if section not in self.settings: self.settings[section] = {}] and then
    [self.settings[section][name] = value] *)
Definition set_nested (settings : pyval) (section name : string) (value : pyval)
  : result pyval :=
  match py_in section settings with
  | Raise e => Raise e
  | Ret present =>
      match (if present then Ret settings else setitem_str settings section (PDict [])) with
      | Raise e => Raise e
      | Ret settings1 =>
          match getitem_str settings1 section with
          | Raise e => Raise e
          | Ret inner =>
              match setitem_str inner name value with
              | Raise e => Raise e
              | Ret inner' => setitem_str settings1 section inner'
              end
          end
      end
  end.

Definition get_api_key (settings : pyval) (provider : string) : result pyval :=
  get_nested settings "api_keys" provider.

Definition set_api_key (settings : pyval) (provider key : string) : result pyval :=
  set_nested settings "api_keys" provider (PStr key).

Definition get_selected_model (settings : pyval) (provider : string) : result pyval :=
  get_nested settings "selected_models" provider.

Definition set_selected_model (settings : pyval) (provider mdl : string) : result pyval :=
  set_nested settings "selected_models" provider (PStr mdl).

End SettingsManager.

(* ================================================================== *)
(** ** prompt_manager.py *)
(* ================================================================== *)
Module PromptManager.
Import Py.

Inductive prompt_line : Type :=
| PromptsDirMissingLine
| PromptLoadedLine (prompt_name : string)
| PromptLoadErrorLine (filename : string)
| NoPromptsLine
| PromptScanErrorLine.

(** What the prompts directory is like: absent (with the outcome of
    [os.makedirs]), unreadable, or a listing in the order of [os.listdir],
    each entry with what [open(...).read()] gives for it. *)
Inductive prompts_dir : Type :=
| NoPromptsDir (makedirs : option exn)
| ListdirRaises (e : exn)
| Listing (entries : list (string * result string)).

(** [s.endswith(suffix)] *)
Definition ends_with (suffix s : string) : bool :=
  match strip_prefix (string_rev suffix) (string_rev s) with
  | Some _ => true
  | None => false
  end.

(** [s.rfind(c)] for a character: the index of its last occurrence. *)
Fixpoint rfind_from (c : ascii) (s : string) (i : nat) (last : option nat)
  : option nat :=
  match s with
  | EmptyString => last
  | String x s' => rfind_from c s' (S i) (if Ascii.eqb x c then Some i else last)
  end.

Definition rfind (c : ascii) (s : string) : option nat := rfind_from c s 0 None.

Fixpoint all_dots (s : string) : bool :=
  match s with
  | EmptyString => true
  | String x s' => (Ascii.eqb x "." && all_dots s')%bool
  end.

(** [os.path.splitext(p)[0]] (posixpath): the extension starts at the last
    dot, unless that dot comes before the last slash or only dots stand
    between the last slash and it. *)
Definition splitext_root (p : string) : string :=
  match rfind "." p with
  | None => p
  | Some dotIndex =>
      let filenameIndex :=
        match rfind "/" p with
        | Some sepIndex => S sepIndex
        | None => 0
        end in
      if (filenameIndex <=? dotIndex)%nat then
        if all_dots (substring filenameIndex (dotIndex - filenameIndex) p) then p
        else substring 0 dotIndex p
      else p
  end.

(** [s.replace('_', ' ')] *)
Fixpoint replace_underscores (s : string) : string :=
  match s with
  | EmptyString => EmptyString
  | String x s' => String (if Ascii.eqb x "_" then " "%char else x) (replace_underscores s')
  end.

Section Titles.

(** [str.title()], which follows Unicode's case tables. *)
Variable str_title : string -> string.

Definition prompt_name_of (filename : string) : string :=
  str_title (replace_underscores (splitext_root filename)).

(** One pass through the loop over the listing. *)
Definition load_one (acc : list prompt_line * list (string * string))
  (entry : string * result string) : list prompt_line * list (string * string) :=
  let (lines, prompts) := acc in
  let (filename, read) := entry in
  if ends_with ".txt" filename then
    match read with
    | Ret content =>
        ((lines ++ [PromptLoadedLine (prompt_name_of filename)])%list,
         dict_set prompts (prompt_name_of filename) content)
    | Raise _ => ((lines ++ [PromptLoadErrorLine filename])%list, prompts)
    end
  else acc.

(** [load_prompts]: the lines it logs and the new [self.prompts]; when
    [os.makedirs] raises, [self.prompts] is left empty. *)
Definition load_prompts (dir : prompts_dir)
  : list prompt_line * result (list (string * string)) :=
  match dir with
  | NoPromptsDir None => ([PromptsDirMissingLine], Ret [])
  | NoPromptsDir (Some e) => ([PromptsDirMissingLine], Raise e)
  | ListdirRaises _ => ([PromptScanErrorLine], Ret [])
  | Listing entries =>
      let (lines, prompts) := fold_left load_one entries ([], []) in
      match prompts with
      | [] => ((lines ++ [NoPromptsLine])%list, Ret prompts)
      | _ :: _ => (lines, Ret prompts)
      end
  end.

End Titles.

Definition get_prompt_names (prompts : list (string * string)) : list string :=
  dict_keys prompts.

Definition get_prompt_template (prompts : list (string * string)) (name : string)
  : option string :=
  dict_get prompts name.

End PromptManager.

(* ================================================================== *)
(** * Properties *)
(* ================================================================== *)

(** ** [json.loads] always answers *)
Module JsonFacts.
Import Py Json.

Lemma length_append (a b : string) :
  String.length (a ++ b) = String.length a + String.length b.
Proof. induction a as [|c a IH]; simpl; [reflexivity|now rewrite IH]. Qed.

Lemma skip_ws_length (s : string) : String.length (skip_ws s) <= String.length s.
Proof.
  induction s as [|c s IH]; simpl; [lia|].
  destruct (is_json_ws c); simpl; lia.
Qed.

Lemma strip_prefix_length (p s r : string) :
  strip_prefix p s = Some r -> String.length r + String.length p = String.length s.
Proof.
  revert s; induction p as [|a p IH]; intros s H; simpl in *.
  - inversion H; subst; lia.
  - destruct s as [|b s]; [discriminate|].
    destruct (Ascii.eqb a b); [|discriminate].
    apply IH in H. simpl. lia.
Qed.

Lemma scan_items_length (s : string) :
  forall st acc items r,
    scan_items st s acc = Some (items, r) -> String.length r < String.length s.
Proof.
  induction s as [|c s IH]; intros st acc items r H; simpl in H; [discriminate|].
  simpl.
  destruct st.
  - destruct (Ascii.eqb c dquote).
    + inversion H; subst; lia.
    + destruct (Ascii.eqb c backslash); [apply IH in H; lia|].
      destruct (byte_of c <? 32)%N; [discriminate|apply IH in H; lia].
  - destruct (Ascii.eqb c "u"); [apply IH in H; lia|].
    destruct (simple_escape c); [apply IH in H; lia|discriminate].
  - destruct (hex_val c); [|discriminate].
    destruct left as [|[|m]]; [discriminate| |]; apply IH in H; lia.
Qed.

Lemma scanstring_length (s k r : string) :
  scanstring s = Some (k, r) -> String.length r < String.length s.
Proof.
  unfold scanstring. destruct (scan_items SText s []) as [[items rest]|] eqn:E; [|discriminate].
  intros H; inversion H; subst. eapply scan_items_length; eauto.
Qed.

Lemma span_digits_length (s d r : string) :
  span_digits s = (d, r) -> String.length r <= String.length s.
Proof.
  revert d r; induction s as [|c s IH]; intros d r H; simpl in *.
  - inversion H; subst; simpl; lia.
  - destruct (is_digit c).
    + destruct (span_digits s) as [d' r'] eqn:E. inversion H; subst.
      specialize (IH _ _ eq_refl). lia.
    + inversion H; subst; simpl; lia.
Qed.

Lemma match_int_length (s i r : string) :
  match_int s = Some (i, r) -> String.length r < String.length s.
Proof.
  unfold match_int.
  destruct s as [|c s]; [discriminate|].
  destruct (Ascii.eqb c "-").
  - destruct s as [|c' s']; [discriminate|].
    destruct (Ascii.eqb c' "0"); [intros H; inversion H; subst; simpl; lia|].
    destruct (is_digit c'); [|discriminate].
    destruct (span_digits s') as [d r'] eqn:E. apply span_digits_length in E.
    intros H; inversion H; subst; simpl; lia.
  - destruct (Ascii.eqb c "0"); [intros H; inversion H; subst; simpl; lia|].
    destruct (is_digit c); [|discriminate].
    destruct (span_digits s) as [d r'] eqn:E. apply span_digits_length in E.
    intros H; inversion H; subst; simpl; lia.
Qed.

Lemma match_frac_length (s f r : string) :
  match_frac s = (f, r) -> String.length r <= String.length s.
Proof.
  unfold match_frac. destruct s as [|c s]; [intros H; inversion H; subst; lia|].
  destruct (Ascii.eqb c "."); [|intros H; inversion H; subst; lia].
  destruct (span_digits s) as [d r'] eqn:E. apply span_digits_length in E.
  destruct d; intros H; inversion H; subst; simpl; lia.
Qed.

Lemma match_exp_length (s e r : string) :
  match_exp s = (e, r) -> String.length r <= String.length s.
Proof.
  unfold match_exp. destruct s as [|c s]; [intros H; inversion H; subst; lia|].
  destruct (Ascii.eqb c "e" || Ascii.eqb c "E")%bool; [|intros H; inversion H; subst; lia].
  destruct s as [|c2 r2].
  - simpl. intros H; inversion H; subst; simpl; lia.
  - destruct (Ascii.eqb c2 "-" || Ascii.eqb c2 "+")%bool.
    + destruct (span_digits r2) as [d r'] eqn:E. apply span_digits_length in E.
      destruct d; intros H; inversion H; subst; simpl; lia.
    + destruct (span_digits (String c2 r2)) as [d r'] eqn:E. apply span_digits_length in E.
      destruct d; intros H; inversion H; subst; simpl in *; lia.
Qed.

Lemma match_number_length (n : nat) (s : string) (v : result pyval) (r : string) :
  match_number n s = Some (v, r) -> String.length r < String.length s.
Proof.
  unfold match_number.
  destruct (match_int s) as [[i r0]|] eqn:Ei; [|discriminate].
  apply match_int_length in Ei.
  destruct (match_frac r0) as [f r1] eqn:Ef. apply match_frac_length in Ef.
  destruct (match_exp r1) as [e r2] eqn:Ee. apply match_exp_length in Ee.
  destruct (String.eqb f "" && String.eqb e "")%bool;
    [destruct (int_of_text n i)|]; intros H; inversion H; subst; lia.
Qed.

Lemma scan_atom_length (n : nat) (s : string) (v : pyval) (r : string) :
  scan_atom n s = POk v r -> String.length r < String.length s.
Proof.
  unfold scan_atom.
  repeat match goal with
  | |- context [strip_prefix ?p s] =>
      let E := fresh "E" in
      destruct (strip_prefix p s) eqn:E;
      [apply strip_prefix_length in E; simpl in E; intros H; inversion H; subst; lia|]
  | |- context [match_number n s] =>
      let E := fresh "E" in
      destruct (match_number n s) as [[[?|?] ?]|] eqn:E;
      [apply match_number_length in E; intros H; inversion H; subst; lia
      |discriminate|]
  end.
  discriminate.
Qed.

Lemma scan_atom_fuel (n : nat) (s : string) : scan_atom n s <> PFuel.
Proof.
  unfold scan_atom.
  repeat match goal with
  | |- context [strip_prefix ?p s] => destruct (strip_prefix p s); [discriminate|]
  | |- context [match_number n s] =>
      destruct (match_number n s) as [[[?|?] ?]|]; [discriminate|discriminate|]
  end.
  discriminate.
Qed.


Definition shrinks {A : Type} (p : pres A) (s : string) : Prop :=
  p <> PFuel /\ forall a r, p = POk a r -> String.length r < String.length s.

Lemma scan_once_enough_fuel (n : nat) (fuel : nat) :
  (forall depth s, 2 * String.length s < fuel -> shrinks (scan_once n fuel depth s) s)
  /\ (forall depth s acc,
        2 * String.length s < fuel -> shrinks (parse_object n fuel depth s acc) s)
  /\ (forall depth s acc,
        2 * String.length s + 1 < fuel -> shrinks (parse_array n fuel depth s acc) s).
Proof.
  unfold shrinks.
  induction fuel as [|fuel [IHv [IHo IHa]]].
  - repeat split; intros; lia.
  - split; [|split].
    + (* scan_once *)
      intros depth s Hlen. simpl.
      destruct s as [|c s']; [split; [discriminate|intros; discriminate]|].
      simpl in Hlen.
      destruct (Ascii.eqb c dquote).
      { destruct (scanstring s') as [[k r]|] eqn:E;
          [|split; [discriminate|intros; discriminate]].
        apply scanstring_length in E.
        split; [discriminate|]. intros a r0 H; inversion H; subst; simpl; lia. }
      destruct (Ascii.eqb c "{").
      { destruct depth as [|depth]; [split; [discriminate|intros; discriminate]|].
        pose proof (skip_ws_length s') as Hws.
        destruct (skip_ws s') as [|c1 r1] eqn:E;
          [split; [discriminate|intros; discriminate]|].
        simpl in Hws.
        destruct (Ascii.eqb c1 "}").
        - split; [discriminate|]. intros a r0 H; inversion H; subst; simpl; lia.
        - destruct (IHo depth (String c1 r1) []) as [Hf Hl]; [simpl; lia|].
          destruct (parse_object n fuel depth (String c1 r1) []) as [d r| | |] eqn:Ep.
          + specialize (Hl _ _ eq_refl). simpl in Hl.
            split; [discriminate|]. intros a r0 H; inversion H; subst; simpl; lia.
          + split; [discriminate|intros; discriminate].
          + split; [discriminate|intros; discriminate].
          + congruence. }
      destruct (Ascii.eqb c "[").
      { destruct depth as [|depth]; [split; [discriminate|intros; discriminate]|].
        pose proof (skip_ws_length s') as Hws.
        destruct (skip_ws s') as [|c1 r1] eqn:E;
          [split; [discriminate|intros; discriminate]|].
        simpl in Hws.
        destruct (Ascii.eqb c1 "]").
        - split; [discriminate|]. intros a r0 H; inversion H; subst; simpl; lia.
        - destruct (IHa depth (String c1 r1) []) as [Hf Hl]; [simpl; lia|].
          destruct (parse_array n fuel depth (String c1 r1) []) as [d r| | |] eqn:Ep.
          + specialize (Hl _ _ eq_refl). simpl in Hl.
            split; [discriminate|]. intros a r0 H; inversion H; subst; simpl; lia.
          + split; [discriminate|intros; discriminate].
          + split; [discriminate|intros; discriminate].
          + congruence. }
      split; [apply scan_atom_fuel|apply scan_atom_length].
    + (* parse_object *)
      intros depth s acc Hlen. simpl.
      destruct s as [|c s']; [split; [discriminate|intros; discriminate]|].
      simpl in Hlen.
      destruct (negb (Ascii.eqb c dquote)); [split; [discriminate|intros; discriminate]|].
      destruct (scanstring s') as [[key r]|] eqn:Ek;
        [|split; [discriminate|intros; discriminate]].
      apply scanstring_length in Ek.
      pose proof (skip_ws_length r) as Hws.
      destruct (skip_ws r) as [|c2 r2];
        [split; [discriminate|intros; discriminate]|].
      simpl in Hws.
      destruct (negb (Ascii.eqb c2 ":")); [split; [discriminate|intros; discriminate]|].
      pose proof (skip_ws_length r2) as Hws2.
      destruct (IHv depth (skip_ws r2)) as [Hf Hl]; [lia|].
      destruct (scan_once n fuel depth (skip_ws r2)) as [v r3| | |];
        [|split; [discriminate|intros; discriminate]
         |split; [discriminate|intros; discriminate]|congruence].
      specialize (Hl _ _ eq_refl).
      pose proof (skip_ws_length r3) as Hws3.
      destruct (skip_ws r3) as [|c4 r4];
        [split; [discriminate|intros; discriminate]|].
      simpl in Hws3.
      destruct (Ascii.eqb c4 "}").
      { split; [discriminate|]. intros a r0 H; inversion H; subst; simpl; lia. }
      destruct (Ascii.eqb c4 ","); [|split; [discriminate|intros; discriminate]].
      pose proof (skip_ws_length r4) as Hws4.
      destruct (IHo depth (skip_ws r4) (dict_set acc key v)) as [Hf' Hl']; [lia|].
      split; [assumption|].
      intros a r0 H. apply Hl' in H. simpl. lia.
    + (* parse_array *)
      intros depth s acc Hlen. simpl.
      destruct (IHv depth s) as [Hf Hl]; [lia|].
      destruct (scan_once n fuel depth s) as [v r| | |];
        [|split; [discriminate|intros; discriminate]
         |split; [discriminate|intros; discriminate]|congruence].
      specialize (Hl _ _ eq_refl).
      pose proof (skip_ws_length r) as Hws.
      destruct (skip_ws r) as [|c r1];
        [split; [discriminate|intros; discriminate]|].
      simpl in Hws.
      destruct (Ascii.eqb c "]").
      { split; [discriminate|]. intros a r0 H; inversion H; subst; simpl; lia. }
      destruct (Ascii.eqb c ","); [|split; [discriminate|intros; discriminate]].
      pose proof (skip_ws_length r1) as Hws1.
      destruct (IHa depth (skip_ws r1) (acc ++ [v])%list) as [Hf' Hl']; [lia|].
      split; [assumption|].
      intros a r0 H. apply Hl' in H. lia.
Qed.

Lemma loads_never_out_of_fuel (py : interpreter) (s : string) :
  loads py s <> OutOfFuel.
Proof.
  unfold loads.
  destruct (strip_prefix bom s); [discriminate|].
  destruct (proj1 (scan_once_enough_fuel (int_max_str_digits py)
                     (S (2 * String.length s))) (recursion_budget py) (skip_ws s))
    as [Hf _]; [pose proof (skip_ws_length s); lia|].
  destruct (scan_once _ (S (2 * String.length s)) _ (skip_ws s)) as [v r| | |];
    [destruct (skip_ws r); discriminate|discriminate|discriminate|congruence].
Qed.

Lemma span_digits_exact (s d r : string) :
  span_digits s = (d, r) -> String.length d + String.length r = String.length s.
Proof.
  revert d r; induction s as [|c s IH]; intros d r H; simpl in *.
  - inversion H; subst; reflexivity.
  - destruct (is_digit c).
    + destruct (span_digits s) as [d' r'] eqn:E. inversion H; subst.
      specialize (IH _ _ eq_refl). simpl. lia.
    + inversion H; subst; simpl; lia.
Qed.

Lemma match_int_exact (s i r : string) :
  match_int s = Some (i, r) -> String.length i + String.length r = String.length s.
Proof.
  unfold match_int.
  destruct s as [|c s]; [discriminate|].
  destruct (Ascii.eqb c "-").
  - destruct s as [|c' s']; [discriminate|].
    destruct (Ascii.eqb c' "0"); [intros H; inversion H; subst; simpl; lia|].
    destruct (is_digit c'); [|discriminate].
    destruct (span_digits s') as [d r'] eqn:E. apply span_digits_exact in E.
    intros H; inversion H; subst; simpl; lia.
  - destruct (Ascii.eqb c "0"); [intros H; inversion H; subst; simpl; lia|].
    destruct (is_digit c); [|discriminate].
    destruct (span_digits s) as [d r'] eqn:E. apply span_digits_exact in E.
    intros H; inversion H; subst; simpl; lia.
Qed.

Lemma count_digits_le (s : string) : count_digits s <= String.length s.
Proof.
  destruct s as [|c r]; simpl; [lia|]. destruct (Ascii.eqb c "-"); simpl; lia.
Qed.

(** What a text must be like for the scanner to raise: more than 640
    characters and more than the limit on digits for [ValueError], more
    characters than the recursion budget for [RecursionError]. *)
Definition raised_by_size (n depth : nat) (s : string) (e : exn) : Prop :=
  (e = ValueError /\ 640 < String.length s /\ 0 < n /\ n < String.length s)
  \/ (e = RecursionError /\ depth < String.length s).

Lemma raised_by_size_longer (n depth depth' : nat) (s s' : string) (e : exn) :
  raised_by_size n depth' s' e ->
  String.length s' <= String.length s ->
  depth + String.length s' <= depth' + String.length s ->
  raised_by_size n depth s e.
Proof.
  unfold raised_by_size. intros [[He H]|[He H]] Hl Hd; [left|right]; split; try easy; lia.
Qed.

Lemma scan_atom_raised_by_size (n depth : nat) (s : string) (e : exn) :
  scan_atom n s = PRaise e -> raised_by_size n depth s e.
Proof.
  unfold scan_atom.
  repeat match goal with
  | |- context [strip_prefix ?p s] => destruct (strip_prefix p s); [discriminate|]
  end.
  destruct (match_number n s) as [[[v|x] r]|] eqn:E; [discriminate| |].
  - intros H; inversion H; subst x. clear H. left.
    unfold match_number in E.
    destruct (match_int s) as [[i r0]|] eqn:Ei; [|discriminate].
    apply match_int_exact in Ei.
    destruct (match_frac r0) as [f r1]. destruct (match_exp r1) as [x r2].
    destruct (String.eqb f "" && String.eqb x "")%bool; [|discriminate].
    unfold int_of_text in E. pose proof (count_digits_le i) as Hc.
    destruct (640 <? count_digits i)%nat eqn:E1; [|discriminate].
    destruct (0 <? n)%nat eqn:E2; [|discriminate].
    destruct (n <? count_digits i)%nat eqn:E3; [|discriminate].
    apply Nat.ltb_lt in E1, E2, E3. cbn in E. inversion E; subst e.
    repeat split; lia.
  - repeat match goal with
    | |- context [strip_prefix ?p s] => destruct (strip_prefix p s); [discriminate|]
    end.
    discriminate.
Qed.

Lemma scan_once_raised_by_size (n : nat) (fuel : nat) :
  (forall depth s e,
      2 * String.length s < fuel ->
      scan_once n fuel depth s = PRaise e -> raised_by_size n depth s e)
  /\ (forall depth s acc e,
        2 * String.length s < fuel ->
        parse_object n fuel depth s acc = PRaise e -> raised_by_size n depth s e)
  /\ (forall depth s acc e,
        2 * String.length s + 1 < fuel ->
        parse_array n fuel depth s acc = PRaise e -> raised_by_size n depth s e).
Proof.
  induction fuel as [|fuel [IHv [IHo IHa]]]; [repeat split; intros; lia|].
  destruct (scan_once_enough_fuel n fuel) as [Sv [So Sa]]. unfold shrinks in *.
  split; [|split].
  - intros depth s e Hlen. simpl.
    destruct s as [|c s']; [discriminate|]. simpl in Hlen.
    destruct (Ascii.eqb c dquote).
    { destruct (scanstring s') as [[k r]|]; discriminate. }
    destruct (Ascii.eqb c "{").
    { destruct depth as [|depth];
        [intros H; inversion H; right; split; [reflexivity|simpl; lia]|].
      pose proof (skip_ws_length s') as Hws.
      destruct (skip_ws s') as [|c1 r1]; [discriminate|].
      destruct (Ascii.eqb c1 "}"); [discriminate|].
      destruct (parse_object n fuel depth (String c1 r1) []) as [d r| |x|] eqn:E;
        try discriminate.
      intros H; inversion H; subst x.
      apply IHo in E; [|lia].
      apply (raised_by_size_longer _ _ _ _ _ _ E); simpl in *; lia. }
    destruct (Ascii.eqb c "[").
    { destruct depth as [|depth];
        [intros H; inversion H; right; split; [reflexivity|simpl; lia]|].
      pose proof (skip_ws_length s') as Hws.
      destruct (skip_ws s') as [|c1 r1]; [discriminate|].
      destruct (Ascii.eqb c1 "]"); [discriminate|].
      destruct (parse_array n fuel depth (String c1 r1) []) as [d r| |x|] eqn:E;
        try discriminate.
      intros H; inversion H; subst x.
      apply IHa in E; [|simpl in *; lia].
      apply (raised_by_size_longer _ _ _ _ _ _ E); simpl in *; lia. }
    apply scan_atom_raised_by_size.
  - intros depth s acc e Hlen. simpl.
    destruct s as [|c s']; [discriminate|]. simpl in Hlen.
    destruct (negb (Ascii.eqb c dquote)); [discriminate|].
    destruct (scanstring s') as [[key r]|] eqn:Ek; [|discriminate].
    apply scanstring_length in Ek.
    pose proof (skip_ws_length r) as Hws.
    destruct (skip_ws r) as [|c2 r2]; [discriminate|]. simpl in Hws.
    destruct (negb (Ascii.eqb c2 ":")); [discriminate|].
    pose proof (skip_ws_length r2) as Hws2.
    destruct (Sv depth (skip_ws r2)) as [_ Hl]; [lia|].
    destruct (scan_once n fuel depth (skip_ws r2)) as [v r3| |x|] eqn:E;
      try discriminate.
    + specialize (Hl _ _ eq_refl).
      pose proof (skip_ws_length r3) as Hws3.
      destruct (skip_ws r3) as [|c4 r4]; [discriminate|]. simpl in Hws3.
      destruct (Ascii.eqb c4 "}"); [discriminate|].
      destruct (Ascii.eqb c4 ","); [|discriminate].
      pose proof (skip_ws_length r4) as Hws4.
      intros H. apply IHo in H; [|lia].
      apply (raised_by_size_longer _ _ _ _ _ _ H); simpl; lia.
    + intros H; inversion H; subst x. apply IHv in E; [|lia].
      apply (raised_by_size_longer _ _ _ _ _ _ E); simpl; lia.
  - intros depth s acc e Hlen. simpl.
    destruct (Sv depth s) as [_ Hl]; [lia|].
    destruct (scan_once n fuel depth s) as [v r| |x|] eqn:E; try discriminate.
    + specialize (Hl _ _ eq_refl).
      pose proof (skip_ws_length r) as Hws.
      destruct (skip_ws r) as [|c r1]; [discriminate|]. simpl in Hws.
      destruct (Ascii.eqb c "]"); [discriminate|].
      destruct (Ascii.eqb c ","); [|discriminate].
      pose proof (skip_ws_length r1) as Hws1.
      intros H. apply IHa in H; [|lia].
      apply (raised_by_size_longer _ _ _ _ _ _ H); lia.
    + intros H; inversion H; subst x. apply IHv in E; [|lia].
      exact E.
Qed.

(** [json.loads] raises only [ValueError], and then the text has more than
    640 characters and more than the limit on digits allows, or
    [RecursionError], and then the text has more characters than the
    scanner may open objects and arrays. *)
Lemma loads_raises_only_by_size (py : interpreter) (s : string) (e : exn) :
  loads py s = LoadsRaises e ->
  raised_by_size (int_max_str_digits py) (recursion_budget py) s e.
Proof.
  unfold loads. destruct (strip_prefix bom s); [discriminate|].
  pose proof (skip_ws_length s) as Hws.
  destruct (scan_once _ _ _ _) as [v r| |x|] eqn:E; try discriminate.
  - destruct (skip_ws r); discriminate.
  - intros H; inversion H; subst x.
    apply (proj1 (scan_once_raised_by_size _ _)) in E; [|lia].
    apply (raised_by_size_longer _ _ _ _ _ _ E); lia.
Qed.

Lemma loads_raises (py : interpreter) (s : string) (e : exn) :
  loads py s = LoadsRaises e -> e = ValueError \/ e = RecursionError.
Proof.
  intros H. destruct (loads_raises_only_by_size py s e H) as [[He _]|[He _]]; auto.
Qed.

End JsonFacts.

(** ** Dicts, cells and the flattener *)
Module PyFacts.
Import Py.

Lemma dict_set_fresh {V : Type} (d : list (string * V)) (k : string) (v : V) :
  ~ In k (dict_keys d) -> dict_set d k v = (d ++ [(k, v)])%list.
Proof.
  induction d as [|[k' v'] d IH]; simpl; intros Hk; [reflexivity|].
  destruct (String.eqb k' k) eqn:E.
  - apply String.eqb_eq in E. tauto.
  - rewrite IH; tauto.
Qed.

Lemma dict_get_set_same {V : Type} (d : list (string * V)) (k : string) (v : V) :
  dict_get (dict_set d k v) k = Some v.
Proof.
  induction d as [|[k' v'] d IH]; simpl.
  - now rewrite String.eqb_refl.
  - destruct (String.eqb k' k) eqn:E; simpl; rewrite E; [reflexivity|exact IH].
Qed.

Lemma dict_get_set_other {V : Type} (d : list (string * V)) (k k0 : string) (v : V) :
  k0 <> k -> dict_get (dict_set d k v) k0 = dict_get d k0.
Proof.
  intros Hne. induction d as [|[k' v'] d IH]; simpl.
  - destruct (String.eqb k k0) eqn:E; [apply String.eqb_eq in E; congruence|reflexivity].
  - destruct (String.eqb k' k) eqn:E; simpl.
    + apply String.eqb_eq in E; subst k'.
      destruct (String.eqb k k0) eqn:E0; [apply String.eqb_eq in E0; congruence|reflexivity].
    + destruct (String.eqb k' k0); [reflexivity|exact IH].
Qed.

Lemma dict_update_fresh {V : Type} (other d : list (string * V)) :
  NoDup (dict_keys d ++ dict_keys other) -> dict_update d other = (d ++ other)%list.
Proof.
  unfold dict_update. revert d.
  induction other as [|[k v] other IH]; intros d Hnd; simpl.
  - now rewrite app_nil_r.
  - rewrite dict_set_fresh.
    + rewrite IH.
      * now rewrite <- app_assoc.
      * unfold dict_keys in *. rewrite map_app, <- app_assoc. exact Hnd.
    + simpl in Hnd. apply NoDup_remove_2 in Hnd.
      intros Hin. apply Hnd. apply in_or_app. now left.
Qed.

Lemma float_eqb_refl (f : float64) : float_eqb f f = true.
Proof.
  destruct f as [s m e|s]; simpl.
  - rewrite Z.leb_refl, Z.sub_diag. apply Z.eqb_eq. simpl. lia.
  - apply Bool.eqb_reflx.
Qed.

(** Every value but NaN is equal to itself. *)
Lemma cell_eqb_refl (c : cell) : c <> CNaN -> cell_eqb c c = true.
Proof.
  destruct c; simpl; intros H.
  - now elim H.
  - apply Z.eqb_refl.
  - apply float_eqb_refl.
  - apply Bool.eqb_reflx.
  - apply String.eqb_refl.
Qed.

Lemma cell_eqb_nan_l (c : cell) : cell_eqb CNaN c = false.
Proof. reflexivity. Qed.

Lemma cell_eqb_nan_r (c : cell) : cell_eqb c CNaN = false.
Proof. now destruct c. Qed.

(** Text is equal to the same text and to nothing else. *)
Lemma cell_eqb_text (s : string) (c : cell) :
  cell_eqb (CStr s) c = true <-> c = CStr s.
Proof.
  destruct c; simpl; split; intros H; try discriminate.
  - apply String.eqb_eq in H. now subst.
  - inversion H. apply String.eqb_refl.
Qed.

(** Below 2^53 an integer and the float it converts to are one value for
    Python's [==]. *)
Lemma float_of_small (z : Z) :
  (Z.abs z < 2 ^ 53)%Z ->
  float_of_Z z = FFinite (z <? 0)%Z (Z.to_N (Z.abs z)) 0.
Proof.
  intros H. unfold float_of_Z. cbv zeta.
  destruct (Z.abs z <? 2 ^ 53)%Z eqn:E; [reflexivity|].
  apply Z.ltb_ge in E. lia.
Qed.

Lemma signed_abs (z : Z) : signed (z <? 0)%Z (Z.to_N (Z.abs z)) = z.
Proof.
  unfold signed. destruct (z <? 0)%Z eqn:E.
  - apply Z.ltb_lt in E. rewrite Z2N.id by lia. lia.
  - apply Z.ltb_ge in E. rewrite Z2N.id by lia. lia.
Qed.

Lemma float_eq_Z_small (z x : Z) :
  (Z.abs z < 2 ^ 53)%Z -> float_eq_Z (float_of_Z z) x = Z.eqb z x.
Proof.
  intros H. rewrite (float_of_small z H). unfold float_eq_Z.
  rewrite signed_abs. cbn [Z.leb Z.compare]. now rewrite Z.pow_0_r, Z.mul_1_r.
Qed.

Lemma float_eqb_small_r (f : float64) (z : Z) :
  (Z.abs z < 2 ^ 53)%Z -> float_eqb f (float_of_Z z) = float_eq_Z f z.
Proof.
  intros H. rewrite (float_of_small z H).
  destruct f as [s m e|s]; [|reflexivity].
  unfold float_eqb, float_eq_Z. rewrite signed_abs.
  destruct (e <=? 0)%Z eqn:E1; destruct (0 <=? e)%Z eqn:E2.
  - apply Z.leb_le in E1, E2. assert (e = 0%Z) by lia. subst e.
    cbn. now rewrite !Z.mul_1_r.
  - now rewrite Z.sub_0_l.
  - now rewrite Z.sub_0_r.
  - apply Z.leb_gt in E1, E2. lia.
Qed.

Lemma float_eqb_small_l (f : float64) (z : Z) :
  (Z.abs z < 2 ^ 53)%Z -> float_eqb (float_of_Z z) f = float_eq_Z f z.
Proof.
  intros H. rewrite (float_of_small z H).
  destruct f as [s m e|s]; [|reflexivity].
  unfold float_eqb, float_eq_Z. rewrite signed_abs.
  destruct (0 <=? e)%Z eqn:E2.
  - rewrite Z.sub_0_r. apply Z.eqb_sym.
  - apply Z.leb_gt in E2. rewrite Z.sub_0_l. apply Z.eqb_sym.
Qed.

Lemma cell_eqb_small_float_r (c : cell) (z : Z) :
  (Z.abs z < 2 ^ 53)%Z ->
  cell_eqb c (CFloat (float_of_Z z)) = cell_eqb c (CInt z).
Proof.
  intros H. destruct c as [|x|f|b|t]; cbn [cell_eqb]; try reflexivity.
  - rewrite (float_eq_Z_small z x H). apply Z.eqb_sym.
  - now apply float_eqb_small_r.
  - rewrite (float_eq_Z_small z _ H). apply Z.eqb_sym.
Qed.

Lemma cell_eqb_small_float_l (c : cell) (z : Z) :
  (Z.abs z < 2 ^ 53)%Z ->
  cell_eqb (CFloat (float_of_Z z)) c = cell_eqb (CInt z) c.
Proof.
  intros H. destruct c as [|x|f|b|t]; cbn [cell_eqb]; try reflexivity.
  - now apply float_eq_Z_small.
  - now apply float_eqb_small_l.
  - now apply float_eq_Z_small.
Qed.

End PyFacts.

Module UtilsFacts.
Import Py Utils PyFacts.

(** A mapping none of whose values is a dict or a list. *)
Definition is_flat (m : dict) : bool :=
  forallb (fun kv => match snd kv with PDict _ | PList _ => false | _ => true end) m.

Definition example_nested : pyval :=
  PDict [("a", PInt 1); ("b", PDict [("c", PInt 2); ("d", PList [PInt 3; PInt 4])])].

Section FlattenFacts.
Variable py_repr : pyval -> string.

(** On a flat mapping the loop of [flatten_json_result] assigns every item
    under its own key. *)
Lemma flatten_flat_is_update (m items : dict) (sep : string) :
  is_flat m = true ->
  (fix each_item (d : list (string * pyval)) (items : dict) {struct d} : dict :=
     match d with
     | [] => items
     | (k, v) :: rest =>
         let new_key := child_key "" sep k in
         each_item rest
           match v with
           | PDict _ => dict_update items (flatten_json_result py_repr v new_key sep)
           | PList l => dict_set items new_key (PStr (String.concat ", " (map (py_str py_repr) l)))
           | _ => dict_set items new_key v
           end
     end) m items = dict_update items m.
Proof.
  revert items. induction m as [|[k v] m IH]; intros items Hflat; [reflexivity|].
  simpl in Hflat. apply andb_prop in Hflat as [Hv Hm].
  unfold dict_update in *. simpl fold_left.
  rewrite <- (IH _ Hm).
  destruct v; try discriminate; reflexivity.
Qed.

(** C7. [flatten_json_result], called with its default arguments, maps
    {"a":1,"b":{"c":2,"d":[3,4]}} to {"a":1,"b_c":2,"b_d":"3, 4"}; it returns
    every flat mapping (one with no dict or list value; its keys are
    distinct, as in any dict) unchanged, items in the same order; and it
    wraps every value that is not a mapping as {"value": v}.  Being a
    function of its argument, it is deterministic. *)
Theorem flatten_example_idempotent_wrapper :
  flatten py_repr example_nested
    = [("a", PInt 1); ("b_c", PInt 2); ("b_d", PStr "3, 4")]
  /\ (forall m : dict,
        NoDup (dict_keys m) -> is_flat m = true -> flatten py_repr (PDict m) = m)
  /\ (forall v : pyval,
        (forall d, v <> PDict d) -> flatten py_repr v = [("value", v)]).
Proof.
  split; [reflexivity|split].
  - intros m Hnd Hflat. unfold flatten.
    change (flatten_json_result py_repr (PDict m) "" "_")
      with ((fix each_item (d : list (string * pyval)) (items : dict) {struct d} : dict :=
               match d with
               | [] => items
               | (k, v) :: rest =>
                   let new_key := child_key "" "_" k in
                   each_item rest
                     match v with
                     | PDict _ =>
                         dict_update items (flatten_json_result py_repr v new_key "_")
                     | PList l =>
                         dict_set items new_key
                           (PStr (String.concat ", " (map (py_str py_repr) l)))
                     | _ => dict_set items new_key v
                     end
               end) m []).
    rewrite (flatten_flat_is_update m [] "_" Hflat).
    now apply (dict_update_fresh m []).
  - intros v Hv. destruct v; try reflexivity.
    exfalso. now apply (Hv d).
Qed.

End FlattenFacts.

Lemma flatten_witness :
  NoDup (dict_keys [("title", PStr "x"); ("year", PInt 2024)])
  /\ is_flat [("title", PStr "x"); ("year", PInt 2024)] = true
  /\ flatten PlainFormat.no_repr (PDict [("title", PStr "x"); ("year", PInt 2024)])
      = [("title", PStr "x"); ("year", PInt 2024)]
  /\ flatten PlainFormat.no_repr (PStr "plain") = [("value", PStr "plain")].
Proof.
  assert (Hnd : NoDup (dict_keys [("title", PStr "x"); ("year", PInt 2024)])).
  { repeat constructor; simpl; intuition discriminate. }
  destruct (flatten_example_idempotent_wrapper PlainFormat.no_repr) as [_ [Hflat Hwrap]].
  split; [exact Hnd|split; [reflexivity|split]].
  - apply Hflat; [exact Hnd|reflexivity].
  - apply Hwrap. intros d; discriminate.
Defined.

End UtilsFacts.

(** ** api_clients.py: the retry loop and the response cleaner *)
Module ApiClientsFacts.
Import Py Json PyOps Queue Config ApiClients JsonFacts.

(** What a trace shows of the retry loop: the attempts made and the
    seconds slept, in order. *)
Inductive step : Type :=
| Attempt (number : nat)
| Wait (seconds : nat).

Definition posts (tr : list event) : list nat :=
  flat_map (fun ev => match ev with Post _ a => [a] | _ => [] end) tr.

Definition sleeps (tr : list event) : list nat :=
  flat_map (fun ev => match ev with Sleep s => [s] | _ => [] end) tr.

Definition schedule (tr : list event) : list step :=
  flat_map (fun ev => match ev with
                      | Post _ a => [Attempt a]
                      | Sleep s => [Wait s]
                      | Log _ => []
                      end) tr.

(** Attempts with one wait between each two of them. *)
Fixpoint interleave (attempts waits : list nat) : list step :=
  match attempts with
  | [] => []
  | a :: attempts' =>
      Attempt a ::
        match waits with
        | [] => interleave attempts' []
        | w :: waits' => Wait w :: interleave attempts' waits'
        end
  end.

(** An HTTP error or a transport failure. *)
Definition is_failure (o : post_outcome) : bool :=
  match o with
  | PostHTTPError _ _ | PostRequestException => true
  | PostJson _ | PostRaises _ => false
  end.

Definition pow2 (k : nat) : nat := 2 ^ k.

Lemma sum_of_powers (m : nat) : list_sum (map pow2 (seq 1 m)) + 2 = 2 ^ (m + 1).
Proof.
  induction m as [|m IH]; [reflexivity|].
  rewrite seq_S, map_app, list_sum_app.
  change (list_sum (map pow2 [1 + m])) with (2 ^ S m + 0).
  replace (m + 1) with (S m) in IH by lia.
  replace (S m + 1) with (S (S m)) by lia.
  rewrite (Nat.pow_succ_r' 2 (S m)). lia.
Qed.

Section RetryFacts.
Variable cfg : config.
Variable self : client_fields.
Variable req : request.
Hypothesis always_fails :
  forall attempt, is_failure (requests_post self req attempt) = true.

Lemma attempts_loop_exhausts (n k : nat) :
  k + n = MAX_RETRIES cfg ->
  exists tr,
    attempts_loop cfg self req (seq k n) = (tr, Ret PNone)
    /\ posts tr = seq k n
    /\ sleeps tr = map pow2 (seq (k + 1) (n - 1))
    /\ schedule tr = interleave (seq k n) (map pow2 (seq (k + 1) (n - 1))).
Proof.
  revert k. induction n as [|n IH]; intros k Hk.
  - simpl. eexists; repeat split; reflexivity.
  - destruct (IH (S k)) as [tr [Hloop [Hposts [Hsleeps Hsched]]]]; [lia|].
    assert (Hback : backoff cfg k =
                    if (0 <? n)%nat
                    then ([Log (RetryInLine (2 ^ (k + 1))); Sleep (2 ^ (k + 1))], Ret tt)
                    else ([], Ret tt)).
    { unfold backoff. replace (MAX_RETRIES cfg - 1) with (k + n) by lia.
      destruct n; simpl.
      - replace (k + 0) with k by lia. now rewrite Nat.ltb_irrefl.
      - assert (E : (k <? k + S n)%nat = true) by (apply Nat.ltb_lt; lia).
        now rewrite E. }
    simpl seq. cbn [attempts_loop].
    specialize (always_fails k).
    destruct (requests_post self req k) as [body|status text| |e]; try discriminate;
      rewrite Hback, Hloop;
      (destruct n as [|n];
       [ simpl; eexists; repeat split; simpl; try reflexivity;
         simpl in Hposts, Hsleeps, Hsched; now rewrite ?Hposts, ?Hsleeps, ?Hsched
       | simpl Nat.ltb; cbn [bind put emit ret app fst snd];
         eexists; split; [reflexivity|];
         replace (S n - 1) with n in * by lia;
         replace (S (S n) - 1) with (S n) by lia;
         replace (S k + 1) with (S (k + 1)) in * by lia;
         simpl; rewrite Hposts, Hsleeps, Hsched;
         repeat split; reflexivity ]).
Qed.

End RetryFacts.

(** C2. When every post of the request fails (HTTP error or transport
    failure), [_make_request_with_retries] makes exactly MAX_RETRIES
    attempts, numbered 0 .. MAX_RETRIES-1; after each attempt but the last
    it sleeps 2^(attempt+1) seconds, so the sleeps are 2^1, ..., 2^(MAX_RETRIES-1)
    and lie one between each two consecutive attempts; their total is
    2^MAX_RETRIES - 2; and it returns [None] instead of raising. *)
Theorem retry_loop_bound (cfg : config) (self : client_fields)
  (hdrs : list (string * string)) (data : pyval) :
  (forall attempt,
      is_failure (requests_post self
                    {| url := endpoint self; headers := hdrs; payload := data |}
                    attempt) = true) ->
  let call := _make_request_with_retries cfg self hdrs data in
  outcome call = Ret PNone
  /\ posts (trace call) = seq 0 (MAX_RETRIES cfg)
  /\ length (posts (trace call)) = MAX_RETRIES cfg
  /\ sleeps (trace call) = map pow2 (seq 1 (MAX_RETRIES cfg - 1))
  /\ schedule (trace call) = interleave (posts (trace call)) (sleeps (trace call))
  /\ (1 <= MAX_RETRIES cfg ->
      list_sum (sleeps (trace call)) + 2 = 2 ^ MAX_RETRIES cfg).
Proof.
  intros Hfail call. subst call. unfold _make_request_with_retries.
  destruct (attempts_loop_exhausts cfg self _ Hfail (MAX_RETRIES cfg) 0 eq_refl)
    as [tr [Hloop [Hposts [Hsleeps Hsched]]]].
  rewrite Hloop. unfold outcome, trace. simpl fst. simpl snd.
  rewrite Hposts, Hsleeps, Hsched. simpl (0 + 1).
  repeat split.
  - now rewrite length_seq.
  - intros Hpos. rewrite sum_of_powers. f_equal. lia.
Qed.

(** A client all of whose requests fail in transport. *)
Definition unreachable_client : client_fields :=
  {| api_key := "key"; model := "model"; endpoint := "https://example.invalid";
     requests_post := fun _ _ => PostRequestException;
     interp := cpython |}.

Lemma retry_loop_bound_witness :
  outcome (_make_request_with_retries settings unreachable_client [] PNone) = Ret PNone
  /\ posts (trace (_make_request_with_retries settings unreachable_client [] PNone))
     = [0; 1; 2]
  /\ sleeps (trace (_make_request_with_retries settings unreachable_client [] PNone))
     = [2; 4].
Proof.
  destruct (retry_loop_bound settings unreachable_client [] PNone (fun _ => eq_refl))
    as [Hout [Hposts [_ [Hsleeps _]]]].
  split; [exact Hout|split; [exact Hposts|exact Hsleeps]].
Defined.

(** *** The span the regular expression matches *)

Fixpoint occurs (c : ascii) (s : string) : bool :=
  match s with
  | EmptyString => false
  | String c' s' => (Ascii.eqb c' c || occurs c s')%bool
  end.

Lemma append_assoc (a b c : string) : (a ++ b) ++ c = a ++ (b ++ c).
Proof. induction a as [|x a IH]; simpl; [reflexivity|now rewrite IH]. Qed.

Lemma from_first_open_some (s r : string) :
  from_first_open s = Some r <->
  exists pre, s = pre ++ String "{" r /\ occurs "{" pre = false.
Proof.
  split.
  - revert r. induction s as [|c s IH]; intros r H; simpl in H; [discriminate|].
    destruct (Ascii.eqb c "{") eqn:E.
    + apply Ascii.eqb_eq in E; subst c. inversion H; subst.
      exists EmptyString. now split.
    + destruct (IH _ H) as [pre [Hs Hpre]].
      exists (String c pre). split; [simpl; now rewrite Hs|simpl; now rewrite E].
  - intros [pre [Hs Hpre]]. subst s.
    induction pre as [|c pre IH]; simpl.
    + reflexivity.
    + simpl in Hpre. apply Bool.orb_false_elim in Hpre as [Hc Hpre].
      rewrite Hc. now apply IH.
Qed.

Lemma upto_last_close_none (s : string) :
  upto_last_close s = None <-> occurs "}" s = false.
Proof.
  induction s as [|c s IH]; simpl; [tauto|].
  destruct (upto_last_close s) as [t|].
  - split; [discriminate|]. intros H.
    apply Bool.orb_false_elim in H as [_ H]. apply IH in H. discriminate.
  - destruct (Ascii.eqb c "}"); simpl.
    + split; discriminate.
    + split; [intros _; now apply IH|reflexivity].
Qed.

Lemma upto_last_close_some (s t : string) :
  upto_last_close s = Some t <->
  exists mid post, s = mid ++ String "}" post /\ t = mid ++ "}" /\ occurs "}" post = false.
Proof.
  split.
  - revert t. induction s as [|c s IH]; intros t H; simpl in H; [discriminate|].
    destruct (upto_last_close s) as [t'|] eqn:E.
    + inversion H; subst. destruct (IH _ eq_refl) as [mid [post [Hs [Ht Hpost]]]].
      exists (String c mid), post. subst. now repeat split.
    + destruct (Ascii.eqb c "}") eqn:Ec; [|discriminate].
      apply Ascii.eqb_eq in Ec; subst c. inversion H; subst.
      exists EmptyString, s. repeat split. now apply upto_last_close_none.
  - intros [mid [post [Hs [Ht Hpost]]]]. subst s t.
    induction mid as [|c mid IH]; simpl.
    + apply upto_last_close_none in Hpost. now rewrite Hpost.
    + now rewrite IH.
Qed.

(** [re_search_braces] finds the text from the first opening brace to the
    last closing brace, when the latter comes after the former. *)
Lemma re_search_braces_some (text span : string) :
  re_search_braces text = Some span <->
  exists pre mid post,
    text = pre ++ "{" ++ mid ++ "}" ++ post
    /\ occurs "{" pre = false /\ occurs "}" post = false
    /\ span = "{" ++ mid ++ "}".
Proof.
  unfold re_search_braces. split.
  - destruct (from_first_open text) as [after|] eqn:Eo; [|discriminate].
    apply from_first_open_some in Eo as [pre [Htext Hpre]].
    destruct (upto_last_close after) as [t|] eqn:Ec; [|discriminate].
    apply upto_last_close_some in Ec as [mid [post [Hafter [Ht Hpost]]]].
    intros H; inversion H; subst.
    exists pre, mid, post. now repeat split.
  - intros [pre [mid [post [Htext [Hpre [Hpost Hspan]]]]]]. subst text span.
    assert (Eo : from_first_open (pre ++ "{" ++ mid ++ "}" ++ post)
                 = Some (mid ++ "}" ++ post)).
    { apply from_first_open_some. exists pre. now split. }
    rewrite Eo.
    assert (Ec : upto_last_close (mid ++ "}" ++ post) = Some (mid ++ "}")).
    { apply upto_last_close_some. exists mid, post. now repeat split. }
    now rewrite Ec.
Qed.

(** A text that opens with a brace decodes to a dict, if it decodes. *)
Lemma loads_brace_is_dict (py : interpreter) (t : string) (v : pyval) :
  loads py (String "{" t) = Loaded v -> exists d, v = PDict d.
Proof.
  unfold loads. simpl strip_prefix. simpl skip_ws.
  cbn [scan_once]. simpl Ascii.eqb.
  destruct (recursion_budget py) as [|depth]; [discriminate|].
  destruct (skip_ws t) as [|c1 r1]; [discriminate|].
  destruct (Ascii.eqb c1 "}").
  - destruct (skip_ws r1); [|discriminate]. intros H; inversion H. now exists [].
  - destruct (parse_object _ _ _ _ _) as [d r| | |]; try discriminate.
    destruct (skip_ws r); [|discriminate]. intros H; inversion H. now exists d.
Qed.

(** What [json.loads] raises, apart from [JSONDecodeError]. *)
Definition quote : string := String dquote EmptyString.
Definition newline : string := String "010" EmptyString.

(** The answer of a model that wraps its JSON in a fenced block. *)
Definition fenced_example : string :=
  "Here is the result:" ++ newline ++ "```json" ++ newline
  ++ "{" ++ quote ++ "x" ++ quote ++ ":1}" ++ newline ++ "```".

Fixpoint repeat_string (part : string) (n : nat) : string :=
  match n with
  | O => EmptyString
  | S n' => part ++ repeat_string part n'
  end.

(** An answer whose JSON holds an integer of 4301 digits, and one whose
    JSON nests a thousand arrays. *)
Definition long_integer_answer : string :=
  "{" ++ quote ++ "n" ++ quote ++ ": " ++ repeat_string "7" 4301 ++ "}".

Definition deep_answer : string :=
  "{" ++ quote ++ "n" ++ quote ++ ": " ++ repeat_string "[" 1000
  ++ repeat_string "]" 1000 ++ "}".

(** The response cleaner raises on answers that [json.loads] refuses with
    something else than [JSONDecodeError]: [ValueError] for an integer
    beyond the limit on digits, [RecursionError] for nesting beyond the
    recursion limit. *)
Lemma clean_json_response_can_raise :
  _clean_json_response unreachable_client long_integer_answer
  = ([], Raise ValueError)
  /\ _clean_json_response unreachable_client deep_answer
     = ([], Raise RecursionError).
Proof. split; vm_compute; reflexivity. Qed.

(** C3. For every text, [_clean_json_response] returns a mapping unless
    [json.loads] raises something else than [JSONDecodeError], which is
    then raised to the caller: [ValueError] or [RecursionError], nothing
    else.  When the text has an opening brace with a closing brace after
    it, the span from the first opening brace to the last closing brace
    (whatever lies between, line breaks included) is given to
    [json.loads]: the decoded value is returned, or, when decoding fails
    with [JSONDecodeError], the mapping {"error": "JSON Decode Error",
    "raw_content": text}.  When there is no such span the mapping {"error":
    "No JSON found in response", "raw_content": text} is returned.  A
    text on which it raises [ValueError] has more than 640 characters and
    more than the limit on the digits of an integer, and one on which it
    raises [RecursionError] has more characters than the interpreter has
    recursion left.  The fenced example yields {"x": 1} wherever one
    object can be opened. *)
Theorem clean_json_response_contract (self : client_fields) (text : string) :
  ((exists d, outcome (_clean_json_response self text) = Ret (PDict d))
   \/ (exists span e,
         re_search_braces text = Some span
         /\ loads (interp self) span = LoadsRaises e
         /\ (e = ValueError \/ e = RecursionError)
         /\ _clean_json_response self text = ([], Raise e)))
  /\ (forall pre mid post,
        text = pre ++ "{" ++ mid ++ "}" ++ post ->
        occurs "{" pre = false -> occurs "}" post = false ->
        outcome (_clean_json_response self text)
        = match loads (interp self) ("{" ++ mid ++ "}") with
          | Loaded v => Ret v
          | JSONDecodeError | OutOfFuel => Ret (error_dict "JSON Decode Error" text)
          | LoadsRaises e => Raise e
          end)
  /\ ((forall pre mid post, text <> pre ++ "{" ++ mid ++ "}" ++ post) ->
      outcome (_clean_json_response self text)
      = Ret (error_dict "No JSON found in response" text))
  /\ (forall e,
        outcome (_clean_json_response self text) = Raise e ->
        (e = ValueError
         /\ 640 < String.length text
         /\ 0 < int_max_str_digits (interp self) < String.length text)
        \/ (e = RecursionError /\ recursion_budget (interp self) < String.length text))
  /\ (forall client,
        0 < recursion_budget (interp client) ->
        _clean_json_response client fenced_example = ([], Ret (PDict [("x", PInt 1)]))).
Proof.
  split; [|split; [|split; [|split]]].
  - unfold _clean_json_response.
    destruct (re_search_braces text) as [span|] eqn:E.
    + pose proof (loads_never_out_of_fuel (interp self) span) as Hfuel.
      pose proof E as Espan.
      apply re_search_braces_some in E as [pre [mid [post [_ [_ [_ Hspan]]]]]].
      destruct (loads (interp self) span) as [v| |e|] eqn:El.
      * left. subst span. apply loads_brace_is_dict in El as [d Hd]. subst v.
        now exists d.
      * left. eexists. reflexivity.
      * right. exists span, e. repeat split; try assumption.
        now apply loads_raises in El.
      * congruence.
    + left. eexists. reflexivity.
  - intros pre mid post Htext Hpre Hpost.
    assert (E : re_search_braces text = Some ("{" ++ mid ++ "}")).
    { apply re_search_braces_some. exists pre, mid, post. now repeat split. }
    unfold _clean_json_response. rewrite E.
    pose proof (loads_never_out_of_fuel (interp self) ("{" ++ mid ++ "}")) as Hfuel.
    destruct (loads (interp self) ("{" ++ mid ++ "}"));
      [reflexivity|reflexivity|reflexivity|congruence].
  - intros Hnone. unfold _clean_json_response.
    destruct (re_search_braces text) as [span|] eqn:E; [|reflexivity].
    apply re_search_braces_some in E as [pre [mid [post [Htext _]]]].
    exfalso. now apply (Hnone pre mid post).
  - intros e. unfold _clean_json_response.
    destruct (re_search_braces text) as [span|] eqn:E; [|discriminate].
    apply re_search_braces_some in E as [pre [mid [post [Htext [_ [_ Hspan]]]]]].
    assert (Hlen : String.length span <= String.length text).
    { subst text span. repeat (rewrite ?length_append; simpl). lia. }
    pose proof (loads_never_out_of_fuel (interp self) span) as Hfuel.
    destruct (loads (interp self) span) as [v| |x|] eqn:El;
      try discriminate; [|congruence].
    intros H; inversion H; subst x.
    destruct (loads_raises_only_by_size _ _ _ El) as [[He Hs]|[He Hs]];
      [left|right]; (split; [exact He|lia]).
  - intros client Hbudget. unfold _clean_json_response, loads. cbn.
    destruct (recursion_budget (interp client)); [lia|reflexivity].
Qed.

End ApiClientsFacts.

(** ** data_processor.py: the per-document task *)
Module DocumentFacts.
Import Py Json PyOps Queue Config Utils ApiClients DataProcessor.
Import PyFacts ApiClientsFacts.

(** Text made of whitespace characters only (possibly none): the
    characters [str.isspace] accepts, in their UTF-8 encoding. *)
Inductive blank : string -> Prop :=
| blank_empty : blank EmptyString
| blank_1 (a : ascii) (s : string) :
    ws1 a = true -> blank s -> blank (String a s)
| blank_2 (a b : ascii) (s : string) :
    ws2 a b = true -> blank s -> blank (String a (String b s))
| blank_3 (a b c : ascii) (s : string) :
    ws3 a b c = true -> blank s -> blank (String a (String b (String c s))).

Lemma ws2_lead (a b : ascii) : ws2 a b = true -> ws1 a = false.
Proof.
  unfold ws2, ws1. intros H. apply andb_prop in H as [Ha _].
  apply N.eqb_eq in Ha. rewrite Ha. reflexivity.
Qed.

Lemma ws3_lead (a b c : ascii) :
  ws3 a b c = true -> ws1 a = false /\ ws2 a b = false.
Proof.
  unfold ws3, ws2, ws1. cbv zeta. intros H.
  assert (Ha : (byte_of a = 225 \/ byte_of a = 226 \/ byte_of a = 227)%N).
  { repeat (apply Bool.orb_prop in H as [H|H]);
      repeat (apply andb_prop in H as [H ?]);
      apply N.eqb_eq in H; tauto. }
  destruct Ha as [Ha|[Ha|Ha]]; rewrite Ha; split; reflexivity.
Qed.

Lemma lstrip_blank (s : string) : blank s -> lstrip s = EmptyString.
Proof.
  induction 1 as [|a s Ha _ IH|a b s Hab _ IH|a b c s Habc _ IH]; simpl.
  - reflexivity.
  - now rewrite Ha.
  - now rewrite (ws2_lead _ _ Hab), Hab.
  - destruct (ws3_lead _ _ _ Habc) as [H1 H2]. now rewrite H1, H2, Habc.
Qed.

Lemma strip_blank (s : string) : blank s -> strip s = EmptyString.
Proof. intros H. unfold strip. now rewrite (lstrip_blank s H). Qed.

(** The title is absent (NaN) or blank. *)
Inductive title_missing : cell -> Prop :=
| title_nan : title_missing CNaN
| title_blank (text : string) : blank text -> title_missing (CStr text).

Section Document.
Variable cfg : config.
Variable py_repr : pyval -> string.
Variable str_format : string -> string -> result string.
Variable exn_str : exn -> string.

Lemma merge_missing_title (df : DataFrame) (t : task) :
  merge_result py_repr exn_str df t (Ret missing_title)
  = ([], dict_set (to_dict df (index t)) "error" (PStr "Missing Title")).
Proof. reflexivity. Qed.

(** C6. For a title that is NaN or made of whitespace only (empty
    included), [_analyze_single_document] logs the skip and returns
    {"error": "Missing Title"} whatever the client, the abstract and the
    template are: its trace holds that one log line, so no request is
    posted and the client is not called.  The row the orchestrator builds
    for such a record carries error = "Missing Title". *)
Theorem missing_title_short_circuit (api_client : BaseAPIClient)
  (title abstract : cell) (prompt_template : string) (uid : cell)
  (df : DataFrame) (t : task) :
  title_missing title ->
  _analyze_single_document py_repr str_format api_client title abstract prompt_template uid
  = ([Log (SkipMissingTitleLine uid)], Ret missing_title)
  /\ posts (trace (_analyze_single_document py_repr str_format api_client title abstract
                     prompt_template uid)) = []
  /\ (row_get (record t) (nth 0 (REQUIRED_INPUT_COLUMNS cfg) "") = title ->
      future_result cfg py_repr str_format api_client prompt_template t = Ret missing_title
      /\ dict_get (snd (merge_result py_repr exn_str df t
                          (future_result cfg py_repr str_format api_client prompt_template t)))
           "error" = Some (PStr "Missing Title")).
Proof.
  intros Hmissing.
  assert (Hdoc : forall a u,
             _analyze_single_document py_repr str_format api_client title a
               prompt_template u
             = ([Log (SkipMissingTitleLine u)], Ret missing_title)).
  { intros a u. destruct Hmissing as [|text Hblank]; [reflexivity|].
    unfold _analyze_single_document. now rewrite (strip_blank text Hblank). }
  split; [apply Hdoc|split].
  - now rewrite Hdoc.
  - intros Htitle.
    assert (Hres : future_result cfg py_repr str_format api_client prompt_template t
                   = Ret missing_title).
    { unfold future_result. rewrite Htitle, Hdoc. reflexivity. }
    split; [exact Hres|].
    rewrite Hres, merge_missing_title. apply dict_get_set_same.
Qed.

(** C9. A result that is the empty mapping is falsy: the orchestrator
    takes the branch meant for a failed call, exactly as for [None], and
    the row records error = "API Failure after retries" in place of an
    empty success. *)
Theorem empty_result_recorded_as_failure (df : DataFrame) (t : task) :
  py_truthy (PDict []) = false
  /\ merge_result py_repr exn_str df t (Ret (PDict []))
     = ([], dict_set (to_dict df (index t)) "error" (PStr "API Failure after retries"))
  /\ merge_result py_repr exn_str df t (Ret (PDict []))
     = merge_result py_repr exn_str df t (Ret PNone)
  /\ dict_get (snd (merge_result py_repr exn_str df t (Ret (PDict [])))) "error"
     = Some (PStr "API Failure after retries")
  /\ dict_update (to_dict df (index t)) (flatten py_repr (PDict []))
     = to_dict df (index t)
  /\ (forall self : client_fields,
        0 < recursion_budget (interp self) ->
        _clean_json_response self "{}" = ([], Ret (PDict []))).
Proof.
  split; [reflexivity|split; [reflexivity|split; [reflexivity|split]]].
  - simpl. apply dict_get_set_same.
  - split; [reflexivity|].
    intros self Hdepth. unfold _clean_json_response, loads. cbn.
    destruct (recursion_budget (interp self)); [lia|reflexivity].
Qed.

(** C8, as the code has it.  [_analyze_single_document] returns without
    raising when the title is NaN or text, formatting the template
    succeeds or raises [KeyError], and the client's [analyze_text] returns:
    it yields the missing-title mapping, the invalid-template mapping or
    what the client returned.
    It raises in three cases only, and then passes the exception on:
    [AttributeError] for a title cell that is a number or a boolean; the
    exception of [str.format] when it is not [KeyError]; the exception of
    the client's [analyze_text].  The orchestrator's handler turns any of
    them into a row with an error field. *)
Theorem analysis_raises_only_three_ways (api_client : BaseAPIClient)
  (title abstract : cell) (prompt_template : string) (uid : cell) :
  let doc := _analyze_single_document py_repr str_format api_client title abstract
               prompt_template uid in
  (forall e, outcome doc = Raise e ->
     (e = AttributeError
      /\ ((exists z, title = CInt z) \/ (exists f, title = CFloat f)
          \/ (exists b, title = CBool b)))
     \/ (exists text, title = CStr text /\ strip text <> EmptyString
          /\ ((str_format prompt_template (content_of py_repr text abstract) = Raise e
               /\ e <> KeyError)
              \/ (exists prompt,
                    str_format prompt_template (content_of py_repr text abstract) = Ret prompt
                    /\ outcome (analyze_text api_client prompt) = Raise e))))
  /\ ((title = CNaN \/ exists text, title = CStr text) ->
      (forall text e, title = CStr text ->
         str_format prompt_template (content_of py_repr text abstract) = Raise e -> e = KeyError) ->
      (forall text prompt, title = CStr text ->
         str_format prompt_template (content_of py_repr text abstract) = Ret prompt ->
         exists v, outcome (analyze_text api_client prompt) = Ret v) ->
      exists v,
        outcome doc = Ret v
        /\ (v = missing_title \/ v = invalid_template
            \/ exists text prompt,
                 title = CStr text
                 /\ str_format prompt_template (content_of py_repr text abstract) = Ret prompt
                 /\ outcome (analyze_text api_client prompt) = Ret v))
  /\ (forall (df : DataFrame) (t : task) (e : exn),
        merge_result py_repr exn_str df t (Raise e)
        = ([TaskExceptionLine (uid_of t) e],
           dict_set (to_dict df (index t)) "error" (PStr (exn_str e)))).
Proof.
  intros doc. subst doc. unfold _analyze_single_document.
  split; [|split].
  - intros e H. destruct title as [|z|f|b|text]; simpl in H.
    + discriminate.
    + left. inversion H. split; [reflexivity|left; now exists z].
    + left. inversion H. split; [reflexivity|right; left; now exists f].
    + left. inversion H. split; [reflexivity|right; right; now exists b].
    + right. exists text. split; [reflexivity|].
      destruct (String.eqb (strip text) "") eqn:Es; [discriminate|].
      split; [now apply String.eqb_neq|].
      destruct (str_format prompt_template (content_of py_repr text abstract))
        as [prompt|e'] eqn:Ef.
      * right. exists prompt. split; [reflexivity|].
        unfold outcome in *. simpl in H.
        destruct (analyze_text api_client prompt) as [tr r]. exact H.
      * left. destruct e'; simpl in H; inversion H; subst;
          split; try reflexivity; discriminate.
  - intros Htitle Hformat Hclient.
    destruct title as [|z|f|b|text].
    + exists missing_title. split; [reflexivity|now left].
    + destruct Htitle as [H|[x H]]; discriminate.
    + destruct Htitle as [H|[x H]]; discriminate.
    + destruct Htitle as [H|[x H]]; discriminate.
    + destruct (String.eqb (strip text) "");
        [exists missing_title; split; [reflexivity|now left]|].
      destruct (str_format prompt_template (content_of py_repr text abstract))
        as [prompt|e'] eqn:Ef.
      * destruct (Hclient text prompt eq_refl Ef) as [v Hv].
        exists v. split.
        -- unfold outcome in *. simpl.
           destruct (analyze_text api_client prompt) as [tr r]. exact Hv.
        -- right. right. exists text, prompt. now repeat split.
      * rewrite (Hformat text e' eq_refl Ef).
        exists invalid_template. split; [reflexivity|right; now left].
  - reflexivity.
Qed.

End Document.

Lemma missing_title_witness :
  title_missing (CStr "   ")
  /\ _analyze_single_document PlainFormat.no_repr PlainFormat.format_plain
       (OpenAIClient settings unreachable_client) (CStr "   ") (CStr "An abstract.")
       "Extract: {content_to_analyze}" (CInt 7)
     = ([Log (SkipMissingTitleLine (CInt 7))], Ret missing_title).
Proof.
  assert (Hblank : title_missing (CStr "   ")).
  { constructor. repeat (apply blank_1; [reflexivity|]). constructor. }
  split; [exact Hblank|].
  exact (proj1 (missing_title_short_circuit settings PlainFormat.no_repr
                  PlainFormat.format_plain PlainFormat.no_message
                  (OpenAIClient settings unreachable_client) (CStr "   ")
                  (CStr "An abstract.") "Extract: {content_to_analyze}" (CInt 7)
                  {| columns := []; rows := [] |} {| index := 0; record := [] |}
                  Hblank)).
Defined.

(** C8 as stated fails: with a well-formed template, a text title and
    the Anthropic client, a prompt without the text marker makes
    [analyze_text] raise [ValueError] (the unpacking of a one-element
    split); a numeric title raises [AttributeError]; a template with a
    positional field raises [IndexError]. *)
Lemma analysis_can_raise :
  outcome (_analyze_single_document PlainFormat.no_repr PlainFormat.format_plain
             (AnthropicClient settings unreachable_client)
             (CStr "Perovskite solar cells") (CStr "We report a new absorber.")
             "Extract the materials. {content_to_analyze}" (CStr "WOS:1"))
  = Raise ValueError
  /\ outcome (_analyze_single_document PlainFormat.no_repr PlainFormat.format_plain
                (OpenAIClient settings unreachable_client)
                (CInt 2024) CNaN
                "Extract the materials. {content_to_analyze}" (CStr "WOS:2"))
     = Raise AttributeError
  /\ outcome (_analyze_single_document PlainFormat.no_repr PlainFormat.format_plain
                (OpenAIClient settings unreachable_client)
                (CStr "Perovskite solar cells") CNaN
                "Extract the materials. {0}" (CStr "WOS:3"))
     = Raise IndexError.
Proof. split; [|split]; vm_compute; reflexivity. Qed.

Lemma analysis_raises_witness :
  outcome (_analyze_single_document PlainFormat.no_repr PlainFormat.format_plain
             (AnthropicClient settings unreachable_client)
             (CStr "Perovskite solar cells") (CStr "We report a new absorber.")
             "Extract the materials. {content_to_analyze}" (CStr "WOS:1"))
  = Raise ValueError
  /\ exists prompt,
       PlainFormat.format_plain "Extract the materials. {content_to_analyze}"
         (content_of PlainFormat.no_repr "Perovskite solar cells" (CStr "We report a new absorber."))
       = Ret prompt
       /\ outcome (analyze_text (AnthropicClient settings unreachable_client) prompt)
          = Raise ValueError.
Proof.
  assert (Hraise :
            outcome (_analyze_single_document PlainFormat.no_repr PlainFormat.format_plain
                       (AnthropicClient settings unreachable_client)
                       (CStr "Perovskite solar cells") (CStr "We report a new absorber.")
                       "Extract the materials. {content_to_analyze}" (CStr "WOS:1"))
            = Raise ValueError) by (vm_compute; reflexivity).
  split; [exact Hraise|].
  destruct (proj1 (analysis_raises_only_three_ways PlainFormat.no_repr
                     PlainFormat.format_plain PlainFormat.no_message
                     (AnthropicClient settings unreachable_client)
                     (CStr "Perovskite solar cells") (CStr "We report a new absorber.")
                     "Extract the materials. {content_to_analyze}" (CStr "WOS:1"))
              ValueError Hraise)
    as [[_ [[z Hz]|[[f Hfl]|[b Hb]]]]|[text [Htext [_ [[Hf _]|Hclient]]]]].
  - discriminate.
  - discriminate.
  - discriminate.
  - inversion Htext; subst text. vm_compute in Hf. discriminate.
  - inversion Htext; subst text. exact Hclient.
Defined.

End DocumentFacts.

(** ** data_processor.py: the orchestrator *)
Module PipelineFacts.
Import Py Json PyOps Queue Config Utils ApiClients DataProcessor.
Import PyFacts ApiClientsFacts DocumentFacts.

(** The state after one more read of the stop flag. *)
Definition bump (s : state) : state :=
  {| queue := queue s; reads := S (reads s); flushes := flushes s |}.

(** How many of the next [count] reads of the stop flag, starting with read
    number [from], see it clear before one sees it set. *)
Fixpoint clear_reads (env : environment) (from count : nat) : nat :=
  match count with
  | O => O
  | S n => if stop_event env from then O else S (clear_reads env (S from) n)
  end.

Lemma clear_reads_le (env : environment) (count from : nat) :
  clear_reads env from count <= count.
Proof.
  revert from. induction count as [|n IH]; intros from; simpl; [lia|].
  destruct (stop_event env from); [lia|]. specialize (IH (S from)). lia.
Qed.

Lemma clear_reads_all (env : environment) (count from : nat) :
  (forall k, from <= k < from + count -> stop_event env k = false) ->
  clear_reads env from count = count.
Proof.
  revert from. induction count as [|n IH]; intros from H; simpl; [reflexivity|].
  rewrite (H from) by lia. f_equal. apply IH. intros k Hk. apply H. lia.
Qed.

Lemma clear_reads_stop (env : environment) (n count from : nat) :
  stop_after env = Some n ->
  clear_reads env from count = Nat.min count (n - from).
Proof.
  intros Hn. revert from.
  induction count as [|c IH]; intros from; cbn [clear_reads]; [reflexivity|].
  unfold stop_event. rewrite Hn.
  destruct (n <=? from)%nat eqn:E.
  - apply Nat.leb_le in E. lia.
  - apply Nat.leb_gt in E. rewrite IH. lia.
Qed.

Lemma state_eta (s : state) :
  s = {| queue := queue s; reads := reads s; flushes := flushes s |}.
Proof. now destruct s. Qed.

Lemma submit_loop_spec (env : environment) (todo : list task) (s : state) :
  let j := clear_reads env (reads s) (length todo) in
  submit_loop env todo s
  = (firstn j todo,
     {| queue := queue s;
        reads := reads s + Nat.min (S j) (length todo);
        flushes := flushes s |}).
Proof.
  revert s. induction todo as [|t todo IH]; intros s; cbv zeta.
  - simpl. rewrite Nat.add_0_r. now rewrite <- state_eta.
  - simpl. destruct (stop_event env (reads s)) eqn:E.
    + simpl. f_equal. f_equal. lia.
    + specialize (IH (bump s)). cbv zeta in IH. simpl in IH.
      change {| queue := queue s; reads := S (reads s); flushes := flushes s |}
        with (bump s).
      rewrite IH. simpl. f_equal. f_equal. lia.
Qed.

Lemma firstn_incl {A : Type} (n : nat) (l : list A) : incl (firstn n l) l.
Proof.
  revert n. induction l as [|x l IH]; intros [|n]; simpl; intros y Hy;
    try contradiction.
  destruct Hy as [Hy|Hy]; [now left|right; now apply (IH n)].
Qed.

Lemma select_from_unprocessed (env : environment) (df : DataFrame)
  (uids : list cell) (process_count : Z) :
  incl (select env df uids process_count) (unprocessed env df uids).
Proof.
  unfold select. destruct (0 <? process_count)%Z; [apply firstn_incl|apply incl_refl].
Qed.

(** No selected row is one that [isin] marks. *)
Lemma select_not_in_resume_set (env : environment) (df : DataFrame)
  (uids : list cell) (process_count : Z) (t : task) :
  In t (select env df uids process_count) ->
  nth (index t) (isin env (uid_column df) uids) false = false.
Proof.
  intros H. apply select_from_unprocessed in H.
  unfold unprocessed in H. apply filter_In in H as [_ Hneg].
  now apply negb_true_iff in Hneg.
Qed.

Lemma reads_say (lines : list log_line) (s : state) : reads (say lines s) = reads s.
Proof. reflexivity. Qed.

Lemma flushes_say (lines : list log_line) (s : state) :
  flushes (say lines s) = flushes s.
Proof. reflexivity. Qed.

Lemma reads_save (env : environment) (b : list dict) (h : bool) (s : state) :
  reads (_save_batch_results env b h s) = reads s.
Proof. now destruct b. Qed.

(** What one call of [_save_batch_results] adds to the appends. *)
Definition flush_of (env : environment) (b : list dict) (h : bool) (s : state)
  : list flush :=
  match b with
  | [] => []
  | _ :: _ => [{| batch := b; write_header := h;
                  saved := to_csv env (length (flushes s)) |}]
  end.

Lemma flushes_save (env : environment) (b : list dict) (h : bool) (s : state) :
  flushes (_save_batch_results env b h s) = (flushes s ++ flush_of env b h s)%list.
Proof. destruct b; simpl; [now rewrite app_nil_r|reflexivity]. Qed.

Section Collect.
Variable cfg : config.
Variable py_repr : pyval -> string.
Variable str_format : string -> string -> result string.
Variable exn_str : exn -> string.
Variable env : environment.
Variable api_client : BaseAPIClient.
Variable prompt_template : string.
Variable df : DataFrame.
Variable total : nat.

(** The row a future becomes, and the line logged on the way. *)
Definition row_of (t : task) : dict :=
  snd (merge_result py_repr exn_str df t
         (future_result cfg py_repr str_format api_client prompt_template t)).

Definition lines_of (t : task) : list log_line :=
  fst (merge_result py_repr exn_str df t
         (future_result cfg py_repr str_format api_client prompt_template t)).

(** One pass through the body of the second loop with the flag clear. *)
Definition collect_step (c : collector) (future : task) : collector :=
  let batch := (batch_results c ++ [row_of future])%list in
  let count := S (processed_count c) in
  let st2 := say (lines_of future ++ [ProgressEvent count total])%list (bump (st c)) in
  let full := (SAVE_INTERVAL cfg <=? length batch)%nat in
  {| st := if full
           then _save_batch_results env batch (negb (header_written c)) st2
           else st2;
     batch_results := if full then [] else batch;
     header_written := if full then true else header_written c;
     processed_count := count;
     yielded := (yielded c ++ [future])%list;
     merged := (merged c ++ [future])%list |}.

(** The pass that finds the flag set: the future is dropped. *)
Definition collect_break (c : collector) (future : task) : collector :=
  {| st := bump (st c);
     batch_results := batch_results c;
     header_written := header_written c;
     processed_count := processed_count c;
     yielded := (yielded c ++ [future])%list;
     merged := merged c |}.

Definition the_loop : list task -> collector -> collector :=
  collect_loop cfg py_repr str_format exn_str env api_client prompt_template df total.

Lemma collect_loop_cons (future : task) (rest : list task) (c : collector) :
  the_loop (future :: rest) c
  = if stop_event env (reads (st c))
    then collect_break c future
    else the_loop rest (collect_step c future).
Proof.
  unfold the_loop. simpl. destruct (stop_event env (reads (st c))); [reflexivity|].
  unfold collect_step, row_of, lines_of.
  destruct (merge_result py_repr exn_str df future
              (future_result cfg py_repr str_format api_client prompt_template future)).
  reflexivity.
Qed.

Lemma reads_step (c : collector) (future : task) :
  reads (st (collect_step c future)) = S (reads (st c)).
Proof.
  unfold collect_step. simpl.
  destruct (SAVE_INTERVAL cfg <=? _)%nat; [now rewrite reads_save|reflexivity].
Qed.

(** The loop merges the futures that are collected before the flag is seen
    set, and drops the next one, if there is one. *)
Lemma collect_loop_spec (completed : list task) (c : collector) :
  let j := clear_reads env (reads (st c)) (length completed) in
  the_loop completed c
  = match skipn j completed with
    | [] => fold_left collect_step (firstn j completed) c
    | future :: _ => collect_break (fold_left collect_step (firstn j completed) c) future
    end.
Proof.
  revert c. induction completed as [|f rest IH]; intros c; cbv zeta.
  - reflexivity.
  - rewrite collect_loop_cons. cbn [clear_reads length].
    destruct (stop_event env (reads (st c))); [reflexivity|].
    specialize (IH (collect_step c f)). cbv zeta in IH.
    rewrite reads_step in IH. exact IH.
Qed.

Lemma steps_merged (l : list task) (c : collector) :
  merged (fold_left collect_step l c) = (merged c ++ l)%list
  /\ yielded (fold_left collect_step l c) = (yielded c ++ l)%list
  /\ reads (st (fold_left collect_step l c)) = reads (st c) + length l.
Proof.
  revert c. induction l as [|f l IH]; intros c; simpl.
  - rewrite !app_nil_r. repeat split; lia.
  - destruct (IH (collect_step c f)) as [Hm [Hy Hr]].
    rewrite Hm, Hy, Hr, reads_step. simpl. rewrite <- !app_assoc.
    repeat split; lia.
Qed.

(** Every row built so far: those appended to the file, then the buffer. *)
Definition all_rows (c : collector) : list dict :=
  (flat_map batch (flushes (st c)) ++ batch_results c)%list.

Lemma all_rows_step (c : collector) (future : task) :
  all_rows (collect_step c future) = (all_rows c ++ [row_of future])%list.
Proof.
  unfold all_rows, collect_step. simpl.
  destruct (SAVE_INTERVAL cfg <=? _)%nat.
  - rewrite flushes_save, flat_map_app. simpl.
    destruct (batch_results c ++ [row_of future])%list eqn:E.
    + destruct (batch_results c); discriminate.
    + simpl. rewrite !app_nil_r, <- E. now rewrite app_assoc.
  - simpl. now rewrite app_assoc.
Qed.

Lemma all_rows_steps (l : list task) (c : collector) :
  all_rows (fold_left collect_step l c) = (all_rows c ++ map row_of l)%list.
Proof.
  revert c. induction l as [|f l IH]; intros c; simpl.
  - now rewrite app_nil_r.
  - rewrite IH, all_rows_step. now rewrite <- app_assoc.
Qed.

(** *** Checkpoints *)

Lemma steps_flushes (l : list task) (c : collector) :
  1 <= SAVE_INTERVAL cfg ->
  length (batch_results c) < SAVE_INTERVAL cfg ->
  exists new,
    flushes (st (fold_left collect_step l c)) = (flushes (st c) ++ new)%list
    /\ length new = (length (batch_results c) + length l) / SAVE_INTERVAL cfg
    /\ Forall (fun f => length (batch f) = SAVE_INTERVAL cfg) new
    /\ length (batch_results (fold_left collect_step l c))
       = (length (batch_results c) + length l) mod SAVE_INTERVAL cfg.
Proof.
  intros HK. revert c. induction l as [|f l IH]; intros c Hb.
  - exists []. simpl. rewrite app_nil_r, Nat.add_0_r.
    rewrite Nat.div_small, Nat.mod_small by lia. repeat split. constructor.
  - cbn [fold_left].
    assert (Hlen : length (batch_results c ++ [row_of f]) = S (length (batch_results c)))
      by (rewrite length_app; simpl; lia).
    destruct (SAVE_INTERVAL cfg <=? length (batch_results c ++ [row_of f]))%nat eqn:E.
    + apply Nat.leb_le in E.
      assert (HbK : S (length (batch_results c)) = SAVE_INTERVAL cfg) by lia.
      destruct (IH (collect_step c f)) as [new [Hfl [Hn [Hall Hrest]]]].
      { unfold collect_step. cbn [batch_results]. apply Nat.leb_le in E.
        rewrite E. simpl. lia. }
      assert (Hbatch : batch_results (collect_step c f) = []).
      { unfold collect_step. cbn [batch_results]. apply Nat.leb_le in E. now rewrite E. }
      assert (Hflush : flushes (st (collect_step c f))
                       = (flushes (st c)
                          ++ flush_of env (batch_results c ++ [row_of f])
                               (negb (header_written c))
                               (say (lines_of f ++ [ProgressEvent (S (processed_count c)) total])
                                  (bump (st c))))%list).
      { unfold collect_step. cbn [st]. apply Nat.leb_le in E. rewrite E.
        now rewrite flushes_save. }
      rewrite Hbatch in Hn, Hrest. simpl length in Hn, Hrest. simpl plus in Hn, Hrest.
      unfold flush_of in Hflush.
      destruct (batch_results c ++ [row_of f])%list as [|r rs] eqn:Eb;
        [simpl in Hlen; lia|].
      eexists. split; [rewrite Hfl, Hflush, <- app_assoc; reflexivity|].
      cbn [length app]. rewrite Hn, Hrest.
      replace (length (batch_results c) + S (length l))
        with (length l + 1 * SAVE_INTERVAL cfg) by lia.
      rewrite Nat.div_add, Nat.Div0.mod_add by lia.
      repeat split; [lia|].
      constructor; [simpl; simpl in Hlen; lia|exact Hall].
    + apply Nat.leb_gt in E.
      destruct (IH (collect_step c f)) as [new [Hfl [Hn [Hall Hrest]]]].
      { unfold collect_step. cbn [batch_results].
        pose proof E as E'. apply Nat.leb_gt in E'. rewrite E'. lia. }
      assert (Hbatch : batch_results (collect_step c f)
                       = (batch_results c ++ [row_of f])%list).
      { unfold collect_step. cbn [batch_results]. apply Nat.leb_gt in E. now rewrite E. }
      assert (Hflush : flushes (st (collect_step c f)) = flushes (st c)).
      { unfold collect_step. cbn [st]. apply Nat.leb_gt in E. now rewrite E. }
      rewrite Hbatch, Hlen in Hn, Hrest. rewrite Hflush in Hfl.
      exists new. split; [exact Hfl|].
      replace (length (batch_results c) + length (f :: l))
        with (S (length (batch_results c)) + length l) by (simpl; lia).
      now repeat split.
Qed.

(** *** Headers *)

(** Only the first append may carry the header, and it does when the file
    was absent or empty at the start ([h0] is [header_written] then). *)
Definition headers_ok (h0 : bool) (fl : list flush) : Prop :=
  match fl with
  | [] => True
  | f :: rest =>
      write_header f = negb h0 /\ Forall (fun g => write_header g = false) rest
  end.

Definition expected_flag (h0 : bool) (fl : list flush) : bool :=
  match fl with
  | [] => h0
  | _ :: _ => true
  end.

Definition header_inv (h0 : bool) (c : collector) : Prop :=
  headers_ok h0 (flushes (st c))
  /\ header_written c = expected_flag h0 (flushes (st c)).

Lemma headers_ok_save (h0 : bool) (b : list dict) (s : state) :
  headers_ok h0 (flushes s) ->
  headers_ok h0 (flushes (_save_batch_results env b
                            (negb (expected_flag h0 (flushes s))) s)).
Proof.
  intros H. rewrite flushes_save. destruct b as [|r b]; [now rewrite app_nil_r|].
  simpl flush_of. destruct (flushes s) as [|f rest]; simpl in *.
  - split; [reflexivity|constructor].
  - destruct H as [Hf Hrest]. split; [exact Hf|].
    apply Forall_app. split; [exact Hrest|]. now repeat constructor.
Qed.

Lemma header_inv_step (h0 : bool) (c : collector) (future : task) :
  header_inv h0 c -> header_inv h0 (collect_step c future).
Proof.
  intros [Hok Hflag]. unfold header_inv, collect_step. cbn [st header_written].
  destruct (SAVE_INTERVAL cfg <=? _)%nat.
  - rewrite Hflag. split.
    + apply (headers_ok_save h0 _ (say _ (bump (st c)))). exact Hok.
    + rewrite flushes_save.
      destruct (batch_results c ++ [row_of future])%list eqn:E;
        [destruct (batch_results c); discriminate|].
      simpl flush_of. now destruct (flushes _).
  - split; [exact Hok|exact Hflag].
Qed.

Lemma header_inv_steps (h0 : bool) (l : list task) (c : collector) :
  header_inv h0 c -> header_inv h0 (fold_left collect_step l c).
Proof.
  revert c. induction l as [|f l IH]; intros c H; simpl; [exact H|].
  apply IH. now apply header_inv_step.
Qed.

Lemma header_inv_loop (h0 : bool) (completed : list task) (c : collector) :
  header_inv h0 c -> header_inv h0 (the_loop completed c).
Proof.
  intros H. rewrite collect_loop_spec.
  pose proof (header_inv_steps h0
                (firstn (clear_reads env (reads (st c)) (length completed)) completed)
                c H) as Hs.
  destruct (skipn _ completed); [exact Hs|exact Hs].
Qed.

End Collect.

Lemma firstn_skipn_nil {A : Type} (j : nat) (l : list A) :
  skipn j l = [] -> firstn (S j) l = firstn j l /\ length l <= j.
Proof.
  revert j. induction l as [|x l IH]; intros j H.
  - destruct j; simpl; split; auto; lia.
  - destruct j as [|j]; [discriminate|]. simpl in H.
    destruct (IH j H) as [Hf Hl]. split; [|simpl; lia].
    change (firstn (S (S j)) (x :: l)) with (x :: firstn (S j) l).
    now rewrite Hf.
Qed.

Lemma firstn_skipn_cons {A : Type} (j : nat) (l : list A) (x : A) (r : list A) :
  skipn j l = x :: r -> firstn (S j) l = (firstn j l ++ [x])%list /\ j < length l.
Proof.
  revert j. induction l as [|y l IH]; intros j H.
  - destruct j; discriminate.
  - destruct j as [|j].
    + simpl in H. inversion H; subst. split; [reflexivity|simpl; lia].
    + simpl in H. destruct (IH j H) as [Hf Hl]. split; [|simpl; lia].
      change (firstn (S (S j)) (y :: l)) with (y :: firstn (S j) l).
      now rewrite Hf.
Qed.

Lemma flat_map_flush_of (env : environment) (b : list dict) (h : bool) (s : state) :
  flat_map batch (flush_of env b h s) = b.
Proof. destruct b; simpl; [reflexivity|now rewrite app_nil_r]. Qed.

Section Run.
Variable cfg : config.
Variable py_repr : pyval -> string.
Variable str_format : string -> string -> result string.
Variable exn_str : exn -> string.

(** [header_written] as the run first computes it. *)
Definition sink_has_content (env : environment) : bool :=
  (output_exists env && (0 <? output_size env)%nat)%bool.

(** What [process] does, in terms of the reads of the stop flag. *)
Lemma process_spec (env : environment) (api_client : BaseAPIClient)
  (prompt_template : string) (df : DataFrame) (todo : list task) (st5 : state) :
  let j1 := clear_reads env (reads st5) (length todo) in
  let completed := as_completed env (firstn j1 todo) in
  let from := reads st5 + Nat.min (S j1) (length todo) in
  let j2 := clear_reads env from (length completed) in
  let r := process cfg py_repr str_format exn_str env api_client prompt_template
             df todo st5 in
  df_to_process r = todo
  /\ submitted r = firstn j1 todo
  /\ merged_futures r = firstn j2 completed
  /\ collected r = firstn (S j2) completed
  /\ reads (final r) = from + Nat.min (S j2) (length completed)
  /\ flat_map batch (flushes (final r))
     = (flat_map batch (flushes st5)
        ++ map (row_of cfg py_repr str_format exn_str api_client prompt_template df)
             (firstn j2 completed))%list
  /\ (flushes st5 = [] -> headers_ok (sink_has_content env) (flushes (final r))).
Proof.
  cbv zeta. unfold process.
  rewrite submit_loop_spec. cbn [reads say queue flushes].
  set (j1 := clear_reads env (reads st5) (length todo)).
  set (completed := as_completed env (firstn j1 todo)).
  set (st7 := {| queue := (queue st5 ++ [StartWorkersLine (MAX_WORKERS cfg)])%list;
                 reads := reads st5 + Nat.min (S j1) (length todo);
                 flushes := flushes st5 |}).
  set (c0 := {| st := st7; batch_results := [];
                header_written := (output_exists env && (0 <? output_size env)%nat)%bool;
                processed_count := 0; yielded := []; merged := [] |}).
  change (collect_loop cfg py_repr str_format exn_str env api_client prompt_template
            df (length todo) completed c0)
    with (the_loop cfg py_repr str_format exn_str env api_client prompt_template
            df (length todo) completed c0).
  rewrite collect_loop_spec. change (reads (st c0)) with (reads st7).
  change (reads st7) with (reads st5 + Nat.min (S j1) (length todo)).
  set (j2 := clear_reads env (reads st5 + Nat.min (S j1) (length todo)) (length completed)).
  set (step := collect_step cfg py_repr str_format exn_str env api_client
                 prompt_template df (length todo)).
  set (done := fold_left step (firstn j2 completed) c0).
  destruct (steps_merged cfg py_repr str_format exn_str env api_client prompt_template
              df (length todo) (firstn j2 completed) c0) as [Hm [Hy Hr]].
  fold step in Hm, Hy, Hr. fold done in Hm, Hy, Hr.
  pose proof (all_rows_steps cfg py_repr str_format exn_str env api_client
                prompt_template df (length todo) (firstn j2 completed) c0) as Hrows.
  fold step in Hrows. fold done in Hrows. unfold all_rows in Hrows.
  cbn [st batch_results c0 st7 flushes] in Hrows. rewrite app_nil_r in Hrows.
  assert (Hinv : flushes st5 = [] -> header_inv (sink_has_content env) done).
  { intros Hnone. apply header_inv_steps. unfold header_inv. cbn. rewrite Hnone.
    now split. }
  assert (Hj2 : j2 <= length completed) by apply clear_reads_le.
  assert (Hlen : length (firstn j2 completed) = j2) by (rewrite length_firstn; lia).
  destruct (skipn j2 completed) as [|future rest] eqn:Eskip.
  - apply firstn_skipn_nil in Eskip as [Hfirst Hle].
    cbn [final df_to_process submitted collected merged_futures].
    rewrite reads_say, reads_save, flushes_say, flushes_save, flat_map_app,
      flat_map_flush_of, Hm, Hy, Hr, Hrows, Hfirst, Hlen.
    cbn [merged yielded c0 st st7 reads app].
    repeat split; try reflexivity; try lia.
    intros Hnone. destruct (Hinv Hnone) as [Hok Hflag].
    rewrite <- flushes_save, Hflag. now apply headers_ok_save.
  - apply firstn_skipn_cons in Eskip as [Hfirst Hlt].
    cbn [final df_to_process submitted collected merged_futures collect_break
         st batch_results header_written yielded merged].
    rewrite reads_say, reads_save, flushes_say, flushes_save, flat_map_app,
      flat_map_flush_of.
    cbn [bump reads flushes].
    rewrite Hm, Hy, Hr, Hrows, Hfirst, Hlen.
    cbn [merged yielded c0 st st7 reads app].
    repeat split; try reflexivity; try lia.
    intros Hnone. destruct (Hinv Hnone) as [Hok Hflag].
    change (flushes (st done))
      with (flushes (bump (st done))) at 1.
    rewrite <- flushes_save, Hflag.
    apply (headers_ok_save env (sink_has_content env) (batch_results done)
             (bump (st done))). exact Hok.
Qed.

(** With the flag clear throughout, every future is merged, and the
    buffer is appended each time it reaches SAVE_INTERVAL rows. *)
Lemma process_checkpoints (env : environment) (api_client : BaseAPIClient)
  (prompt_template : string) (df : DataFrame) (todo : list task) (st5 : state) :
  1 <= SAVE_INTERVAL cfg ->
  (forall k, reads st5 <= k < reads st5 + 2 * length todo -> stop_event env k = false) ->
  length (as_completed env todo) = length todo ->
  exists intermediate last,
    flushes (final (process cfg py_repr str_format exn_str env api_client
                      prompt_template df todo st5))
    = (flushes st5 ++ intermediate ++ last)%list
    /\ length intermediate = length todo / SAVE_INTERVAL cfg
    /\ Forall (fun f => length (batch f) = SAVE_INTERVAL cfg) intermediate
    /\ length last <= 1
    /\ length (flat_map batch last) = length todo mod SAVE_INTERVAL cfg.
Proof.
  intros HK Hclear Hperm. unfold process.
  rewrite submit_loop_spec. cbn [reads say queue flushes].
  rewrite (clear_reads_all env (length todo) (reads st5))
    by (intros k Hk; apply Hclear; lia).
  rewrite firstn_all.
  replace (Nat.min (S (length todo)) (length todo)) with (length todo) by lia.
  set (completed := as_completed env todo) in *.
  set (c0 := {| st := _; batch_results := []; header_written := _;
                processed_count := 0; yielded := []; merged := [] |}).
  change (collect_loop cfg py_repr str_format exn_str env api_client prompt_template
            df (length todo) completed c0)
    with (the_loop cfg py_repr str_format exn_str env api_client prompt_template
            df (length todo) completed c0).
  rewrite collect_loop_spec. change (reads (st c0)) with (reads st5 + length todo).
  rewrite (clear_reads_all env (length completed) (reads st5 + length todo))
    by (intros k Hk; apply Hclear; lia).
  rewrite skipn_all, firstn_all.
  destruct (steps_flushes cfg py_repr str_format exn_str env api_client prompt_template
              df (length todo) completed c0 HK)
    as [new [Hfl [Hn [Hall Hrest]]]]; [simpl; lia|].
  cbn [final]. rewrite flushes_say, flushes_save, Hfl.
  change (flushes (st c0)) with (flushes st5).
  simpl (length (batch_results c0)) in Hn, Hrest. simpl plus in Hn, Hrest.
  rewrite Hperm in Hn, Hrest.
  exists new. eexists. split; [rewrite <- app_assoc; reflexivity|].
  split; [exact Hn|split; [exact Hall|]].
  rewrite flat_map_flush_of. split; [|exact Hrest].
  unfold flush_of. destruct (batch_results _); simpl; lia.
Qed.

(** The lines already on the queue have no influence on what the run
    does next. *)
Definition same_step (c c' : collector) : Prop :=
  reads (st c) = reads (st c') /\ flushes (st c) = flushes (st c')
  /\ batch_results c = batch_results c' /\ header_written c = header_written c'
  /\ processed_count c = processed_count c'
  /\ yielded c = yielded c' /\ merged c = merged c'.

Lemma same_step_collect (env : environment) (api_client : BaseAPIClient)
  (prompt_template : string) (df : DataFrame) (total : nat)
  (c c' : collector) (future : task) :
  same_step c c' ->
  same_step
    (collect_step cfg py_repr str_format exn_str env api_client prompt_template df
       total c future)
    (collect_step cfg py_repr str_format exn_str env api_client prompt_template df
       total c' future).
Proof.
  intros [Hr [Hf [Hb [Hh [Hp [Hy Hm]]]]]].
  unfold same_step, collect_step. cbn [st batch_results header_written
    processed_count yielded merged].
  rewrite Hb, Hh, Hp, Hy, Hm.
  destruct (SAVE_INTERVAL cfg <=? _)%nat.
  - rewrite !reads_save, !flushes_save. cbn [say bump reads flushes].
    rewrite Hr. unfold flush_of. cbn [flushes say bump]. rewrite Hf.
    now repeat split.
  - cbn [say bump reads flushes]. rewrite Hr, Hf. now repeat split.
Qed.

Lemma same_step_fold (env : environment) (api_client : BaseAPIClient)
  (prompt_template : string) (df : DataFrame) (total : nat)
  (l : list task) (c c' : collector) :
  same_step c c' ->
  same_step
    (fold_left (collect_step cfg py_repr str_format exn_str env api_client
                  prompt_template df total) l c)
    (fold_left (collect_step cfg py_repr str_format exn_str env api_client
                  prompt_template df total) l c').
Proof.
  revert c c'. induction l as [|f l IH]; intros c c' H; simpl; [exact H|].
  apply IH. now apply same_step_collect.
Qed.

(** Two runs did the same work: same selection, same submissions, same
    futures collected and merged, same appends to the output file, same
    number of reads of the stop flag. *)
Definition same_work (r r' : run) : Prop :=
  df_to_process r = df_to_process r'
  /\ submitted r = submitted r'
  /\ collected r = collected r'
  /\ merged_futures r = merged_futures r'
  /\ flushes (final r) = flushes (final r')
  /\ reads (final r) = reads (final r').

Lemma process_same_work (env : environment) (api_client : BaseAPIClient)
  (prompt_template : string) (df : DataFrame) (todo : list task) (s s' : state) :
  reads s = reads s' -> flushes s = flushes s' ->
  same_work
    (process cfg py_repr str_format exn_str env api_client prompt_template df todo s)
    (process cfg py_repr str_format exn_str env api_client prompt_template df todo s').
Proof.
  intros Hr Hf. unfold process. rewrite !submit_loop_spec.
  cbn [reads say queue flushes]. rewrite <- Hr, <- Hf.
  set (j1 := clear_reads env (reads s) (length todo)).
  set (completed := as_completed env (firstn j1 todo)).
  match goal with
  | |- same_work
         {| final := say _ (_save_batch_results _ (batch_results ?x) _ (st ?x));
            df_to_process := _; submitted := _; collected := _; merged_futures := _ |}
         {| final := say _ (_save_batch_results _ (batch_results ?y) _ (st ?y));
            df_to_process := _; submitted := _; collected := _; merged_futures := _ |} =>
      assert (Hsim : same_step x y)
  end.
  { match goal with
    | |- same_step (collect_loop _ _ _ _ _ _ _ _ _ _ ?a) (collect_loop _ _ _ _ _ _ _ _ _ _ ?b) =>
        change (same_step
                  (the_loop cfg py_repr str_format exn_str env api_client
                     prompt_template df (length todo) completed a)
                  (the_loop cfg py_repr str_format exn_str env api_client
                     prompt_template df (length todo) completed b));
        assert (H0 : same_step a b) by (unfold same_step; cbn; now repeat split)
    end.
    rewrite !collect_loop_spec. cbn [st reads].
    match goal with
    | |- same_step (match skipn ?j _ with _ => _ end) _ =>
        pose proof (same_step_fold env api_client prompt_template df (length todo)
                      (firstn j completed) _ _ H0) as Hfold
    end.
    destruct (skipn _ completed); [exact Hfold|].
    destruct Hfold as [H1 [H2 [H3 [H4 [H5 [H6 H7]]]]]].
    unfold same_step, collect_break. cbn [st batch_results header_written
      processed_count yielded merged bump reads flushes].
    rewrite H1, H2, H3, H4, H5, H6, H7. now repeat split. }
  destruct Hsim as [H1 [H2 [H3 [H4 [H5 [H6 H7]]]]]].
  unfold same_work. cbn [final df_to_process submitted collected merged_futures].
  rewrite !flushes_say, !flushes_save, !reads_say, !reads_save.
  unfold flush_of. rewrite H1, H2, H3, H4, H6, H7. now repeat split.
Qed.

(** *** The preparatory part *)

Lemma prepare_control (env : environment) (process_count : Z) (resume_mode : bool)
  (st0 : state) :
  reads (fst (prepare cfg env process_count resume_mode st0)) = reads st0
  /\ flushes (fst (prepare cfg env process_count resume_mode st0)) = flushes st0.
Proof.
  unfold prepare.
  destruct (read_csv_robustly (input_file env)) as [lines [df0|]]; [|now split].
  destruct (negb (forallb _ _)); [now split|].
  destruct (load_resume_set env resume_mode) as [resume_lines uids].
  destruct (length _ =? 0)%nat; destruct (has_column df0 "UID"); now split.
Qed.

Lemma prepare_plan (env : environment) (process_count : Z) (resume_mode : bool)
  (st0 st : state) (df : DataFrame) (todo : list task) :
  prepare cfg env process_count resume_mode st0 = (st, Some (df, todo)) ->
  exists df0,
    snd (read_csv_robustly (input_file env)) = Some df0
    /\ forallb (has_column df0) (REQUIRED_INPUT_COLUMNS cfg) = true
    /\ df = working_frame df0
    /\ todo = select env df (snd (load_resume_set env resume_mode)) process_count
    /\ todo <> []
    /\ incl (fst (load_resume_set env resume_mode)) (queue st).
Proof.
  unfold prepare.
  destruct (read_csv_robustly (input_file env)) as [lines [df0|]]; [|discriminate].
  destruct (forallb (has_column df0) (REQUIRED_INPUT_COLUMNS cfg)) eqn:Ecols;
    [|discriminate]. cbn [negb].
  destruct (load_resume_set env resume_mode) as [resume_lines uids].
  destruct (length _ =? 0)%nat eqn:Elen; [discriminate|].
  intros H. inversion H; subst. exists df0.
  repeat split.
  - exact Ecols.
  - intros Hnil. rewrite Hnil in Elen. discriminate.
  - intros line Hline. cbn [fst] in Hline.
    destruct (has_column df0 "UID"); cbn [say queue];
      rewrite !in_app_iff; tauto.
Qed.

Lemma prepare_plan_eq (env : environment) (process_count : Z)
  (resume_mode resume_mode' : bool) (st0 : state) :
  snd (load_resume_set env resume_mode) = snd (load_resume_set env resume_mode') ->
  snd (prepare cfg env process_count resume_mode st0)
  = snd (prepare cfg env process_count resume_mode' st0).
Proof.
  unfold prepare. intros H.
  destruct (read_csv_robustly (input_file env)) as [lines [df0|]]; [|reflexivity].
  destruct (negb (forallb _ _)); [reflexivity|].
  destruct (load_resume_set env resume_mode) as [l1 u1].
  destruct (load_resume_set env resume_mode') as [l2 u2].
  simpl in H. subst u2.
  destruct (length _ =? 0)%nat; reflexivity.
Qed.

Definition st_start : state := {| queue := []; reads := 0; flushes := [] |}.

(** The run, by the way [_execute_analysis] ends. *)
Lemma run_analysis_cases (env : environment) (api_client : BaseAPIClient)
  (process_count : Z) (prompt_template : string) (resume_mode : bool) :
  let r := run_analysis cfg py_repr str_format exn_str env api_client process_count
             prompt_template resume_mode in
  let p := prepare cfg env process_count resume_mode st_start in
  exists e,
    ((snd p = None /\ e = returned_early (fst p))
     \/ (exists df todo,
           p = (fst p, Some (df, todo))
           /\ e = process cfg py_repr str_format exn_str env api_client
                    prompt_template df todo (fst p)))
    /\ df_to_process r = df_to_process e
    /\ submitted r = submitted e
    /\ collected r = collected e
    /\ merged_futures r = merged_futures e
    /\ flushes (final r) = flushes (final e)
    /\ reads (final r) = S (reads (final e))
    /\ queue (final r)
       = (queue (final e)
          ++ [if stop_event env (reads (final e)) then AbortedLine else FinishedLine])%list.
Proof.
  cbv zeta. unfold run_analysis, _execute_analysis.
  fold st_start.
  destruct (prepare cfg env process_count resume_mode st_start) as [s [[df todo]|]].
  - eexists. split; [right; exists df, todo; split; reflexivity|].
    now repeat split.
  - eexists. split; [left; split; reflexivity|]. now repeat split.
Qed.

(** The plan of a run whose input is read and has the required columns. *)
Lemma prepare_selects (env : environment) (process_count : Z) (resume_mode : bool)
  (st0 : state) (df0 : DataFrame) :
  snd (read_csv_robustly (input_file env)) = Some df0 ->
  forallb (has_column df0) (REQUIRED_INPUT_COLUMNS cfg) = true ->
  let todo := select env (working_frame df0) (snd (load_resume_set env resume_mode))
                process_count in
  snd (prepare cfg env process_count resume_mode st0)
  = if (length todo =? 0)%nat then None else Some (working_frame df0, todo).
Proof.
  intros Hread Hcols. cbv zeta. unfold prepare.
  destruct (read_csv_robustly (input_file env)) as [lines [df1|]]; [|discriminate].
  cbn [snd] in Hread. inversion Hread; subst df1. rewrite Hcols. cbn [negb].
  destruct (load_resume_set env resume_mode) as [resume_lines uids]. cbn [snd].
  destruct (length _ =? 0)%nat; reflexivity.
Qed.

Lemma run_selection (env : environment) (api_client : BaseAPIClient)
  (process_count : Z) (prompt_template : string) (resume_mode : bool) (df0 : DataFrame) :
  snd (read_csv_robustly (input_file env)) = Some df0 ->
  forallb (has_column df0) (REQUIRED_INPUT_COLUMNS cfg) = true ->
  df_to_process (run_analysis cfg py_repr str_format exn_str env api_client
                   process_count prompt_template resume_mode)
  = select env (working_frame df0) (snd (load_resume_set env resume_mode)) process_count.
Proof.
  intros Hread Hcols.
  destruct (run_analysis_cases env api_client
              process_count prompt_template resume_mode)
    as [e [Hcase [Hdf _]]].
  rewrite Hdf.
  pose proof (prepare_selects env process_count resume_mode st_start df0 Hread Hcols)
    as Hsel. cbv zeta in Hsel.
  destruct Hcase as [[Hnone He]|[df [todo [Hp He]]]]; subst e.
  - rewrite Hnone in Hsel. cbn [returned_early df_to_process].
    destruct (select _ _ _ _) as [|t l]; [reflexivity|discriminate].
  - rewrite Hp in Hsel. cbn [snd] in Hsel.
    destruct (length _ =? 0)%nat; [discriminate|]. inversion Hsel; subst.
    now destruct (process_spec env api_client
                    prompt_template (working_frame df0)
                    (select env (working_frame df0) (snd (load_resume_set env resume_mode))
                       process_count)
                    (fst (prepare cfg env process_count resume_mode st_start)))
      as [Htodo _].
Qed.


Lemma never_stopped (env : environment) (from count : nat) :
  stop_after env = None -> clear_reads env from count = count.
Proof.
  intros H. apply clear_reads_all. intros k _. unfold stop_event. now rewrite H.
Qed.

(** A run that nobody stops submits every record to process and merges
    every result [as_completed] hands over. *)
Lemma run_not_stopped (env : environment) (api_client : BaseAPIClient)
  (process_count : Z) (prompt_template : string) (resume_mode : bool) :
  stop_after env = None ->
  let r := run_analysis cfg py_repr str_format exn_str env api_client process_count
             prompt_template resume_mode in
  submitted r = df_to_process r
  /\ (df_to_process r <> [] ->
      merged_futures r = as_completed env (df_to_process r)).
Proof.
  intros Hstop. cbv zeta.
  destruct (run_analysis_cases env api_client process_count prompt_template resume_mode)
    as [e [Hcase [Hdf [Hsub [_ [Hm _]]]]]].
  rewrite Hdf, Hsub, Hm.
  destruct Hcase as [[Hnone He]|[df [todo [Hp He]]]]; subst e.
  - cbn [returned_early submitted df_to_process merged_futures].
    split; [reflexivity|]. intros H. now elim H.
  - destruct (process_spec env api_client prompt_template df todo
                (fst (prepare cfg env process_count resume_mode st_start)))
      as [Htodo [Hs [Hmerged _]]].
    rewrite Htodo, Hs, Hmerged, !(never_stopped env _ _ Hstop), !firstn_all.
    now split.
Qed.

End Run.

End PipelineFacts.

(** ** data_processor.py: runs *)
Module RunFacts.
Import Py Json PyOps Queue Config Utils ApiClients DataProcessor.
Import PyFacts ApiClientsFacts DocumentFacts PipelineFacts.

(** *** The resume set *)

Lemma member_incl (c : cell) (l l' : list cell) :
  incl l l' -> member c l = true -> member c l' = true.
Proof.
  unfold member. rewrite !existsb_exists. intros Hincl [x [Hx He]].
  exists x. split; [now apply Hincl|exact He].
Qed.

Lemma member_nan (l : list cell) : member CNaN l = false.
Proof. unfold member. induction l as [|x l IH]; [reflexivity|exact IH]. Qed.

(** One step of [set(values)]. *)
Definition add_value (seen : list cell) (c : cell) : list cell :=
  if member c seen then seen else (seen ++ [c])%list.

Lemma to_set_is_fold (l : list cell) : to_set l = fold_left add_value l [].
Proof. reflexivity. Qed.

Lemma add_values_keep (l seen : list cell) : incl seen (fold_left add_value l seen).
Proof.
  revert seen. induction l as [|x l IH]; intros seen; simpl; [apply incl_refl|].
  eapply incl_tran; [|apply IH]. unfold add_value.
  destruct (member x seen); [apply incl_refl|now apply incl_appl].
Qed.

Lemma add_values_from (l seen : list cell) (c : cell) :
  In c (fold_left add_value l seen) -> In c seen \/ In c l.
Proof.
  revert seen. induction l as [|x l IH]; intros seen H; simpl in *; [now left|].
  apply IH in H as [H|H]; [|right; now right].
  unfold add_value in H. destruct (member x seen); [now left|].
  apply in_app_or in H as [H|[H|[]]]; [now left|right; now left].
Qed.

(** Every value that is not NaN is found in the set made of a list that
    holds it. *)
Lemma add_values_represent (l seen : list cell) (c : cell) :
  In c l -> c <> CNaN -> member c (fold_left add_value l seen) = true.
Proof.
  revert seen. induction l as [|x l IH]; intros seen Hin Hc; [contradiction|].
  simpl. destruct Hin as [Hx|Hin]; [subst x|now apply IH].
  apply (member_incl c (add_value seen c)); [apply add_values_keep|].
  unfold add_value. destruct (member c seen) eqn:E; [exact E|].
  unfold member. rewrite existsb_app. simpl.
  rewrite (cell_eqb_refl c Hc). now rewrite orb_true_r.
Qed.

Lemma is_nan_false (c : cell) : is_nan c = false <-> c <> CNaN.
Proof. destruct c; simpl; split; intros H; congruence. Qed.

(** The members of the resume set are UID cells of the sink, and none is
    NaN. *)
Lemma uid_set_sound (d : DataFrame) (c : cell) :
  In c (uid_set d) ->
  c <> CNaN /\ exists r, In r (rows d) /\ row_get r "UID" = c.
Proof.
  unfold uid_set. rewrite to_set_is_fold. intros H.
  apply add_values_from in H as [[]|H].
  apply filter_In in H as [Hin Hnan].
  unfold uid_column, column_cells in Hin. apply in_map_iff in Hin as [r [Hr Hin]].
  split; [|now exists r].
  apply is_nan_false. now apply negb_true_iff in Hnan.
Qed.

(** Every UID cell of the sink that is not NaN is found in the resume
    set. *)
Lemma uid_set_complete (d : DataFrame) (r : row) :
  In r (rows d) -> row_get r "UID" <> CNaN ->
  member (row_get r "UID") (uid_set d) = true.
Proof.
  intros Hin Hc. unfold uid_set. rewrite to_set_is_fold.
  apply add_values_represent; [|exact Hc].
  apply filter_In. split.
  - unfold uid_column, column_cells. apply in_map_iff. now exists r.
  - apply negb_true_iff. now apply is_nan_false.
Qed.

Lemma uid_set_no_nan (d : DataFrame) : ~ In CNaN (uid_set d).
Proof. intros H. apply uid_set_sound in H as [H _]. now apply H. Qed.

(** *** What the theorems ask of [Series.isin]

    A cell that Python's [==] finds equal to one of the values is marked
    (casting both sides to a common dtype keeps equal values equal), and no
    cell is marked when there are no values. *)
Definition isin_finds_equal_values (env : environment) : Prop :=
  forall (column values : list cell) (i : nat) (c : cell),
    nth_error column i = Some c -> member c values = true ->
    nth i (isin env column values) false = true.

Definition isin_finds_nothing_in_empty (env : environment) : Prop :=
  forall (column : list cell) (i : nat), nth i (isin env column []) false = false.

Lemma nth_isin_by_value (column values : list cell) (i : nat) :
  nth i (isin_by_value column values) false
  = match nth_error column i with
    | Some c => member c values
    | None => false
    end.
Proof.
  unfold isin_by_value. revert i.
  induction column as [|x column IH]; intros [|i]; simpl; try reflexivity.
  apply IH.
Qed.

Lemma isin_by_value_finds_equal (env : environment) :
  isin env = isin_by_value -> isin_finds_equal_values env.
Proof.
  intros He column values i c Hc Hm. rewrite He, nth_isin_by_value. now rewrite Hc.
Qed.

Lemma isin_by_value_empty (env : environment) :
  isin env = isin_by_value -> isin_finds_nothing_in_empty env.
Proof.
  intros He column i. rewrite He, nth_isin_by_value.
  now destruct (nth_error column i).
Qed.

(** *** The file of the sink, with and without its rows that lack a UID *)

(** The table without the rows whose UID cell is missing. *)
Definition drop_missing_uid (d : DataFrame) : DataFrame :=
  {| columns := columns d;
     rows := filter (fun r => negb (is_nan (row_get r "UID"))) (rows d) |}.

Lemma row_get_typed_row (rs : list row) (r : row) (col : string) :
  row_get (typed_row rs r) col
  = if is_float64 (column_cells rs col) then to_float64 (row_get r col)
    else row_get r col.
Proof.
  unfold row_get, typed_row.
  induction r as [|[k c] r IH]; simpl.
  - now destruct (is_float64 _).
  - destruct (String.eqb k col) eqn:E; [|exact IH].
    apply String.eqb_eq in E. now subst k.
Qed.

Lemma column_cells_as_read (d : DataFrame) (col : string) :
  column_cells (rows (as_read d)) col
  = map (fun c => if is_float64 (column_cells (rows d) col) then to_float64 c else c)
      (column_cells (rows d) col).
Proof.
  unfold as_read, column_cells. cbn [rows]. rewrite !map_map.
  apply map_ext. intros r. apply row_get_typed_row.
Qed.

(** A column without integers is read as the file has it. *)
Lemma column_without_integers (d : DataFrame) (col : string) :
  forallb (fun c => negb (is_int c)) (column_cells (rows d) col) = true ->
  column_cells (rows (as_read d)) col = column_cells (rows d) col.
Proof.
  intros H. rewrite column_cells_as_read.
  transitivity (map (fun c : cell => c) (column_cells (rows d) col));
    [|apply map_id].
  apply map_ext_in. intros c Hc.
  rewrite forallb_forall in H. specialize (H c Hc).
  destruct (is_float64 _); [|reflexivity].
  destruct c; try reflexivity. discriminate.
Qed.

Lemma filter_filter_same {A : Type} (f : A -> bool) (l : list A) :
  filter f (filter f l) = filter f l.
Proof.
  induction l as [|x l IH]; [reflexivity|].
  simpl. destruct (f x) eqn:E; [simpl; rewrite E; now f_equal|exact IH].
Qed.

Lemma uid_column_drop_missing (d : DataFrame) :
  uid_column (drop_missing_uid d)
  = filter (fun c => negb (is_nan c)) (uid_column d).
Proof.
  unfold uid_column, column_cells, drop_missing_uid. cbn [rows].
  induction (rows d) as [|r rs IH]; [reflexivity|].
  cbn [filter map]. destruct (negb (is_nan (row_get r "UID"))); cbn [map];
    now rewrite IH.
Qed.

(** For a sink whose UID cells are not integers, the rows without a UID
    change nothing in the resume set. *)
Lemma uid_set_drop_missing (d : DataFrame) :
  forallb (fun c => negb (is_int c)) (uid_column d) = true ->
  uid_set (as_read (drop_missing_uid d)) = uid_set (as_read d).
Proof.
  intros H. unfold uid_set, uid_column.
  rewrite (column_without_integers d "UID" H).
  rewrite (column_without_integers (drop_missing_uid d) "UID").
  - fold (uid_column (drop_missing_uid d)). rewrite uid_column_drop_missing.
    fold (uid_column d). now rewrite filter_filter_same.
  - fold (uid_column (drop_missing_uid d)). rewrite uid_column_drop_missing.
    unfold uid_column in H. rewrite forallb_forall in *.
    intros c Hc. apply filter_In in Hc as [Hc _]. now apply H.
Qed.

(** A line by which [read_csv_robustly] reports that it could not read. *)
Definition reports_read_failure (line : log_line) : bool :=
  match line with
  | EmptyPathError | GbkReadError | FileNotFoundLine | UnknownReadError => true
  | _ => false
  end.

Lemma unreadable_is_reported (file : read_outcome DataFrame) :
  snd (read_csv_robustly file) = None ->
  exists line, In line (fst (read_csv_robustly file)) /\ reports_read_failure line = true.
Proof.
  destruct file; simpl; intros H; try discriminate.
  - exists EmptyPathError. split; [now left|reflexivity].
  - exists GbkReadError. split; [right; now left|reflexivity].
  - exists FileNotFoundLine. split; [now left|reflexivity].
  - exists UnknownReadError. split; [now left|reflexivity].
Qed.

Lemma load_resume_set_unreadable (env : environment) :
  output_exists env = true ->
  snd (read_csv_robustly (output_file env)) = None ->
  load_resume_set env true = (fst (read_csv_robustly (output_file env)), []).
Proof.
  intros Hex Hnone. unfold load_resume_set. rewrite Hex. cbn [andb].
  destruct (read_csv_robustly (output_file env)) as [lines [d|]]; [discriminate|].
  reflexivity.
Qed.

(** *** The queue only grows *)

Definition extends (s s' : state) : Prop :=
  exists more, queue s' = (queue s ++ more)%list.

Lemma extends_refl (s : state) : extends s s.
Proof. exists []. now rewrite app_nil_r. Qed.

Lemma extends_trans (s1 s2 s3 : state) :
  extends s1 s2 -> extends s2 s3 -> extends s1 s3.
Proof.
  intros [m1 H1] [m2 H2]. exists (m1 ++ m2)%list.
  now rewrite H2, H1, app_assoc.
Qed.

Lemma extends_say (lines : list log_line) (s : state) : extends s (say lines s).
Proof. now exists lines. Qed.

Lemma extends_bump (s : state) : extends s (bump s).
Proof. exists []. simpl. now rewrite app_nil_r. Qed.

Lemma extends_save (env : environment) (b : list dict) (h : bool) (s : state) :
  extends s (_save_batch_results env b h s).
Proof. destruct b; [apply extends_refl|]. simpl. eexists. reflexivity. Qed.

Lemma extends_incl (s s' : state) : extends s s' -> incl (queue s) (queue s').
Proof. intros [more H]. rewrite H. now apply incl_appl. Qed.

Section Runs.
Variable cfg : config.
Variable py_repr : pyval -> string.
Variable str_format : string -> string -> result string.
Variable exn_str : exn -> string.


Lemma extends_step (env : environment) (api_client : BaseAPIClient)
  (prompt_template : string) (df : DataFrame) (total : nat)
  (c : collector) (future : task) :
  extends (st c)
    (st (collect_step cfg py_repr str_format exn_str env api_client prompt_template
           df total c future)).
Proof.
  unfold collect_step. cbn [st].
  destruct (SAVE_INTERVAL cfg <=? _)%nat.
  - eapply extends_trans; [apply extends_bump|].
    eapply extends_trans; [apply extends_say|apply extends_save].
  - eapply extends_trans; [apply extends_bump|apply extends_say].
Qed.

Lemma extends_fold (env : environment) (api_client : BaseAPIClient)
  (prompt_template : string) (df : DataFrame) (total : nat)
  (l : list task) (c : collector) :
  extends (st c)
    (st (fold_left (collect_step cfg py_repr str_format exn_str env api_client
                      prompt_template df total) l c)).
Proof.
  revert c. induction l as [|f l IH]; intros c; simpl; [apply extends_refl|].
  eapply extends_trans; [apply extends_step|apply IH].
Qed.

Lemma extends_process (env : environment) (api_client : BaseAPIClient)
  (prompt_template : string) (df : DataFrame) (todo : list task) (s : state) :
  extends s
    (final (process cfg py_repr str_format exn_str env api_client prompt_template
              df todo s)).
Proof.
  unfold process. rewrite submit_loop_spec. cbn [final].
  eapply extends_trans; [|apply extends_say].
  eapply extends_trans; [|apply extends_save].
  match goal with
  | |- extends _ (st (collect_loop _ _ _ _ _ _ _ _ ?n ?l ?c)) =>
      change (collect_loop cfg py_repr str_format exn_str env api_client
                prompt_template df n l c)
        with (the_loop cfg py_repr str_format exn_str env api_client
                prompt_template df n l c);
      assert (H0 : extends s (st c)) by (now exists [StartWorkersLine (MAX_WORKERS cfg)]);
      rewrite collect_loop_spec;
      pose proof (extends_fold env api_client prompt_template df n
                    (firstn (clear_reads env (reads (st c)) (length l)) l) c) as Hfold
  end.
  destruct (skipn _ _).
  - eapply extends_trans; eassumption.
  - cbn [collect_break st].
    eapply extends_trans; [eassumption|].
    eapply extends_trans; [eassumption|apply extends_bump].
Qed.

Lemma prepare_queue (env : environment) (process_count : Z) (resume_mode : bool)
  (st0 : state) (df0 : DataFrame) :
  snd (read_csv_robustly (input_file env)) = Some df0 ->
  forallb (has_column df0) (REQUIRED_INPUT_COLUMNS cfg) = true ->
  incl (fst (load_resume_set env resume_mode))
       (queue (fst (prepare cfg env process_count resume_mode st0))).
Proof.
  intros Hin Hcols. unfold prepare.
  destruct (read_csv_robustly (input_file env)) as [lines [df1|]]; [|discriminate].
  cbn [snd] in Hin. inversion Hin; subst df1. rewrite Hcols. cbn [negb].
  destruct (load_resume_set env resume_mode) as [resume_lines uids].
  intros line Hline. cbn [fst] in Hline.
  destruct (length _ =? 0)%nat; destruct (has_column df0 "UID");
    cbn [fst say queue]; rewrite !in_app_iff; tauto.
Qed.

Lemma iterrows_cell (rs : list row) (i : nat) (t : task) :
  In t (iterrows i rs) ->
  i <= index t
  /\ nth_error (column_cells rs "UID") (index t - i) = Some (uid_of t).
Proof.
  revert i. induction rs as [|r rs IH]; intros i Hin; [contradiction|].
  cbn [iterrows] in Hin. destruct Hin as [Ht|Hin].
  - subst t. cbn [index]. rewrite Nat.sub_diag. split; [lia|reflexivity].
  - apply IH in Hin as [Hle Hn]. split; [lia|].
    replace (index t - i) with (S (index t - S i)) by lia. exact Hn.
Qed.

Lemma unprocessed_in_frame (env : environment) (df : DataFrame) (uids : list cell)
  (t : task) :
  In t (unprocessed env df uids) -> In t (iterrows 0 (rows df)).
Proof. unfold unprocessed. intros H. now apply filter_In in H as [H _]. Qed.

(** Every submitted future is one of the selected rows of the working
    frame. *)
Lemma submitted_from_selection (env : environment) (api_client : BaseAPIClient)
  (process_count : Z) (prompt_template : string) (resume_mode : bool) (t : task) :
  In t (submitted (run_analysis cfg py_repr str_format exn_str env api_client process_count prompt_template resume_mode)) ->
  exists df0,
    snd (read_csv_robustly (input_file env)) = Some df0
    /\ In t (select env (working_frame df0) (snd (load_resume_set env resume_mode))
               process_count).
Proof.
  destruct (run_analysis_cases cfg py_repr str_format exn_str env api_client
              process_count prompt_template resume_mode)
    as [e [Hcase [_ [Hsub _]]]].
  rewrite Hsub. destruct Hcase as [[_ He]|[df [todo [Hp He]]]]; subst e.
  - simpl. contradiction.
  - apply prepare_plan in Hp as [df0 [Hread [_ [Hdf [Htodo _]]]]].
    destruct (process_spec cfg py_repr str_format exn_str env api_client
                prompt_template df todo
                (fst (prepare cfg env process_count resume_mode st_start)))
      as [_ [Hs _]].
    rewrite Hs. intros Hin. apply firstn_incl in Hin.
    exists df0. split; [exact Hread|]. now rewrite <- Hdf, <- Htodo.
Qed.

(** With nothing in the resume set and an [isin] that finds nothing among
    no values, every row is unprocessed. *)
Lemma unprocessed_all (env : environment) (df : DataFrame) :
  isin_finds_nothing_in_empty env ->
  unprocessed env df [] = iterrows 0 (rows df).
Proof.
  intros Hempty. unfold unprocessed.
  induction (iterrows 0 (rows df)) as [|t l IH]; [reflexivity|].
  cbn [filter]. rewrite (Hempty _ (index t)). cbn [negb]. now rewrite IH.
Qed.

Lemma same_work_resume_off (env : environment) (api_client : BaseAPIClient)
  (process_count : Z) (prompt_template : string) (resume_mode : bool) :
  snd (load_resume_set env resume_mode) = [] ->
  same_work (run_analysis cfg py_repr str_format exn_str env api_client process_count prompt_template resume_mode)
            (run_analysis cfg py_repr str_format exn_str env api_client process_count prompt_template false).
Proof.
  intros Hempty.
  destruct (run_analysis_cases cfg py_repr str_format exn_str env api_client
              process_count prompt_template resume_mode)
    as [e [Hcase [H1 [H2 [H3 [H4 [H5 [H6 _]]]]]]]].
  destruct (run_analysis_cases cfg py_repr str_format exn_str env api_client
              process_count prompt_template false)
    as [e' [Hcase' [H1' [H2' [H3' [H4' [H5' [H6' _]]]]]]]].
  unfold same_work. rewrite H1, H2, H3, H4, H5, H6, H1', H2', H3', H4', H5', H6'.
  assert (Hplan : snd (prepare cfg env process_count resume_mode st_start)
                  = snd (prepare cfg env process_count false st_start)).
  { apply prepare_plan_eq. rewrite Hempty. unfold load_resume_set.
    now destruct (output_exists env). }
  destruct (prepare_control cfg env process_count resume_mode st_start) as [Hr Hf].
  destruct (prepare_control cfg env process_count false st_start) as [Hr' Hf'].
  assert (Hsame : same_work e e').
  { destruct Hcase as [[Hn He]|[df [todo [Hp He]]]];
      destruct Hcase' as [[Hn' He']|[df' [todo' [Hp' He']]]]; subst e e'.
    - unfold same_work. cbn. rewrite Hr, Hf, Hr', Hf'. now repeat split.
    - rewrite Hp' in Hplan. rewrite Hn in Hplan. discriminate.
    - rewrite Hp in Hplan. rewrite Hn' in Hplan. discriminate.
    - rewrite Hp, Hp' in Hplan. cbn [snd] in Hplan. inversion Hplan; subst.
      apply process_same_work; congruence. }
  destruct Hsame as [S1 [S2 [S3 [S4 [S5 S6]]]]].
  rewrite S1, S2, S3, S4, S5, S6. now repeat split.
Qed.

(** C1. In every run, a submitted future is never of a row that [isin]
    finds in the resume set; with an [isin] that finds every cell equal to
    one of the values, no submitted record has a UID equal to a member of
    the resume set.  The resume set is what the run read from the output
    file at its start: its members are UID cells of that file, none is
    NaN, and every UID cell of the file that is not NaN is found in it.
    When resume is asked for and the output file exists but
    [read_csv_robustly] cannot read it, the resume set is empty, the
    reader's report of the failure is on the queue, and the run is not
    aborted: it does the same work as a run without resume, the records
    to process are all the records of the input (the first
    [process_count] of them when that is positive), and a run that nobody
    stops submits every one of them and merges every result. *)
Theorem resume_set_never_resubmitted (env : environment)
  (api_client : BaseAPIClient) (process_count : Z) (prompt_template : string)
  (resume_mode : bool) :
  let r := run_analysis cfg py_repr str_format exn_str env api_client process_count prompt_template resume_mode in
  let resume_set := snd (load_resume_set env resume_mode) in
  (forall df0 t,
      snd (read_csv_robustly (input_file env)) = Some df0 ->
      In t (submitted r) ->
      nth (index t) (isin env (uid_column (working_frame df0)) resume_set) false = false)
  /\ (isin_finds_equal_values env ->
      forall t, In t (submitted r) -> member (uid_of t) resume_set = false)
  /\ (forall d, resume_mode = true -> output_exists env = true ->
        snd (read_csv_robustly (output_file env)) = Some d ->
        has_column d "UID" = true ->
        (forall c, In c resume_set ->
                   c <> CNaN /\ exists row, In row (rows d) /\ row_get row "UID" = c)
        /\ (forall row, In row (rows d) -> row_get row "UID" <> CNaN ->
                        member (row_get row "UID") resume_set = true))
  /\ (resume_mode = true -> output_exists env = true ->
      snd (read_csv_robustly (output_file env)) = None ->
      resume_set = []
      /\ (exists line, In line (fst (load_resume_set env resume_mode))
                       /\ reports_read_failure line = true)
      /\ (forall df0, snd (read_csv_robustly (input_file env)) = Some df0 ->
             forallb (has_column df0) (REQUIRED_INPUT_COLUMNS cfg) = true ->
             incl (fst (load_resume_set env resume_mode)) (queue (final r)))
      /\ same_work r (run_analysis cfg py_repr str_format exn_str env api_client process_count prompt_template false)
      /\ (isin_finds_nothing_in_empty env ->
          forall df0, snd (read_csv_robustly (input_file env)) = Some df0 ->
            forallb (has_column df0) (REQUIRED_INPUT_COLUMNS cfg) = true ->
            let records := iterrows 0 (rows (working_frame df0)) in
            df_to_process r
            = (if (0 <? process_count)%Z
               then firstn (Z.to_nat process_count) records else records)
            /\ (stop_after env = None ->
                submitted r = df_to_process r
                /\ (df_to_process r <> [] ->
                    merged_futures r = as_completed env (df_to_process r))))).
Proof.
  cbv zeta.
  assert (Hmask : forall df0 t,
            snd (read_csv_robustly (input_file env)) = Some df0 ->
            In t (submitted (run_analysis cfg py_repr str_format exn_str env api_client
                               process_count prompt_template resume_mode)) ->
            In t (iterrows 0 (rows (working_frame df0)))
            /\ nth (index t)
                 (isin env (uid_column (working_frame df0))
                    (snd (load_resume_set env resume_mode))) false = false).
  { intros df0 t Hread Ht.
    apply submitted_from_selection in Ht as [df1 [Hread1 Hin]].
    rewrite Hread in Hread1. inversion Hread1; subst df1. split.
    - apply select_from_unprocessed in Hin. now apply unprocessed_in_frame in Hin.
    - now apply select_not_in_resume_set in Hin. }
  split; [|split; [|split]].
  - intros df0 t Hread Ht. now apply (Hmask df0 t Hread Ht).
  - intros Hfinds t Ht.
    destruct (member (uid_of t) (snd (load_resume_set env resume_mode))) eqn:E;
      [|reflexivity].
    pose proof Ht as Ht'.
    apply submitted_from_selection in Ht' as [df0 [Hread _]].
    destruct (Hmask df0 t Hread Ht) as [Hin Hfalse].
    apply iterrows_cell in Hin as [_ Hcell]. rewrite Nat.sub_0_r in Hcell.
    unfold uid_column in Hfalse.
    rewrite (Hfinds _ _ _ _ Hcell E) in Hfalse. discriminate.
  - intros d Hmode Hex Hread Hcol. subst resume_mode.
    unfold load_resume_set. rewrite Hex. cbn [andb].
    destruct (read_csv_robustly (output_file env)) as [lines [d'|]]; [|discriminate].
    cbn [snd] in Hread. inversion Hread; subst d'. rewrite Hcol. cbn [snd].
    split; [intros c; apply uid_set_sound|intros row; apply uid_set_complete].
  - intros Hmode Hex Hread. subst resume_mode.
    rewrite (load_resume_set_unreadable env Hex Hread). cbn [fst snd].
    split; [reflexivity|split; [now apply unreadable_is_reported|split; [|split]]].
    + intros df0 Hin Hcols.
      destruct (run_analysis_cases cfg py_repr str_format exn_str env api_client
                  process_count prompt_template true)
        as [e [Hcase [_ [_ [_ [_ [_ [_ Hq]]]]]]]].
      rewrite Hq. apply incl_appl.
      pose proof (prepare_queue env process_count true st_start df0 Hin Hcols) as Hincl.
      rewrite (load_resume_set_unreadable env Hex Hread) in Hincl. cbn [fst] in Hincl.
      destruct Hcase as [[Hn He]|[df [todo [Hp He]]]]; subst e.
      * exact Hincl.
      * eapply incl_tran; [exact Hincl|].
        apply extends_incl, extends_process.
    + apply same_work_resume_off. now rewrite (load_resume_set_unreadable env Hex Hread).
    + intros Hempty df0 Hin Hcols. split.
      * rewrite (run_selection cfg py_repr str_format exn_str env api_client
                   process_count prompt_template true df0 Hin Hcols).
        rewrite (load_resume_set_unreadable env Hex Hread). cbn [snd].
        unfold select. now rewrite (unprocessed_all env _ Hempty).
      * intros Hstop.
        exact (run_not_stopped cfg py_repr str_format exn_str env api_client
                 process_count prompt_template true Hstop).
Qed.

(** *** Rows of the sink without a UID *)

Lemma clear_reads_ext (env env' : environment) (count from : nat) :
  (forall k, stop_event env k = stop_event env' k) ->
  clear_reads env from count = clear_reads env' from count.
Proof.
  intros H. revert from. induction count as [|n IH]; intros from; simpl; [reflexivity|].
  rewrite H, IH. reflexivity.
Qed.

(** The same surroundings, with another answer when the sink is read. *)
Definition with_output_file (env : environment) (file : read_outcome DataFrame)
  : environment :=
  {| input_file := input_file env;
     output_exists := output_exists env;
     output_size := output_size env;
     output_file := file;
     stop_after := stop_after env;
     as_completed := as_completed env;
     to_csv := to_csv env;
     isin := isin env |}.

(** The table of a file that can be read. *)
Definition table_of (file : read_outcome DataFrame) : option DataFrame :=
  match file with
  | ReadUtf8 d | ReadGbk d => Some d
  | _ => None
  end.

Definition map_frame (g : DataFrame -> DataFrame) (file : read_outcome DataFrame)
  : read_outcome DataFrame :=
  match file with
  | ReadUtf8 d => ReadUtf8 (g d)
  | ReadGbk d => ReadGbk (g d)
  | other => other
  end.

Lemma load_resume_set_drop_missing (env : environment) (resume_mode : bool) :
  (forall table, table_of (output_file env) = Some table ->
                 forallb (fun c => negb (is_int c)) (uid_column table) = true) ->
  load_resume_set
    (with_output_file env (map_frame drop_missing_uid (output_file env))) resume_mode
  = load_resume_set env resume_mode.
Proof.
  intros Htext.
  unfold load_resume_set. cbn [with_output_file output_exists output_file].
  destruct (resume_mode && output_exists env)%bool; [|reflexivity].
  destruct (output_file env) as [|d|d| | |]; try reflexivity;
    cbn [map_frame read_csv_robustly];
    change (has_column (as_read (drop_missing_uid d)) "UID")
      with (has_column (as_read d) "UID");
    now rewrite (uid_set_drop_missing d (Htext d eq_refl)).
Qed.

(** *** Integer identifiers

    A sink whose UID cells are integers and that has a row without UID is
    read with a [float64] UID column.  Below 2^53 every integer is its own
    float, and an [isin] that does not tell the two apart gives the same
    mask for both. *)
Definition small_int (c : cell) : bool :=
  match c with
  | CInt z => (Z.abs z <? 2 ^ 53)%Z
  | _ => false
  end.

Definition integers_below_2_53 (c : cell) : bool :=
  match c with
  | CInt z => (Z.abs z <? 2 ^ 53)%Z
  | _ => true
  end.

Definition isin_takes_small_integers_by_value (env : environment) : Prop :=
  forall column values : list cell,
    forallb small_int values = true ->
    isin env column (map to_float64 values) = isin env column values.

Lemma small_int_inv (c : cell) :
  small_int c = true -> exists z, c = CInt z /\ (Z.abs z < 2 ^ 53)%Z.
Proof.
  destruct c as [|z| | |]; try discriminate. simpl. intros H.
  exists z. split; [reflexivity|now apply Z.ltb_lt].
Qed.

Lemma member_to_float64_values (c : cell) (values : list cell) :
  forallb small_int values = true ->
  member c (map to_float64 values) = member c values.
Proof.
  unfold member. induction values as [|v values IH]; [reflexivity|].
  cbn [forallb map existsb]. intros H. apply andb_prop in H as [Hv H].
  rewrite (IH H). f_equal.
  apply small_int_inv in Hv as [z [Hz Hs]]. subst v. cbn [to_float64].
  now apply cell_eqb_small_float_r.
Qed.

Lemma member_to_float64 (c : cell) (values : list cell) :
  small_int c = true ->
  member (to_float64 c) values = member c values.
Proof.
  intros Hc. apply small_int_inv in Hc as [z [Hz Hs]]. subst c. cbn [to_float64].
  unfold member. induction values as [|v values IH]; [reflexivity|].
  cbn [existsb]. rewrite IH. f_equal. now apply cell_eqb_small_float_l.
Qed.

Lemma isin_by_value_takes_small_integers (env : environment) :
  isin env = isin_by_value -> isin_takes_small_integers_by_value env.
Proof.
  intros He column values Hv. rewrite He. unfold isin_by_value.
  apply map_ext. intros c. now apply member_to_float64_values.
Qed.

Lemma add_values_to_float64 (l seen : list cell) :
  forallb small_int l = true -> forallb small_int seen = true ->
  fold_left add_value (map to_float64 l) (map to_float64 seen)
  = map to_float64 (fold_left add_value l seen)
  /\ forallb small_int (fold_left add_value l seen) = true.
Proof.
  revert seen. induction l as [|x l IH]; intros seen Hl Hseen; [now split|].
  cbn [forallb] in Hl. apply andb_prop in Hl as [Hx Hl].
  cbn [map fold_left].
  assert (Hadd : add_value (map to_float64 seen) (to_float64 x)
                 = map to_float64 (add_value seen x)).
  { unfold add_value.
    rewrite (member_to_float64 x _ Hx), (member_to_float64_values x seen Hseen).
    destruct (member x seen); [reflexivity|]. now rewrite map_app. }
  assert (Hsmall : forallb small_int (add_value seen x) = true).
  { unfold add_value. destruct (member x seen); [exact Hseen|].
    rewrite forallb_app, Hseen. cbn. now rewrite Hx. }
  rewrite Hadd. now apply IH.
Qed.

Lemma to_set_to_float64 (l : list cell) :
  forallb small_int l = true ->
  to_set (map to_float64 l) = map to_float64 (to_set l)
  /\ forallb small_int (to_set l) = true.
Proof.
  intros Hl. rewrite !to_set_is_fold.
  exact (add_values_to_float64 l [] Hl eq_refl).
Qed.

Lemma is_nan_to_float64 (c : cell) : is_nan (to_float64 c) = is_nan c.
Proof. now destruct c. Qed.

Lemma filter_map_same {A : Type} (f : A -> bool) (g : A -> A) (l : list A) :
  (forall a, f (g a) = f a) -> filter f (map g l) = map g (filter f l).
Proof.
  intros H. induction l as [|x l IH]; [reflexivity|].
  cbn [map filter]. rewrite H. destruct (f x); cbn [map]; now rewrite IH.
Qed.

Lemma forallb_filter_nan (p : cell -> bool) (l : list cell) :
  p CNaN = true ->
  forallb p (filter (fun c => negb (is_nan c)) l) = forallb p l.
Proof.
  intros Hp. induction l as [|x l IH]; [reflexivity|].
  cbn [filter forallb]. destruct x; cbn [is_nan negb forallb]; rewrite ?Hp, IH;
    reflexivity.
Qed.

Lemma forallb_filter_incl {A : Type} (p f : A -> bool) (l : list A) :
  forallb p l = true -> forallb p (filter f l) = true.
Proof.
  rewrite !forallb_forall. intros H x Hx. apply filter_In in Hx as [Hx _].
  now apply H.
Qed.

(** The resume set read from a sink, beside the one read from the sink
    without its rows that lack a UID: the same, or the same integers
    written as floats. *)
Lemma uid_set_without_missing (d : DataFrame) :
  forallb integers_below_2_53 (uid_column d) = true ->
  let without := uid_set (as_read (drop_missing_uid d)) in
  uid_set (as_read d) = without
  \/ (forallb small_int without = true
      /\ uid_set (as_read d) = map to_float64 without).
Proof.
  intros Hsmall. cbv zeta. unfold uid_set, uid_column.
  rewrite !column_cells_as_read.
  fold (uid_column d). fold (uid_column (drop_missing_uid d)).
  rewrite uid_column_drop_missing.
  set (col := uid_column d) in *.
  set (col' := filter (fun c => negb (is_nan c)) col).
  assert (Hwith : forall b : bool,
            filter (fun c => negb (is_nan c))
              (map (fun c => if b then to_float64 c else c) col)
            = map (fun c => if b then to_float64 c else c) col').
  { intros b. apply filter_map_same. intros a.
    destruct b; [now rewrite is_nan_to_float64|reflexivity]. }
  assert (Hwithout : forall b : bool,
            filter (fun c => negb (is_nan c))
              (map (fun c => if b then to_float64 c else c) col')
            = map (fun c => if b then to_float64 c else c) col').
  { intros b. rewrite filter_map_same.
    - unfold col'. now rewrite filter_filter_same.
    - intros a. destruct b; [now rewrite is_nan_to_float64|reflexivity]. }
  rewrite Hwith, Hwithout.
  assert (Hnum : forallb is_number_or_nan col' = forallb is_number_or_nan col)
    by (apply forallb_filter_nan; reflexivity).
  unfold is_float64. rewrite Hnum.
  destruct (forallb is_number_or_nan col) eqn:En; cbn [andb]; [|now left].
  destruct (forallb is_int col) eqn:Ei.
  - assert (Ei' : forallb is_int col' = true) by now apply forallb_filter_incl.
    rewrite Ei'. now left.
  - cbn [negb]. destruct (forallb is_int col') eqn:Ei'; cbn [negb]; [|now left].
    right.
    assert (Hs : forallb small_int col' = true).
    { rewrite forallb_forall in *. intros c Hc. specialize (Ei' c Hc).
      apply filter_In in Hc as [Hc _]. specialize (Hsmall c Hc).
      destruct c; try discriminate. exact Hsmall. }
    rewrite (map_id col').
    destruct (to_set_to_float64 col' Hs) as [Hset Hsm].
    split; [exact Hsm|exact Hset].
Qed.

Lemma load_resume_set_without_missing (env : environment) (resume_mode : bool) :
  isin_takes_small_integers_by_value env ->
  (forall table, table_of (output_file env) = Some table ->
                 forallb integers_below_2_53 (uid_column table) = true) ->
  let env' := with_output_file env (map_frame drop_missing_uid (output_file env)) in
  fst (load_resume_set env' resume_mode) = fst (load_resume_set env resume_mode)
  /\ forall column,
       isin env column (snd (load_resume_set env' resume_mode))
       = isin env column (snd (load_resume_set env resume_mode)).
Proof.
  intros Hisin Hsmall. cbv zeta.
  unfold load_resume_set. cbn [with_output_file output_exists output_file].
  destruct (resume_mode && output_exists env)%bool; [|now split].
  destruct (output_file env) as [|d|d| | |]; try (now split);
    cbn [map_frame read_csv_robustly];
    change (has_column (as_read (drop_missing_uid d)) "UID")
      with (has_column (as_read d) "UID");
    (destruct (has_column (as_read d) "UID"); [|now split]);
    (destruct (uid_set_without_missing d (Hsmall d eq_refl)) as [Heq|[Hs Heq]];
     rewrite Heq;
     [now split
     |split; [now rewrite length_map|intros column; symmetry; now apply Hisin]]).
Qed.

Lemma process_with_output_file (env : environment) (file : read_outcome DataFrame)
  (api_client : BaseAPIClient) (prompt_template : string) (df : DataFrame)
  (todo : list task) (s : state) :
  process cfg py_repr str_format exn_str (with_output_file env file) api_client
    prompt_template df todo s
  = process cfg py_repr str_format exn_str env api_client prompt_template df todo s.
Proof.
  unfold process. rewrite !submit_loop_spec.
  rewrite (clear_reads_ext (with_output_file env file) env) by reflexivity.
  cbn [with_output_file as_completed output_exists output_size].
  match goal with
  | |- context [collect_loop _ _ _ _ (with_output_file env file) _ _ _ ?n ?l ?c] =>
      assert (Hloop :
                collect_loop cfg py_repr str_format exn_str (with_output_file env file)
                  api_client prompt_template df n l c
                = collect_loop cfg py_repr str_format exn_str env
                    api_client prompt_template df n l c)
  end.
  { match goal with
    | |- collect_loop _ _ _ _ _ _ _ _ ?n ?l ?c = _ =>
        change (the_loop cfg py_repr str_format exn_str (with_output_file env file)
                  api_client prompt_template df n l c
                = the_loop cfg py_repr str_format exn_str env
                    api_client prompt_template df n l c)
    end.
    rewrite !collect_loop_spec.
    rewrite (clear_reads_ext (with_output_file env file) env) by reflexivity.
    reflexivity. }
  rewrite Hloop. reflexivity.
Qed.

(** C10. NaN is never a member of the resume set, and every member is a
    UID cell of the sink as [read_csv] returns it.  For a sink whose UID
    cells are not integers (text, as the identifiers of a literature
    database are), it does not matter to the run whether the sink has rows
    without a UID: the run against the file with those rows removed is the
    same run.  The same holds for a sink whose integer UIDs are all below
    2^53 in absolute value, with an [isin] that gives one mask for such
    integers and for the floats of the same value.  When the sink has no
    UID column the resume set is empty. *)
Theorem resume_set_skips_missing_uids (env : environment)
  (api_client : BaseAPIClient) (process_count : Z) (prompt_template : string)
  (resume_mode : bool) :
  (forall d, ~ In CNaN (uid_set d) /\ member CNaN (uid_set d) = false)
  /\ (forall d c, In c (uid_set d) ->
                  exists row, In row (rows d) /\ row_get row "UID" = c)
  /\ ((forall table, table_of (output_file env) = Some table ->
                     forallb (fun c => negb (is_int c)) (uid_column table) = true) ->
      run_analysis cfg py_repr str_format exn_str
        (with_output_file env (map_frame drop_missing_uid (output_file env)))
        api_client process_count prompt_template resume_mode
      = run_analysis cfg py_repr str_format exn_str env api_client process_count
          prompt_template resume_mode)
  /\ (isin_takes_small_integers_by_value env ->
      (forall table, table_of (output_file env) = Some table ->
                     forallb integers_below_2_53 (uid_column table) = true) ->
      run_analysis cfg py_repr str_format exn_str
        (with_output_file env (map_frame drop_missing_uid (output_file env)))
        api_client process_count prompt_template resume_mode
      = run_analysis cfg py_repr str_format exn_str env api_client process_count
          prompt_template resume_mode)
  /\ (forall d, snd (read_csv_robustly (output_file env)) = Some d ->
        has_column d "UID" = false ->
        snd (load_resume_set env resume_mode) = []).
Proof.
  split; [|split; [|split; [|split]]].
  - intros d. split; [apply uid_set_no_nan|apply member_nan].
  - intros d c H. now apply uid_set_sound in H as [_ H].
  - intros Htext.
    set (env' := with_output_file env (map_frame drop_missing_uid (output_file env))).
    assert (Hprep : forall s, prepare cfg env' process_count resume_mode s
                              = prepare cfg env process_count resume_mode s).
    { intros s. unfold prepare. unfold env' at 2.
      rewrite (load_resume_set_drop_missing env resume_mode Htext). reflexivity. }
    unfold run_analysis, _execute_analysis. rewrite Hprep.
    destruct (prepare cfg env process_count resume_mode _) as [s [[df todo]|]].
    + subst env'. rewrite process_with_output_file. reflexivity.
    + reflexivity.
  - intros Hisin Hsmall.
    set (env' := with_output_file env (map_frame drop_missing_uid (output_file env))).
    destruct (load_resume_set_without_missing env resume_mode Hisin Hsmall)
      as [Hlines Hmask].
    fold env' in Hlines, Hmask.
    assert (Hprep : forall s, prepare cfg env' process_count resume_mode s
                              = prepare cfg env process_count resume_mode s).
    { intros s. unfold prepare.
      change (input_file env') with (input_file env).
      destruct (read_csv_robustly (input_file env)) as [lines [df0|]]; [|reflexivity].
      destruct (negb (forallb (has_column df0) (REQUIRED_INPUT_COLUMNS cfg)));
        [reflexivity|].
      destruct (load_resume_set env' resume_mode) as [lines' uids'].
      destruct (load_resume_set env resume_mode) as [lines0 uids0].
      cbn [fst snd] in Hlines, Hmask. subst lines'.
      assert (Hselect : select env' (working_frame df0) uids' process_count
                        = select env (working_frame df0) uids0 process_count).
      { unfold select, unprocessed.
        change (isin env') with (isin env). now rewrite Hmask. }
      now rewrite Hselect. }
    unfold run_analysis, _execute_analysis. rewrite Hprep.
    destruct (prepare cfg env process_count resume_mode _) as [s [[df todo]|]].
    + subst env'. rewrite process_with_output_file. reflexivity.
    + reflexivity.
  - intros d Hread Hcol. unfold load_resume_set.
    destruct (resume_mode && output_exists env)%bool; [|reflexivity].
    destruct (read_csv_robustly (output_file env)) as [lines [d'|]]; [|reflexivity].
    cbn [snd] in Hread. inversion Hread; subst d'. now rewrite Hcol.
Qed.

(** *** Checkpoints and the header *)

Lemma headers_ok_only_first (h0 : bool) (fl pre post : list flush) (f : flush) :
  headers_ok h0 fl -> fl = (pre ++ f :: post)%list -> write_header f = true ->
  pre = [] /\ h0 = false.
Proof.
  intros Hok Hfl Hf. subst fl. destruct pre as [|p pre]; simpl in Hok.
  - destruct Hok as [Hh _]. rewrite Hf in Hh. split; [reflexivity|].
    now destruct h0.
  - destruct Hok as [_ Hrest]. rewrite Forall_forall in Hrest.
    rewrite (Hrest f) in Hf; [discriminate|].
    apply in_or_app. right. now left.
Qed.

Lemma headers_ok_never (fl : list flush) :
  headers_ok true fl -> Forall (fun f => write_header f = false) fl.
Proof.
  destruct fl as [|f rest]; simpl; [constructor|].
  intros [Hf Hrest]. now constructor.
Qed.

(** C4, for runs that are not stopped.  Let K >= 1 be SAVE_INTERVAL and N
    the number of records to process.  If no read of the stop flag during
    the two loops sees it set and every submitted future completes, the
    loop appends to the output file exactly floor(N/K) times, K rows each
    time, and what follows is at most one last append, of the N mod K
    remaining rows.  In every run, stopped or not, only the first append
    of the run can write the header, and it does so exactly when the output
    file was absent or empty at the start; a run against a non-empty file
    writes no header. *)
Theorem checkpoints_and_header (env : environment) (api_client : BaseAPIClient)
  (process_count : Z) (prompt_template : string) (resume_mode : bool) :
  let r := run_analysis cfg py_repr str_format exn_str env api_client process_count
             prompt_template resume_mode in
  let K := SAVE_INTERVAL cfg in
  let N := length (df_to_process r) in
  headers_ok (sink_has_content env) (flushes (final r))
  /\ (forall pre f post,
        flushes (final r) = (pre ++ f :: post)%list -> write_header f = true ->
        pre = [] /\ (output_exists env = false \/ output_size env = 0))
  /\ (output_exists env = true -> 0 < output_size env ->
      Forall (fun f => write_header f = false) (flushes (final r)))
  /\ (1 <= K ->
      (forall k, k < 2 * N -> stop_event env k = false) ->
      (forall l, Permutation (as_completed env l) l) ->
      exists intermediate last,
        flushes (final r) = (intermediate ++ last)%list
        /\ length intermediate = N / K
        /\ Forall (fun f => length (batch f) = K) intermediate
        /\ length last <= 1
        /\ length (flat_map batch last) = N mod K).
Proof.
  cbv zeta.
  destruct (run_analysis_cases cfg py_repr str_format exn_str env api_client
              process_count prompt_template resume_mode)
    as [e [Hcase [Hdf [_ [_ [_ [Hfl _]]]]]]].
  destruct (prepare_control cfg env process_count resume_mode st_start) as [Hr0 Hf0].
  rewrite Hfl, Hdf. clear Hfl Hdf.
  assert (Hok : headers_ok (sink_has_content env) (flushes (final e))).
  { destruct Hcase as [[_ He]|[df [todo [_ He]]]]; subst e.
    - cbn [returned_early final]. rewrite Hf0. exact I.
    - apply process_spec. exact Hf0. }
  split; [exact Hok|split; [|split]].
  - intros pre f post Hsplit Hf.
    destruct (headers_ok_only_first _ _ _ _ _ Hok Hsplit Hf) as [Hpre Hh].
    split; [exact Hpre|]. unfold sink_has_content in Hh.
    apply andb_false_iff in Hh as [Hh|Hh]; [now left|right].
    apply Nat.ltb_ge in Hh. lia.
  - intros Hex Hsize. apply headers_ok_never.
    replace true with (sink_has_content env); [exact Hok|].
    unfold sink_has_content. rewrite Hex. simpl. now apply Nat.ltb_lt.
  - intros HK Hclear Hperm.
    destruct Hcase as [[_ He]|[df [todo [_ He]]]]; subst e.
    + cbn [returned_early final df_to_process length]. rewrite Hf0.
      exists [], []. simpl. rewrite Nat.Div0.div_0_l, Nat.Div0.mod_0_l.
      repeat split; auto.
    + destruct (process_spec cfg py_repr str_format exn_str env api_client
                  prompt_template df todo
                  (fst (prepare cfg env process_count resume_mode st_start)))
        as [Htodo _].
      rewrite Htodo in *.
      destruct (process_checkpoints cfg py_repr str_format exn_str env api_client
                  prompt_template df todo
                  (fst (prepare cfg env process_count resume_mode st_start)) HK)
        as [intermediate [last [Hsplit Hrest]]].
      * rewrite Hr0. intros k Hk. apply Hclear. simpl in Hk. lia.
      * apply Permutation_length, Hperm.
      * rewrite Hf0 in Hsplit. exists intermediate, last.
        split; [exact Hsplit|exact Hrest].
Qed.

(** *** The stop flag *)

Lemma firstn_same {A : Type} (a b : nat) (l : list A) :
  Nat.min a (length l) = Nat.min b (length l) -> firstn a l = firstn b l.
Proof.
  revert a b. induction l as [|x l IH]; intros a b H.
  - now rewrite !firstn_nil.
  - destruct a as [|a], b as [|b]; simpl in H; try discriminate; [reflexivity|].
    simpl. f_equal. apply IH. lia.
Qed.

(** C5, as the code has it.  Let the stop flag be set after n reads.
    Then only the first n records are submitted; the results merged are
    those of the futures collected before the flag was seen set (none when
    the flag was seen during submission), and the future collected at the
    moment the flag is seen set, although it has completed, is dropped
    with all the later ones; the rows handed to [_save_batch_results] are
    exactly the rows of the merged results, so whatever was buffered is
    flushed at the end; and when a read of the run saw the flag set, the
    last line on the queue is the aborted report. *)
Theorem stop_flag_behaviour (env : environment) (api_client : BaseAPIClient)
  (process_count : Z) (prompt_template : string) (resume_mode : bool) (n : nat) :
  stop_after env = Some n ->
  (forall l, Permutation (as_completed env l) l) ->
  let r := run_analysis cfg py_repr str_format exn_str env api_client process_count
             prompt_template resume_mode in
  let N := length (df_to_process r) in
  let completed := as_completed env (submitted r) in
  submitted r = firstn n (df_to_process r)
  /\ merged_futures r = firstn (n - N) completed
  /\ collected r = firstn (S (n - N)) completed
  /\ (forall df0, snd (read_csv_robustly (input_file env)) = Some df0 ->
        flat_map batch (flushes (final r))
        = map (row_of cfg py_repr str_format exn_str api_client prompt_template
                 (working_frame df0))
            (merged_futures r))
  /\ (n < reads (final r) ->
      exists q, queue (final r) = (q ++ [AbortedLine])%list).
Proof.
  intros Hstop Hperm. cbv zeta.
  destruct (run_analysis_cases cfg py_repr str_format exn_str env api_client
              process_count prompt_template resume_mode)
    as [e [Hcase [Hdf [Hsub [Hcol [Hmer [Hfl [Hreads Hq]]]]]]]].
  destruct (prepare_control cfg env process_count resume_mode st_start) as [Hr0 Hf0].
  rewrite Hdf, Hsub, Hcol, Hmer, Hfl, Hreads, Hq.
  assert (Hterminal :
            n < S (reads (final e)) ->
            exists q,
              (queue (final e)
               ++ [if stop_event env (reads (final e)) then AbortedLine else FinishedLine])%list
              = (q ++ [AbortedLine])%list).
  { intros Hn. exists (queue (final e)). unfold stop_event. rewrite Hstop.
    assert (E : (n <=? reads (final e))%nat = true) by (apply Nat.leb_le; lia).
    now rewrite E. }
  destruct Hcase as [[_ He]|[df [todo [Hp He]]]]; subst e.
  - cbn [returned_early final df_to_process submitted collected merged_futures].
    cbn [returned_early final] in Hterminal. rewrite Hf0.
    assert (Hnil : as_completed env [] = [])
      by (apply Permutation_nil, Permutation_sym, Hperm).
    rewrite Hnil, !firstn_nil. repeat split; auto.
  - destruct (process_spec cfg py_repr str_format exn_str env api_client
                prompt_template df todo
                (fst (prepare cfg env process_count resume_mode st_start)))
      as [Htodo [Hs [Hm [Hc [_ [Hrows _]]]]]].
    rewrite Htodo, Hs, Hm, Hc, Hrows, Hr0, Hf0.
    rewrite !(clear_reads_stop env n) by exact Hstop.
    change (reads st_start) with 0. change (flushes st_start) with (@nil flush).
    cbn [flat_map app plus].
    assert (Hsubm : firstn (Nat.min (length todo) (n - 0)) todo = firstn n todo)
      by (apply firstn_same; lia).
    rewrite Hsubm.
    set (completed := as_completed env (firstn n todo)).
    assert (Hlen : length completed = Nat.min (length todo) n).
    { unfold completed. rewrite (Permutation_length (Hperm _)), length_firstn. lia. }
    assert (Hmerged :
              firstn (Nat.min (length completed)
                        (n - Nat.min (S (Nat.min (length todo) (n - 0))) (length todo)))
                completed
              = firstn (n - length todo) completed)
      by (apply firstn_same; rewrite Hlen; lia).
    assert (Hcollected :
              firstn (S (Nat.min (length completed)
                           (n - Nat.min (S (Nat.min (length todo) (n - 0))) (length todo))))
                completed
              = firstn (S (n - length todo)) completed)
      by (apply firstn_same; rewrite Hlen; lia).
    rewrite Hmerged, Hcollected.
    split; [reflexivity|split; [reflexivity|split; [reflexivity|split]]].
    + intros df0 Hin. apply prepare_plan in Hp as [df1 [Hin1 [_ [Hdf' _]]]].
      rewrite Hin in Hin1. inversion Hin1; subst df1. now rewrite Hdf'.
    + exact Hterminal.
Qed.

End Runs.

(** *** Concrete runs *)

Import PlainFormat.

Definition untitled (uid : string) (title : cell) : row :=
  [("Article Title", title); ("Abstract", CStr "An abstract."); ("UID", CStr uid)].

Definition one_untitled : DataFrame :=
  {| columns := ["Article Title"; "Abstract"; "UID"];
     rows := [untitled "WOS:1" (CStr " ")] |}.

Definition two_untitled : DataFrame :=
  {| columns := ["Article Title"; "Abstract"; "UID"];
     rows := [untitled "WOS:1" (CStr " "); untitled "WOS:2" CNaN] |}.

Definition three_untitled : DataFrame :=
  {| columns := ["Article Title"; "Abstract"; "UID"];
     rows := [untitled "WOS:1" (CStr " "); untitled "WOS:2" CNaN;
              untitled "WOS:3" (CStr "")] |}.

(** No output file yet, futures completing in submission order, appends
    succeeding, and the user asking to stop as [stop] says. *)
Definition fresh_run (input : DataFrame) (stop : option nat) : environment :=
  {| input_file := ReadUtf8 input;
     output_exists := false;
     output_size := 0;
     output_file := NotFound;
     stop_after := stop;
     as_completed := fun l => l;
     to_csv := fun _ => true;
     isin := isin_by_value |}.

(** A run that finds an output file it cannot read, or one it can. *)
Definition rerun (input : DataFrame) (sink : read_outcome DataFrame) : environment :=
  {| input_file := ReadUtf8 input;
     output_exists := true;
     output_size := 64;
     output_file := sink;
     stop_after := None;
     as_completed := fun l => l;
     to_csv := fun _ => true;
     isin := isin_by_value |}.

Definition save_every (k : nat) : config :=
  {| MAX_WORKERS := MAX_WORKERS settings;
     MAX_RETRIES := MAX_RETRIES settings;
     SAVE_INTERVAL := k;
     REQUIRED_INPUT_COLUMNS := REQUIRED_INPUT_COLUMNS settings |}.

Definition example_client : BaseAPIClient := OpenAIClient settings unreachable_client.
Definition example_template : string := "Extract the materials. {content_to_analyze}".

Definition example_run (cfg : config) (env : environment) (resume_mode : bool) : run :=
  run_analysis cfg no_repr format_plain no_message env example_client 0
    example_template resume_mode.

(** A sink left by a run that processed the first record only. *)
Definition one_done : DataFrame :=
  {| columns := ["Article Title"; "Abstract"; "UID"; "error"];
     rows := [[("Article Title", CStr " "); ("Abstract", CStr "An abstract.");
               ("UID", CStr "WOS:1"); ("error", CStr "Missing Title")]] |}.

Lemma resume_set_witness :
  snd (load_resume_set (rerun two_untitled (ReadUtf8 one_done)) true) = [CStr "WOS:1"]
  /\ map uid_of (submitted (example_run settings (rerun two_untitled (ReadUtf8 one_done))
                              true))
     = [CStr "WOS:2"]
  /\ (forall t,
        In t (submitted (example_run settings (rerun two_untitled (ReadUtf8 one_done))
                           true)) ->
        member (uid_of t) [CStr "WOS:1"] = false)
  /\ snd (load_resume_set (rerun two_untitled ReadFailed) true) = []
  /\ In UnknownReadError
        (queue (final (example_run settings (rerun two_untitled ReadFailed) true)))
  /\ map uid_of (submitted (example_run settings (rerun two_untitled ReadFailed) true))
     = [CStr "WOS:1"; CStr "WOS:2"].
Proof.
  pose proof (resume_set_never_resubmitted settings no_repr format_plain no_message
                (rerun two_untitled (ReadUtf8 one_done)) example_client 0
                example_template true) as H.
  cbv zeta in H. destruct H as [_ [H _]].
  specialize (H (isin_by_value_finds_equal (rerun two_untitled (ReadUtf8 one_done))
                   eq_refl)).
  pose proof (resume_set_never_resubmitted settings no_repr format_plain no_message
                (rerun two_untitled ReadFailed) example_client 0 example_template true)
    as H'.
  cbv zeta in H'. destruct H' as [_ [_ [_ H']]].
  destruct (H' eq_refl eq_refl eq_refl) as [Hempty [_ [Hqueue [_ Hall]]]].
  destruct (Hall (isin_by_value_empty (rerun two_untitled ReadFailed) eq_refl)
              two_untitled eq_refl eq_refl)
    as [Hrecords Hsubmitted].
  destruct (Hsubmitted eq_refl) as [Hsub _].
  split; [reflexivity|split; [reflexivity|split; [exact H|split; [exact Hempty|split]]]].
  - apply (Hqueue two_untitled eq_refl eq_refl). now left.
  - unfold example_run. rewrite Hsub, Hrecords. reflexivity.
Defined.

(** A sink whose identifiers are text, one of its rows lacking the UID. *)
Definition sink_with_gap : DataFrame :=
  {| columns := ["UID"; "error"];
     rows := [[("UID", CStr "WOS:1"); ("error", CStr "Missing Title")];
              [("UID", CNaN); ("error", CStr "Missing Title")]] |}.

(** An input and a sink whose identifiers are small integers, the sink
    with a row lacking the UID. *)
Definition counted_input : DataFrame :=
  {| columns := ["Article Title"; "Abstract"; "UID"];
     rows := [[("Article Title", CStr " "); ("Abstract", CStr "An abstract.");
               ("UID", CInt 1)];
              [("Article Title", CStr " "); ("Abstract", CStr "An abstract.");
               ("UID", CInt 2)]] |}.

Definition counted_sink : DataFrame :=
  {| columns := ["UID"; "error"];
     rows := [[("UID", CInt 1); ("error", CStr "Missing Title")];
              [("UID", CNaN); ("error", CStr "Missing Title")]] |}.

Lemma missing_uid_witness :
  example_run settings
    (rerun two_untitled (ReadUtf8 (drop_missing_uid sink_with_gap))) true
  = example_run settings (rerun two_untitled (ReadUtf8 sink_with_gap)) true
  /\ snd (load_resume_set (rerun two_untitled (ReadUtf8 sink_with_gap)) true)
     = [CStr "WOS:1"]
  /\ example_run settings
       (rerun counted_input (ReadUtf8 (drop_missing_uid counted_sink))) true
     = example_run settings (rerun counted_input (ReadUtf8 counted_sink)) true
  /\ snd (load_resume_set (rerun counted_input (ReadUtf8 counted_sink)) true)
     = [CFloat (FFinite false 1 0)]
  /\ map uid_of (df_to_process
                   (example_run settings
                      (rerun counted_input (ReadUtf8 counted_sink)) true))
     = [CInt 2]
  /\ snd (load_resume_set
            (rerun two_untitled
               (ReadUtf8 {| columns := ["Article Title"];
                            rows := [[("Article Title", CStr "x")]] |}))
            true) = [].
Proof.
  pose proof (resume_set_skips_missing_uids settings no_repr format_plain no_message
                (rerun two_untitled (ReadUtf8 sink_with_gap))
                example_client 0 example_template true) as H.
  destruct H as [_ [_ [H _]]].
  pose proof (resume_set_skips_missing_uids settings no_repr format_plain no_message
                (rerun counted_input (ReadUtf8 counted_sink))
                example_client 0 example_template true) as Hc.
  destruct Hc as [_ [_ [_ [Hc _]]]].
  pose proof (resume_set_skips_missing_uids settings no_repr format_plain no_message
                (rerun two_untitled
                   (ReadUtf8 {| columns := ["Article Title"];
                                rows := [[("Article Title", CStr "x")]] |}))
                example_client 0 example_template true) as H'.
  destruct H' as [_ [_ [_ [_ H']]]].
  split; [|split; [reflexivity|split; [|split; [reflexivity|split;
    [reflexivity|exact (H' _ eq_refl eq_refl)]]]]].
  - apply H. intros table Ht. inversion Ht. reflexivity.
  - apply Hc.
    + exact (isin_by_value_takes_small_integers
               (rerun counted_input (ReadUtf8 counted_sink)) eq_refl).
    + intros table Ht. inversion Ht. reflexivity.
Defined.

(** An input and a sink whose identifiers are integers beyond 2^53. *)
Definition numbered_input : DataFrame :=
  {| columns := ["Article Title"; "Abstract"; "UID"];
     rows := [[("Article Title", CStr " "); ("Abstract", CStr "An abstract.");
               ("UID", CInt 9007199254740992)];
              [("Article Title", CStr " "); ("Abstract", CStr "An abstract.");
               ("UID", CInt 5)]] |}.

Definition numbered_sink : DataFrame :=
  {| columns := ["UID"; "error"];
     rows := [[("UID", CInt 9007199254740993); ("error", CStr "Missing Title")];
              [("UID", CNaN); ("error", CStr "Missing Title")]] |}.

(** C10 as stated fails for integer identifiers: the sink holds the UID
    9007199254740993 and a row without UID.  The missing cell makes the
    column [float64], the UID is read as 9007199254740992.0, and the
    record 9007199254740992 of the input is skipped; with the row without
    UID removed from the file, the column is [int64] and the record is
    processed. *)
Lemma row_without_uid_suppresses_a_record :
  snd (load_resume_set (rerun numbered_input (ReadUtf8 numbered_sink)) true)
  = [CFloat (FFinite false 4503599627370496 1)]
  /\ map uid_of (df_to_process
                   (example_run settings (rerun numbered_input (ReadUtf8 numbered_sink))
                      true))
     = [CInt 5]
  /\ snd (load_resume_set
            (rerun numbered_input (ReadUtf8 (drop_missing_uid numbered_sink))) true)
     = [CInt 9007199254740993]
  /\ map uid_of (df_to_process
                   (example_run settings
                      (rerun numbered_input (ReadUtf8 (drop_missing_uid numbered_sink)))
                      true))
     = [CInt 9007199254740992; CInt 5].
Proof. repeat split; vm_compute; reflexivity. Qed.

(** C4 as stated fails on a stopped run: with SAVE_INTERVAL = 1 and two
    records to process, a stop request arriving once both are submitted
    leaves the output file without a single append. *)
Lemma stopped_run_has_no_checkpoint :
  SAVE_INTERVAL (save_every 1) = 1
  /\ length (df_to_process (example_run (save_every 1) (fresh_run two_untitled (Some 2)) false)) = 2
  /\ length (submitted (example_run (save_every 1) (fresh_run two_untitled (Some 2)) false)) = 2
  /\ flushes (final (example_run (save_every 1) (fresh_run two_untitled (Some 2)) false)) = [].
Proof. repeat split. Qed.

Lemma checkpoints_witness :
  1 <= SAVE_INTERVAL (save_every 2)
  /\ exists intermediate last,
       flushes (final (example_run (save_every 2) (fresh_run three_untitled None) false))
       = (intermediate ++ last)%list
       /\ length intermediate = 3 / 2
       /\ Forall (fun f => length (batch f) = 2) intermediate
       /\ length last <= 1
       /\ length (flat_map batch last) = 3 mod 2.
Proof.
  assert (HK : 1 <= SAVE_INTERVAL (save_every 2)) by (simpl; lia).
  split; [exact HK|].
  pose proof (checkpoints_and_header (save_every 2) no_repr format_plain no_message
                (fresh_run three_untitled None) example_client 0 example_template false)
    as H.
  cbv zeta in H. destruct H as [_ [_ [_ H]]].
  apply (H HK).
  - intros k _. reflexivity.
  - intros l. apply Permutation_refl.
Defined.

(** C5 as stated fails: the only record is submitted, its task completes
    (it returns the missing-title mapping without any call) and
    [as_completed] hands its future over; the stop request arrives before
    that moment, so the loop drops the future and the output receives no
    row for it. *)
Lemma completed_result_dropped_on_stop :
  submitted (example_run settings (fresh_run one_untitled (Some 1)) false)
  = [{| index := 0; record := untitled "WOS:1" (CStr " ") |}]
  /\ collected (example_run settings (fresh_run one_untitled (Some 1)) false)
     = [{| index := 0; record := untitled "WOS:1" (CStr " ") |}]
  /\ future_result settings no_repr format_plain example_client example_template
       {| index := 0; record := untitled "WOS:1" (CStr " ") |}
     = Ret missing_title
  /\ merged_futures (example_run settings (fresh_run one_untitled (Some 1)) false) = []
  /\ flushes (final (example_run settings (fresh_run one_untitled (Some 1)) false)) = []
  /\ rows_written
       (flushes (final (example_run settings (fresh_run one_untitled (Some 1)) false)))
     = [].
Proof. repeat split. Qed.

Lemma stop_flag_witness :
  stop_after (fresh_run two_untitled (Some 3)) = Some 3
  /\ submitted (example_run settings (fresh_run two_untitled (Some 3)) false)
     = firstn 3 (df_to_process (example_run settings (fresh_run two_untitled (Some 3)) false))
  /\ merged_futures (example_run settings (fresh_run two_untitled (Some 3)) false)
     = [{| index := 0; record := untitled "WOS:1" (CStr " ") |}]
  /\ exists q,
       queue (final (example_run settings (fresh_run two_untitled (Some 3)) false))
       = (q ++ [AbortedLine])%list.
Proof.
  pose proof (stop_flag_behaviour settings no_repr format_plain no_message
                (fresh_run two_untitled (Some 3)) example_client 0 example_template
                false 3 eq_refl (fun l => Permutation_refl l)) as H.
  cbv zeta in H. destruct H as [Hsub [Hmerged [_ [_ Hlast]]]].
  split; [reflexivity|split; [exact Hsub|split]].
  - unfold example_run. rewrite Hmerged. reflexivity.
  - apply Hlast. vm_compute. lia.
Defined.

End RunFacts.

(* ================================================================== *)
(** * More of the code: clients, flattener, orchestrator, settings, prompts *)
(* ================================================================== *)

Module ClientFacts.
Import Py Json PyOps Queue Config ApiClients JsonFacts ApiClientsFacts Factory.

Definition logged (tr : list event) : list log_line :=
  flat_map (fun ev => match ev with Log l => [l] | _ => [] end) tr.

Lemma posts_app (a b : list event) : posts (a ++ b) = (posts a ++ posts b)%list.
Proof. unfold posts. apply flat_map_app. Qed.

Lemma sleeps_app (a b : list event) : sleeps (a ++ b) = (sleeps a ++ sleeps b)%list.
Proof. unfold sleeps. apply flat_map_app. Qed.

Lemma logged_app (a b : list event) : logged (a ++ b) = (logged a ++ logged b)%list.
Proof. unfold logged. apply flat_map_app. Qed.

Lemma trace_bind {A B : Type} (m : M A) (k : A -> M B) :
  trace (bind m k)
  = match outcome m with
    | Ret a => (trace m ++ trace (k a))%list
    | Raise _ => trace m
    end.
Proof.
  destruct m as [tr [a|e]]; unfold trace, outcome; simpl; [|reflexivity].
  now destruct (k a).
Qed.

Lemma outcome_bind {A B : Type} (m : M A) (k : A -> M B) :
  outcome (bind m k)
  = match outcome m with
    | Ret a => outcome (k a)
    | Raise e => Raise e
    end.
Proof.
  destruct m as [tr [a|e]]; unfold outcome; simpl; [|reflexivity].
  now destruct (k a).
Qed.

Section Retry.
Variable cfg : config.
Variable self : client_fields.
Variable req : request.

Lemma backoff_before_last (attempt : nat) :
  attempt < MAX_RETRIES cfg - 1 ->
  backoff cfg attempt
  = ([Log (RetryInLine (2 ^ (attempt + 1))); Sleep (2 ^ (attempt + 1))], Ret tt).
Proof.
  intros H. unfold backoff.
  assert (E : (attempt <? MAX_RETRIES cfg - 1)%nat = true) by now apply Nat.ltb_lt.
  rewrite E. reflexivity.
Qed.

(** The loop from attempt [k] on, when the next [j] attempts fail and the
    one after them is answered. *)
Lemma attempts_loop_answered (j : nat) :
  forall (k n : nat) (body : pyval),
    (forall i, k <= i < k + j -> is_failure (requests_post self req i) = true) ->
    requests_post self req (k + j) = PostJson body ->
    k + j < MAX_RETRIES cfg -> j < n ->
    exists tr,
      attempts_loop cfg self req (seq k n) = (tr, Ret body)
      /\ posts tr = seq k (S j)
      /\ sleeps tr = map pow2 (seq (k + 1) j)
      /\ length (logged tr) = 2 * j
      /\ ~ In (RequestGaveUpLine (MAX_RETRIES cfg)) (logged tr).
Proof.
  induction j as [|j IH]; intros k n body Hfail Hok Hlt Hn.
  - destruct n as [|n]; [lia|]. replace (k + 0) with k in Hok by lia.
    simpl seq. cbn [attempts_loop]. rewrite Hok.
    eexists. split; [reflexivity|]. simpl. repeat split; auto.
  - destruct n as [|n]; [lia|].
    simpl seq. cbn [attempts_loop].
    assert (Hk : is_failure (requests_post self req k) = true) by (apply Hfail; lia).
    destruct (IH (S k) n body) as [tr [Hloop [Hposts [Hsleeps [Hlog Hgave]]]]].
    { intros i Hi. apply Hfail. lia. }
    { replace (S k + j) with (k + S j) by lia. exact Hok. }
    { lia. }
    { lia. }
    assert (Hback := backoff_before_last k ltac:(lia)).
    destruct (requests_post self req k) as [b|status text| |e]; try discriminate;
      rewrite Hback, Hloop; cbn [bind put emit ret app];
      (eexists; split; [reflexivity|]);
      cbn [posts sleeps logged flat_map app];
      fold (posts tr); fold (sleeps tr); fold (logged tr);
      rewrite Hposts, Hsleeps;
      replace (S k + 1) with (S (k + 1)) by lia;
      (repeat split;
       [ simpl; lia
       | intros [H|[H|H]]; [discriminate|discriminate|now apply Hgave] ]).
Qed.

End Retry.

(** X1. If the first k posts of a request fail (HTTP error or transport
    failure) and post number k, with k < MAX_RETRIES, is answered,
    [_make_request_with_retries] returns that answer: it has made exactly
    the attempts 0 .. k, slept 2^1, ..., 2^k seconds between them, logged
    two lines for each failed attempt and never the line that reports
    giving up. *)
Theorem retry_loop_returns_first_answer (cfg : config) (self : client_fields)
  (hdrs : list (string * string)) (data : pyval) (k : nat) (body : pyval) :
  let req := {| url := endpoint self; headers := hdrs; payload := data |} in
  k < MAX_RETRIES cfg ->
  (forall i, i < k -> is_failure (requests_post self req i) = true) ->
  requests_post self req k = PostJson body ->
  let call := _make_request_with_retries cfg self hdrs data in
  outcome call = Ret body
  /\ posts (trace call) = seq 0 (S k)
  /\ sleeps (trace call) = map pow2 (seq 1 k)
  /\ length (logged (trace call)) = 2 * k
  /\ ~ In (RequestGaveUpLine (MAX_RETRIES cfg)) (logged (trace call)).
Proof.
  intros req Hk Hfail Hok call. subst call. unfold _make_request_with_retries.
  fold req.
  destruct (attempts_loop_answered cfg self req k 0 (MAX_RETRIES cfg) body)
    as [tr [Hloop Hrest]]; try assumption.
  - intros i Hi. apply Hfail. lia.
  - rewrite Hloop. split; [reflexivity|exact Hrest].
Qed.

(** A client whose first post is refused and whose second one is answered. *)
Definition second_try_client : client_fields :=
  {| api_key := "key"; model := "model"; endpoint := "https://example.invalid";
     requests_post := fun _ attempt =>
                        match attempt with
                        | 0 => PostHTTPError 503 "busy"
                        | _ => PostJson (PDict [])
                        end;
     interp := cpython |}.

Lemma retry_loop_answer_witness :
  outcome (_make_request_with_retries settings second_try_client [] PNone)
  = Ret (PDict [])
  /\ posts (trace (_make_request_with_retries settings second_try_client [] PNone))
     = [0; 1]
  /\ sleeps (trace (_make_request_with_retries settings second_try_client [] PNone))
     = [2].
Proof.
  pose proof (retry_loop_returns_first_answer settings second_try_client [] PNone 1
                (PDict [])) as H.
  cbv zeta in H.
  destruct H as [Ho [Hp [Hs _]]].
  - unfold settings; simpl; lia.
  - intros i Hi. destruct i; [reflexivity|lia].
  - reflexivity.
  - split; [exact Ho|split; [exact Hp|exact Hs]].
Defined.

(** *** What [analyze_text] returns *)

Lemma clean_json_response_is_dict (self : client_fields) (text : string) (v : pyval) :
  outcome (_clean_json_response self text) = Ret v -> exists d, v = PDict d.
Proof.
  unfold _clean_json_response.
  destruct (re_search_braces text) as [span|] eqn:E.
  - apply re_search_braces_some in E as [pre [mid [post [_ [_ [_ Hspan]]]]]].
    destruct (loads (interp self) span) as [w| |e|] eqn:El.
    + subst span. apply loads_brace_is_dict in El as [d Hd].
      intros H. inversion H. subst. now exists d.
    + intros H. inversion H. eexists. reflexivity.
    + discriminate.
    + discriminate.
  - intros H. inversion H. eexists. reflexivity.
Qed.

Lemma clean_json_response_no_post (self : client_fields) (text : string) :
  posts (trace (_clean_json_response self text)) = [].
Proof.
  unfold _clean_json_response.
  destruct (re_search_braces text); [destruct (loads _ _)|]; reflexivity.
Qed.

Lemma read_answer_is_dict (self : client_fields) (provider : string)
  (content_of : pyval -> result pyval) (response_json v : pyval) :
  outcome (read_answer self provider content_of response_json) = Ret v ->
  exists d, v = PDict d.
Proof.
  unfold read_answer. destruct (py_truthy response_json).
  - destruct (content_of response_json) as [content|e].
    + destruct content as [| | | | |s| |]; try (cbn; intros H; discriminate H).
      cbn [lift bind clean_content app].
      destruct (_clean_json_response self s) as [tr [w|e]] eqn:Ec.
      * cbn. intros H. inversion H. subst.
        apply (clean_json_response_is_dict self s). now rewrite Ec.
      * cbn. destruct (key_or_index_error e); cbn; intros H; inversion H.
        eexists. reflexivity.
    + cbn. destruct (key_or_index_error e); cbn; intros H; inversion H.
      eexists. reflexivity.
  - intros H. inversion H. eexists. reflexivity.
Qed.

Lemma backoff_no_post (cfg : config) (attempt : nat) :
  posts (trace (backoff cfg attempt)) = [] /\ outcome (backoff cfg attempt) = Ret tt.
Proof. unfold backoff. destruct (attempt <? MAX_RETRIES cfg - 1)%nat; now split. Qed.

Lemma attempts_loop_posts_le (cfg : config) (self : client_fields) (req : request)
  (attempts : list nat) :
  length (posts (trace (attempts_loop cfg self req attempts))) <= length attempts.
Proof.
  induction attempts as [|a l IH]; [simpl; lia|].
  cbn [attempts_loop]. rewrite trace_bind. cbn [emit outcome trace fst snd].
  rewrite posts_app. cbn [posts flat_map app length].
  destruct (backoff_no_post cfg a) as [Hb Ho].
  destruct (requests_post self req a) as [body|status text| |e].
  - simpl. lia.
  - rewrite trace_bind. cbn [put emit outcome trace fst snd].
    rewrite posts_app, trace_bind, Ho, posts_app, Hb. simpl. simpl in IH. lia.
  - rewrite trace_bind. cbn [put emit outcome trace fst snd].
    rewrite posts_app, trace_bind, Ho, posts_app, Hb. simpl. simpl in IH. lia.
  - simpl. lia.
Qed.

Lemma trace_try_except {A : Type} (body : M A) (caught : exn -> bool)
  (handler : exn -> M A) :
  trace (try_except body caught handler)
  = match outcome body with
    | Ret _ => trace body
    | Raise e => if caught e then (trace body ++ trace (handler e))%list else trace body
    end.
Proof.
  destruct body as [tr [a|e]]; unfold trace, outcome; simpl; [reflexivity|].
  destruct (caught e); [|reflexivity]. now destruct (handler e).
Qed.

Lemma clean_content_no_post (self : client_fields) (content : pyval) :
  posts (trace (clean_content self content)) = [].
Proof. destruct content; try reflexivity. apply clean_json_response_no_post. Qed.

Lemma read_answer_no_post (self : client_fields) (provider : string)
  (content_of : pyval -> result pyval) (response_json : pyval) :
  posts (trace (read_answer self provider content_of response_json)) = [].
Proof.
  unfold read_answer. destruct (py_truthy response_json); [|reflexivity].
  rewrite trace_try_except, outcome_bind, trace_bind.
  destruct (content_of response_json) as [content|e]; cbn [lift outcome trace fst snd].
  - rewrite app_nil_l.
    pose proof (clean_content_no_post self content) as H.
    destruct (outcome (clean_content self content)) as [w|e]; [exact H|].
    destruct (key_or_index_error e); [|exact H].
    rewrite posts_app, H. reflexivity.
  - destruct (key_or_index_error e); reflexivity.
Qed.

(** What the five classes share: the retry loop, then [read_answer]. *)
Lemma request_then_read (cfg : config) (self : client_fields)
  (hdrs : list (string * string)) (data : pyval) (provider : string)
  (content_of : pyval -> result pyval) :
  let call := bind (_make_request_with_retries cfg self hdrs data)
                (fun response_json => read_answer self provider content_of response_json) in
  (forall v, outcome call = Ret v -> exists d, v = PDict d)
  /\ length (posts (trace call)) <= MAX_RETRIES cfg.
Proof.
  cbv zeta. split.
  - intros v. rewrite outcome_bind.
    destruct (outcome (_make_request_with_retries cfg self hdrs data)); [|discriminate].
    apply read_answer_is_dict.
  - rewrite trace_bind.
    pose proof (attempts_loop_posts_le cfg self
                  {| url := endpoint self; headers := hdrs; payload := data |}
                  (seq 0 (MAX_RETRIES cfg))) as Hle.
    rewrite length_seq in Hle. fold (_make_request_with_retries cfg self hdrs data) in Hle.
    destruct (outcome (_make_request_with_retries cfg self hdrs data)); [|exact Hle].
    rewrite posts_app, read_answer_no_post, app_nil_r. exact Hle.
Qed.

(** A client object made by one of the classes of [client_map]. *)
Definition built_by (cfg : config) (self : client_fields) (c : BaseAPIClient) : Prop :=
  exists name class, In (name, class) client_map /\ c = class cfg self.

Lemma client_contract (cfg : config) (self : client_fields) (c : BaseAPIClient)
  (prompt : string) :
  built_by cfg self c ->
  (forall v, outcome (analyze_text c prompt) = Ret v -> exists d, v = PDict d)
  /\ length (posts (trace (analyze_text c prompt))) <= MAX_RETRIES cfg.
Proof.
  intros [name [class [Hin Hc]]]. subst c.
  simpl in Hin.
  destruct Hin as [H|[H|[H|[H|[H|[]]]]]]; inversion H; subst; clear H;
    cbn [analyze_text OpenAIClient AnthropicClient DeepSeekClient MoonshotClient
         InternAIClient];
    try apply request_then_read.
  unfold AnthropicClient_analyze_text.
  destruct (split_once text_marker prompt) as [[system_prompt user_prompt]|].
  - apply request_then_read.
  - split; [discriminate|simpl; lia].
Qed.

(** X2. Whatever the network answers, every value that [analyze_text] of
    a class of [client_map] returns is a mapping: never [None], a list or a
    scalar. *)
Theorem analyze_text_returns_a_mapping (cfg : config) (self : client_fields) :
  Forall (fun class : string * (config -> client_fields -> BaseAPIClient) =>
            forall prompt v,
              outcome (analyze_text (snd class cfg self) prompt) = Ret v ->
              exists d, v = PDict d)
    client_map.
Proof.
  apply Forall_forall. intros [name class] Hin prompt v.
  apply (client_contract cfg self (class cfg self) prompt).
  exists name, class. now split.
Qed.

Import DataProcessor.

(** X3. Whatever the network answers, the analysis of one document makes
    at most MAX_RETRIES posts, for every class of [client_map], every
    title, abstract and prompt template. *)
Theorem document_costs_at_most_max_retries_posts (cfg : config)
  (py_repr : pyval -> string)
  (str_format : string -> string -> result string) (self : client_fields)
  (title abstract : cell) (prompt_template : string) (uid : cell) :
  Forall (fun class : string * (config -> client_fields -> BaseAPIClient) =>
            length (posts (trace (_analyze_single_document py_repr str_format
                                    (snd class cfg self) title abstract
                                    prompt_template uid)))
            <= MAX_RETRIES cfg)
    client_map.
Proof.
  apply Forall_forall. intros [name class] Hin. cbn [snd].
  unfold _analyze_single_document.
  destruct title as [|z|f|b|text]; try (simpl; lia).
  destruct (String.eqb (strip text) ""); [simpl; lia|].
  destruct (str_format prompt_template (content_of py_repr text abstract)) as [prompt|e].
  - rewrite trace_bind. cbn [put emit outcome trace fst snd].
    rewrite posts_app. cbn [posts flat_map app].
    apply (client_contract cfg self (class cfg self) prompt).
    exists name, class. now split.
  - destruct e; simpl; lia.
Qed.

(** *** When every post fails *)

Lemma attempts_loop_gives_up (cfg : config) (self : client_fields) (req : request)
  (attempts : list nat) :
  (forall a, is_failure (requests_post self req a) = true) ->
  outcome (attempts_loop cfg self req attempts) = Ret PNone
  /\ In (RequestGaveUpLine (MAX_RETRIES cfg))
        (logged (trace (attempts_loop cfg self req attempts))).
Proof.
  intros Hfail. induction attempts as [|a l [IHo IHl]]; [split; [reflexivity|now left]|].
  cbn [attempts_loop].
  assert (Hb : exists trb, backoff cfg a = (trb, Ret tt)).
  { unfold backoff. destruct (a <? MAX_RETRIES cfg - 1)%nat; eexists; reflexivity. }
  destruct Hb as [trb Hb].
  destruct (attempts_loop cfg self req l) as [trl ol] eqn:El.
  unfold outcome, trace in IHo, IHl. cbn [fst snd] in IHo, IHl. subst ol.
  specialize (Hfail a).
  destruct (requests_post self req a) as [body|status text| |e]; try discriminate;
    rewrite Hb; cbn [bind put emit ret app outcome trace fst snd];
    (split; [reflexivity|]);
    cbn [logged flat_map app]; fold (logged (trb ++ trl));
    right; rewrite logged_app, in_app_iff; now right.
Qed.

Definition api_failure : pyval := PDict [("error", PStr "API Failure")].

Lemma no_answer_is_api_failure (cfg : config) (self : client_fields)
  (hdrs : list (string * string)) (data : pyval) (provider : string)
  (content_of : pyval -> result pyval) :
  (forall req a, is_failure (requests_post self req a) = true) ->
  let call := bind (_make_request_with_retries cfg self hdrs data)
                (fun response_json => read_answer self provider content_of response_json) in
  outcome call = Ret api_failure
  /\ In (RequestGaveUpLine (MAX_RETRIES cfg)) (logged (trace call)).
Proof.
  intros Hfail. cbv zeta.
  destruct (attempts_loop_gives_up cfg self
              {| url := endpoint self; headers := hdrs; payload := data |}
              (seq 0 (MAX_RETRIES cfg)) (Hfail _)) as [Ho Hl].
  fold (_make_request_with_retries cfg self hdrs data) in Ho, Hl.
  rewrite outcome_bind, trace_bind, Ho. split; [reflexivity|].
  rewrite logged_app, in_app_iff. now left.
Qed.

(** X4. When every post fails, [analyze_text] of each class returns the
    mapping with error = 'API Failure' after the line that reports giving
    up (the Anthropic class raises ValueError at once, instead, when the
    prompt lacks the marker); the orchestrator makes of that answer the
    record's row with error = 'API Failure', whereas 'API Failure after
    retries' is what it writes for an answer that is [None]. *)
Theorem exhausted_retries_are_recorded_as_api_failure (cfg : config)
  (py_repr : pyval -> string) (exn_str : exn -> string) (self : client_fields)
  (prompt : string) (df : DataFrame) (t : task) :
  (forall req a, is_failure (requests_post self req a) = true) ->
  Forall (fun class : string * (config -> client_fields -> BaseAPIClient) =>
            let call := analyze_text (snd class cfg self) prompt in
            (outcome call = Ret api_failure
             /\ In (RequestGaveUpLine (MAX_RETRIES cfg)) (logged (trace call)))
            \/ (fst class = "Anthropic" /\ split_once text_marker prompt = None
                /\ call = ([], Raise ValueError)))
    client_map
  /\ merge_result py_repr exn_str df t (Ret api_failure)
     = ([], dict_set (to_dict df (index t)) "error" (PStr "API Failure"))
  /\ merge_result py_repr exn_str df t (Ret PNone)
     = ([], dict_set (to_dict df (index t)) "error" (PStr "API Failure after retries")).
Proof.
  intros Hfail. split; [|split; reflexivity].
  apply Forall_forall. intros [name class] Hin. cbv zeta. cbn [fst snd].
  simpl in Hin.
  destruct Hin as [H|[H|[H|[H|[H|[]]]]]]; inversion H; subst; clear H;
    cbn [analyze_text OpenAIClient AnthropicClient DeepSeekClient MoonshotClient
         InternAIClient];
    try (left; now apply no_answer_is_api_failure).
  unfold AnthropicClient_analyze_text.
  destruct (split_once text_marker prompt) as [[system_prompt user_prompt]|].
  - left. now apply no_answer_is_api_failure.
  - right. now repeat split.
Qed.

Lemma exhausted_retries_witness :
  outcome (analyze_text (OpenAIClient settings unreachable_client) "Summarise.")
  = Ret api_failure.
Proof.
  pose proof (exhausted_retries_are_recorded_as_api_failure settings
                PlainFormat.no_repr PlainFormat.no_message unreachable_client
                "Summarise." {| columns := []; rows := [] |}
                {| index := 0; record := [] |} (fun _ _ => eq_refl)) as [H _].
  apply Forall_inv in H. cbv zeta in H. cbn [fst snd] in H.
  destruct H as [[H _]|[H _]]; [exact H|discriminate H].
Defined.

(** *** The factory *)

(** X5. [get_api_client] knows exactly the providers of
    SUPPORTED_API_PROVIDERS, which are the keys of API_CONFIGS.  For one of
    them and a key that is not empty it returns the object of that
    provider's class, holding the key, model and endpoint given; for an
    unknown provider or an empty key it raises ValueError; it raises
    nothing else. *)
Theorem get_api_client_contract (cfg : config) (provider_name key mdl url : string)
  (net : request -> nat -> post_outcome) (py : interpreter) :
  let made := get_api_client cfg provider_name key mdl url net py in
  let self := {| api_key := key; model := mdl; endpoint := url; requests_post := net;
                 interp := py |} in
  dict_keys client_map = Providers.SUPPORTED_API_PROVIDERS
  /\ dict_keys client_map = dict_keys Providers.API_CONFIGS
  /\ (In provider_name Providers.SUPPORTED_API_PROVIDERS -> key <> "" ->
      exists class, In (provider_name, class) client_map /\ made = Ret (class cfg self))
  /\ (~ In provider_name Providers.SUPPORTED_API_PROVIDERS -> made = Raise ValueError)
  /\ (key = "" -> made = Raise ValueError)
  /\ (forall e, made = Raise e ->
        e = ValueError
        /\ (key = "" \/ ~ In provider_name Providers.SUPPORTED_API_PROVIDERS)).
Proof.
  cbv zeta. unfold get_api_client, init.
  split; [reflexivity|split; [reflexivity|]].
  assert (Hkey : key <> "" -> String.eqb key "" = false)
    by (intros H; now apply String.eqb_neq).
  assert (Hget : forall class, dict_get client_map provider_name = Some class ->
                               In (provider_name, class) client_map).
  { unfold client_map. cbn [dict_get]. intros class.
    repeat match goal with
           | |- context [String.eqb ?a provider_name] =>
               destruct (String.eqb a provider_name) eqn:?E
           end;
      try discriminate;
      intros H; inversion H; subst;
      match goal with
      | E : String.eqb _ provider_name = true |- _ => apply String.eqb_eq in E; subst
      end; simpl; tauto. }
  assert (Hnone : dict_get client_map provider_name = None ->
                  ~ In provider_name Providers.SUPPORTED_API_PROVIDERS).
  { unfold client_map. cbn [dict_get]. intros H Hin. simpl in Hin.
    destruct Hin as [Hp|[Hp|[Hp|[Hp|[Hp|[]]]]]]; subst provider_name;
      simpl in H; discriminate. }
  assert (Hsome : In provider_name Providers.SUPPORTED_API_PROVIDERS ->
                  exists class, dict_get client_map provider_name = Some class).
  { intros Hin. simpl in Hin.
    destruct Hin as [Hp|[Hp|[Hp|[Hp|[Hp|[]]]]]]; subst provider_name;
      eexists; reflexivity. }
  split; [|split; [|split]].
  - intros Hin Hk. destruct (Hsome Hin) as [class Hc]. rewrite Hc, (Hkey Hk).
    exists class. split; [now apply Hget|reflexivity].
  - intros Hout. destruct (dict_get client_map provider_name) as [class|] eqn:Hc in |- *;
      [|reflexivity].
    exfalso. apply Hout. apply Hget in Hc.
    change Providers.SUPPORTED_API_PROVIDERS with (dict_keys client_map).
    unfold dict_keys. now apply (in_map fst) in Hc.
  - intros Hk. subst key. now destruct (dict_get client_map provider_name).
  - intros e. destruct (dict_get client_map provider_name) as [class|] eqn:Hc in |- *.
    + destruct (String.eqb key "") eqn:Ek; [|discriminate].
      apply String.eqb_eq in Ek. intros H; inversion H. split; [reflexivity|now left].
    + intros H; inversion H. split; [reflexivity|right; now apply Hnone].
Qed.

(** *** The Anthropic request *)

Import PyContainers.

(** The requests a trace posts, in order. *)
Definition requests_of (tr : list event) : list request :=
  flat_map (fun ev => match ev with Post req _ => [req] | _ => [] end) tr.

Lemma requests_of_app (a b : list event) :
  requests_of (a ++ b) = (requests_of a ++ requests_of b)%list.
Proof. unfold requests_of. apply flat_map_app. Qed.

Lemma strip_prefix_spec (p s r : string) :
  strip_prefix p s = Some r <-> s = p ++ r.
Proof.
  revert s. induction p as [|a p IH]; intros s; simpl.
  - split; intros H; [now inversion H|now subst].
  - destruct s as [|b s]; [split; discriminate|].
    destruct (Ascii.eqb a b) eqn:E.
    + apply Ascii.eqb_eq in E. subst b. rewrite IH.
      split; intros H; [now subst|now inversion H].
    + split; [discriminate|]. intros H. inversion H. subst.
      now rewrite Ascii.eqb_refl in E.
Qed.

(** [s.split(sep, 1)] cuts at the first occurrence of [sep]. *)
Lemma split_once_spec (sep s a b : string) :
  split_once sep s = Some (a, b) ->
  s = a ++ sep ++ b
  /\ (forall before after,
        a = before ++ after -> after <> "" ->
        strip_prefix sep (after ++ sep ++ b) = None).
Proof.
  revert a. induction s as [|c s IH]; intros a H.
  - cbn [split_once] in H.
    destruct (strip_prefix sep "") as [r|] eqn:E; [|discriminate].
    inversion H; subst. apply strip_prefix_spec in E.
    split; [exact E|]. intros before after Ha Hne.
    destruct before; [simpl in Ha; now subst after|discriminate].
  - cbn [split_once] in H.
    destruct (strip_prefix sep (String c s)) as [r|] eqn:E.
    + inversion H; subst. apply strip_prefix_spec in E.
      split; [exact E|]. intros before after Ha Hne.
      destruct before; [simpl in Ha; now subst after|discriminate].
    + destruct (split_once sep s) as [[a' b']|] eqn:Es; [|discriminate].
      inversion H; subst. destruct (IH a' eq_refl) as [Hs Hfirst].
      split; [simpl; now rewrite Hs|].
      intros before after Ha Hne.
      destruct before as [|x before].
      * simpl in Ha. subst after. simpl. rewrite <- Hs. exact E.
      * simpl in Ha. inversion Ha; subst. now apply (Hfirst before after).
Qed.

Lemma split_once_none (sep s : string) :
  split_once sep s = None <-> contains sep s = false.
Proof.
  induction s as [|c s IH]; cbn [split_once contains].
  - destruct (strip_prefix sep ""); split; (discriminate || reflexivity).
  - destruct (strip_prefix sep (String c s)); [split; discriminate|].
    rewrite <- IH. destruct (split_once sep s) as [[a b]|]; split;
      (discriminate || reflexivity).
Qed.

Lemma attempts_loop_requests (cfg : config) (self : client_fields) (req : request)
  (attempts : list nat) :
  Forall (fun r => r = req) (requests_of (trace (attempts_loop cfg self req attempts))).
Proof.
  induction attempts as [|a l IH]; [constructor|].
  cbn [attempts_loop].
  assert (Hb : exists trb, backoff cfg a = (trb, Ret tt) /\ requests_of trb = []).
  { unfold backoff. destruct (a <? MAX_RETRIES cfg - 1)%nat; eexists; split; reflexivity. }
  destruct Hb as [trb [Hb Hbr]].
  destruct (attempts_loop cfg self req l) as [trl ol] eqn:El.
  unfold trace in IH. cbn [fst] in IH.
  destruct (requests_post self req a) as [body|status text| |e];
    try (cbn; now repeat constructor);
    rewrite Hb; cbn [bind put emit ret app outcome trace fst snd];
    cbn [requests_of flat_map app]; constructor; try reflexivity;
    fold (requests_of (trb ++ trl)); rewrite requests_of_app, Hbr; exact IH.
Qed.

Lemma read_answer_posts_nothing (self : client_fields) (provider : string)
  (content_of : pyval -> result pyval) (response_json : pyval) :
  requests_of (trace (read_answer self provider content_of response_json)) = [].
Proof.
  assert (Hsame : forall tr, posts tr = [] -> requests_of tr = []).
  { induction tr as [|ev tr IH]; [reflexivity|].
    destruct ev; simpl; try discriminate; exact IH. }
  apply Hsame. apply read_answer_no_post.
Qed.

(** X6. The Anthropic class raises ValueError, before any request, when
    the prompt does not contain the marker '--- TEXT TO ANALYZE ---'.  When
    it does, the prompt is cut at the first occurrence of the marker; every
    request posted goes to the client's endpoint with the x-api-key and
    anthropic-version headers, its system field is the text before the
    marker, stripped, and its only message is the marker followed by the
    rest of the prompt. *)
Theorem anthropic_request_carries_the_prompt (cfg : config) (self : client_fields)
  (prompt : string) :
  let call := analyze_text (AnthropicClient cfg self) prompt in
  (contains text_marker prompt = false -> call = ([], Raise ValueError))
  /\ (contains text_marker prompt = true ->
      exists system_prompt user_prompt,
        prompt = system_prompt ++ text_marker ++ user_prompt
        /\ (forall before after,
              system_prompt = before ++ after -> after <> "" ->
              strip_prefix text_marker (after ++ text_marker ++ user_prompt) = None)
        /\ Forall (fun req =>
                     url req = endpoint self
                     /\ headers req = [("x-api-key", api_key self);
                                       ("anthropic-version", "2023-06-01")]
                     /\ getitem_str (payload req) "system"
                        = Ret (PStr (strip system_prompt))
                     /\ getitem_str (payload req) "messages"
                        = Ret (user_message (text_marker ++ user_prompt)))
             (requests_of (trace call))).
Proof.
  cbv zeta. cbn [analyze_text AnthropicClient]. unfold AnthropicClient_analyze_text.
  split.
  - intros Hnone. apply split_once_none in Hnone. now rewrite Hnone.
  - intros Hsome.
    destruct (split_once text_marker prompt) as [[system_prompt user_prompt]|] eqn:Hsplit.
    2:{ apply split_once_none in Hsplit. congruence. }
    exists system_prompt, user_prompt.
    destruct (split_once_spec _ _ _ _ Hsplit) as [Hprompt Hfirst].
    split; [exact Hprompt|split; [exact Hfirst|]].
    rewrite trace_bind.
    set (hdrs := [("x-api-key", api_key self); ("anthropic-version", "2023-06-01")]).
    set (data := PDict [("model", PStr (model self));
                        ("max_tokens", PInt 4096);
                        ("temperature", PFloat "0.1");
                        ("top_p", PFloat "0.9");
                        ("system", PStr (strip system_prompt));
                        ("messages", user_message (text_marker ++ user_prompt))]).
    pose proof (attempts_loop_requests cfg self
                  {| url := endpoint self; headers := hdrs; payload := data |}
                  (seq 0 (MAX_RETRIES cfg))) as Hreq.
    fold (_make_request_with_retries cfg self hdrs data) in Hreq.
    assert (Hall : forall l,
              Forall (fun r => r = {| url := endpoint self; headers := hdrs;
                                      payload := data |}) l ->
              Forall (fun req =>
                        url req = endpoint self
                        /\ headers req = hdrs
                        /\ getitem_str (payload req) "system"
                           = Ret (PStr (strip system_prompt))
                        /\ getitem_str (payload req) "messages"
                           = Ret (user_message (text_marker ++ user_prompt))) l).
    { intros l Hl. eapply Forall_impl; [|exact Hl].
      intros r Hr. rewrite Hr. now repeat split. }
    destruct (outcome (_make_request_with_retries cfg self hdrs data)).
    + rewrite requests_of_app, read_answer_posts_nothing, app_nil_r. now apply Hall.
    + now apply Hall.
Qed.

(** *** The requests of the other classes *)

(** The classes that send the whole prompt as one user message. *)
Definition chat_classes : list (string * (config -> client_fields -> BaseAPIClient)) :=
  filter (fun class => negb (String.eqb (fst class) "Anthropic")) client_map.

Lemma request_then_read_requests (cfg : config) (self : client_fields)
  (hdrs : list (string * string)) (data : pyval) (provider : string)
  (content_of : pyval -> result pyval) :
  Forall (fun req => req = {| url := endpoint self; headers := hdrs; payload := data |})
    (requests_of
       (trace (bind (_make_request_with_retries cfg self hdrs data)
                 (fun response_json => read_answer self provider content_of response_json)))).
Proof.
  rewrite trace_bind.
  pose proof (attempts_loop_requests cfg self
                {| url := endpoint self; headers := hdrs; payload := data |}
                (seq 0 (MAX_RETRIES cfg))) as Hreq.
  fold (_make_request_with_retries cfg self hdrs data) in Hreq.
  destruct (outcome (_make_request_with_retries cfg self hdrs data)); [|exact Hreq].
  now rewrite requests_of_app, read_answer_posts_nothing, app_nil_r.
Qed.

(** X7. For a record whose title is text that is not blank, and a template
    that formats, every request that the OpenAI, DeepSeek, Moonshot and
    Intern-AI classes post goes to the client's endpoint with the header
    Authorization: Bearer <key>, names the client's model and carries one
    user message, whose content is the formatted prompt.  What is formatted
    into the template is 'Title: <title>', an empty line and 'Abstract:
    <abstract>': a missing abstract (NaN, which is truthy) appears as the
    text nan, an empty one as nothing. *)
Theorem chat_request_carries_the_document (cfg : config)
  (py_repr : pyval -> string)
  (str_format : string -> string -> result string) (self : client_fields)
  (text : string) (abstract : cell) (prompt_template : string) (uid : cell)
  (prompt : string) :
  String.eqb (strip text) "" = false ->
  str_format prompt_template (content_of py_repr text abstract) = Ret prompt ->
  Forall (fun class : string * (config -> client_fields -> BaseAPIClient) =>
            Forall (fun req =>
                      url req = endpoint self
                      /\ headers req = [("Authorization", "Bearer " ++ api_key self)]
                      /\ getitem_str (payload req) "model" = Ret (PStr (model self))
                      /\ getitem_str (payload req) "messages"
                         = Ret (PList [PDict [("role", PStr "user");
                                              ("content", PStr prompt)]]))
              (requests_of
                 (trace (_analyze_single_document py_repr str_format (snd class cfg self)
                           (CStr text) abstract prompt_template uid))))
    chat_classes
  /\ content_of py_repr text CNaN = "Title: " ++ text ++ nl ++ nl ++ "Abstract: nan"
  /\ content_of py_repr text (CStr "") = "Title: " ++ text ++ nl ++ nl ++ "Abstract: ".
Proof.
  intros Htitle Hformat. split; [|split; reflexivity].
  apply Forall_forall. intros [name class] Hin.
  unfold chat_classes in Hin. apply filter_In in Hin as [Hin Hchat].
  cbn [fst snd] in *.
  unfold _analyze_single_document. rewrite Htitle, Hformat.
  rewrite trace_bind. cbn [put emit outcome trace fst snd].
  rewrite requests_of_app. cbn [requests_of flat_map app].
  fold (requests_of (trace (analyze_text (class cfg self) prompt))).
  assert (Hall : forall data l,
            getitem_str data "model" = Ret (PStr (model self)) ->
            getitem_str data "messages" = Ret (user_message prompt) ->
            Forall (fun req => req = {| url := endpoint self; headers := bearer self;
                                        payload := data |}) l ->
            Forall (fun req =>
                      url req = endpoint self
                      /\ headers req = [("Authorization", "Bearer " ++ api_key self)]
                      /\ getitem_str (payload req) "model" = Ret (PStr (model self))
                      /\ getitem_str (payload req) "messages"
                         = Ret (PList [PDict [("role", PStr "user");
                                              ("content", PStr prompt)]])) l).
  { intros data l Hmodel Hmsg Hl. eapply Forall_impl; [|exact Hl].
    intros r Hr. rewrite Hr. now repeat split. }
  simpl in Hin.
  destruct Hin as [H|[H|[H|[H|[H|[]]]]]]; inversion H; subst; clear H;
    try discriminate Hchat;
    cbn [analyze_text OpenAIClient DeepSeekClient MoonshotClient InternAIClient];
    (eapply Hall; [| |apply request_then_read_requests]; reflexivity).
Qed.

(** The prompt made of [example_template] for a record without abstract. *)
Definition example_prompt : string :=
  Eval vm_compute in
    match PlainFormat.format_plain RunFacts.example_template
            (content_of PlainFormat.no_repr "Perovskite films" CNaN) with
    | Ret prompt => prompt
    | Raise _ => EmptyString
    end.

Lemma chat_request_witness :
  Forall (fun req =>
            getitem_str (payload req) "messages"
            = Ret (PList [PDict [("role", PStr "user");
                                 ("content", PStr example_prompt)]]))
    (requests_of
       (trace (_analyze_single_document PlainFormat.no_repr PlainFormat.format_plain
                 (OpenAIClient settings unreachable_client)
                 (CStr "Perovskite films") CNaN RunFacts.example_template
                 (CStr "WOS:1")))).
Proof.
  pose proof (chat_request_carries_the_document settings PlainFormat.no_repr
                PlainFormat.format_plain
                unreachable_client "Perovskite films" CNaN RunFacts.example_template
                (CStr "WOS:1") example_prompt eq_refl eq_refl) as [H _].
  apply Forall_inv in H. cbn [fst snd] in H.
  eapply Forall_impl; [|exact H]. intros req Hreq. apply Hreq.
Defined.

End ClientFacts.

Module FlattenerFacts.
Import Py Utils PyFacts UtilsFacts.

(** The size of a value, counting every node. *)
Fixpoint pyval_size (v : pyval) : nat :=
  match v with
  | PList l => S (list_sum (map pyval_size l))
  | PDict d => S (list_sum (map (fun kv : string * pyval => let (_, x) := kv in pyval_size x) d))
  | _ => 1
  end.

Definition scalar (v : pyval) : bool :=
  match v with
  | PDict _ | PList _ => false
  | _ => true
  end.

Lemma keys_of_dict_set {V : Type} (d : list (string * V)) (k : string) (v : V) (k0 : string) :
  In k0 (dict_keys (dict_set d k v)) <-> In k0 (dict_keys d) \/ k0 = k.
Proof.
  induction d as [|[k' v'] d IH]; simpl.
  - intuition congruence.
  - destruct (String.eqb k' k) eqn:E; simpl.
    + apply String.eqb_eq in E. subst k'. intuition congruence.
    + rewrite IH. tauto.
Qed.

Lemma nodup_dict_set {V : Type} (d : list (string * V)) (k : string) (v : V) :
  NoDup (dict_keys d) -> NoDup (dict_keys (dict_set d k v)).
Proof.
  induction d as [|[k' v'] d IH]; simpl; intros Hnd.
  - repeat constructor. intros [].
  - inversion Hnd as [|x l Hnotin Hrest]; subst.
    destruct (String.eqb k' k) eqn:E; simpl.
    + now constructor.
    + constructor; [|now apply IH].
      rewrite keys_of_dict_set. intros [H|H]; [contradiction|].
      apply String.eqb_neq in E. congruence.
Qed.

Lemma flat_dict_set (d : dict) (k : string) (v : pyval) :
  is_flat d = true -> scalar v = true -> is_flat (dict_set d k v) = true.
Proof.
  unfold is_flat. intros Hd Hv.
  induction d as [|[k' v'] d IH]; simpl.
  - destruct v; try discriminate; reflexivity.
  - simpl in Hd. apply andb_prop in Hd as [Hv' Hd].
    destruct (String.eqb k' k); simpl.
    + rewrite Hd, andb_true_r. destruct v; try discriminate; reflexivity.
    + rewrite Hv'. now apply IH.
Qed.

Lemma keys_of_dict_update {V : Type} (other d : list (string * V)) (k0 : string) :
  In k0 (dict_keys (dict_update d other)) <-> In k0 (dict_keys d) \/ In k0 (dict_keys other).
Proof.
  unfold dict_update. revert d.
  induction other as [|[k v] other IH]; intros d; simpl.
  - tauto.
  - rewrite IH, keys_of_dict_set. intuition congruence.
Qed.

Lemma nodup_dict_update {V : Type} (other d : list (string * V)) :
  NoDup (dict_keys d) -> NoDup (dict_keys (dict_update d other)).
Proof.
  unfold dict_update. revert d.
  induction other as [|[k v] other IH]; intros d Hnd; simpl; [exact Hnd|].
  apply IH. now apply nodup_dict_set.
Qed.

Lemma flat_dict_update (other d : dict) :
  is_flat d = true -> is_flat other = true -> is_flat (dict_update d other) = true.
Proof.
  unfold dict_update. revert d.
  induction other as [|[k v] other IH]; intros d Hd Ho; simpl; [exact Hd|].
  unfold is_flat in Ho. simpl in Ho. apply andb_prop in Ho as [Hv Ho].
  apply IH; [|exact Ho]. apply flat_dict_set; [exact Hd|].
  destruct v; try discriminate; reflexivity.
Qed.

Lemma dict_get_after_set {V : Type} (d : list (string * V)) (k k0 : string) (v : V) :
  dict_get (dict_set d k v) k0 = if String.eqb k0 k then Some v else dict_get d k0.
Proof.
  destruct (String.eqb k0 k) eqn:E.
  - apply String.eqb_eq in E. subst k0. apply dict_get_set_same.
  - apply dict_get_set_other. now apply String.eqb_neq.
Qed.


Section Flattener.
Variable py_repr : pyval -> string.

(** What the loop of [flatten_json_result] does with one item. *)
Definition item_update (parent_key sep : string) (items : dict) (kv : string * pyval)
  : dict :=
  let new_key := child_key parent_key sep (fst kv) in
  match snd kv with
  | PDict _ => dict_update items (flatten_json_result py_repr (snd kv) new_key sep)
  | PList l => dict_set items new_key (PStr (String.concat ", " (map (py_str py_repr) l)))
  | v => dict_set items new_key v
  end.

Lemma flatten_dict_is_fold (d : dict) (parent_key sep : string) :
  flatten_json_result py_repr (PDict d) parent_key sep
  = fold_left (item_update parent_key sep) d [].
Proof.
  cbn [flatten_json_result]. generalize (@nil (string * pyval)) as items.
  induction d as [|[k v] d IH]; intros items; [reflexivity|].
  cbn [fold_left]. rewrite <- IH. unfold item_update. cbn [fst snd].
  destruct v; reflexivity.
Qed.

Definition well_formed (m : dict) : Prop := is_flat m = true /\ NoDup (dict_keys m).

Lemma flatten_well_formed_by_size (n : nat) :
  forall (d : dict) (parent_key sep : string),
    pyval_size (PDict d) <= n ->
    well_formed (flatten_json_result py_repr (PDict d) parent_key sep).
Proof.
  induction n as [|n IH]; intros d parent_key sep Hsize; [simpl in Hsize; lia|].
  rewrite flatten_dict_is_fold.
  assert (Hacc : forall items, well_formed items ->
                               well_formed (fold_left (item_update parent_key sep) d items)).
  { simpl in Hsize. apply le_S_n in Hsize. revert Hsize.
    induction d as [|[k v] d IHd]; intros Hsize items Hitems; [exact Hitems|].
    cbn [fold_left]. simpl in Hsize. apply IHd; [lia|].
    destruct Hitems as [Hflat Hnd]. unfold item_update. cbn [fst snd].
    destruct v as [| | | | | |l|dv].
    1-6: split; [now apply flat_dict_set|now apply nodup_dict_set].
    - split; [now apply flat_dict_set|now apply nodup_dict_set].
    - destruct (IH dv (child_key parent_key sep k) sep) as [Hf Hn]; [lia|].
      split; [now apply flat_dict_update|now apply nodup_dict_update]. }
  apply Hacc. split; [reflexivity|constructor].
Qed.

Lemma flatten_well_formed (d : dict) (parent_key sep : string) :
  well_formed (flatten_json_result py_repr (PDict d) parent_key sep).
Proof. now apply (flatten_well_formed_by_size (pyval_size (PDict d))). Qed.

Lemma flatten_keys_distinct (v : pyval) (parent_key sep : string) :
  NoDup (dict_keys (flatten_json_result py_repr v parent_key sep)).
Proof.
  destruct v; try (simpl; repeat constructor; intros []).
  apply flatten_well_formed.
Qed.

Lemma fold_flat_is_update (m items : dict) (sep : string) :
  is_flat m = true ->
  fold_left (item_update "" sep) m items = dict_update items m.
Proof.
  revert items. induction m as [|[k v] m IH]; intros items Hflat; [reflexivity|].
  unfold is_flat in Hflat. simpl in Hflat. apply andb_prop in Hflat as [Hv Hm].
  cbn [fold_left]. rewrite (IH _ Hm). unfold dict_update. cbn [fold_left]. f_equal.
  unfold item_update. cbn [fst snd]. destruct v; try discriminate; reflexivity.
Qed.

(** X8. For every mapping, the result of [flatten_json_result] has no dict
    or list among its values and no key twice, whatever [parent_key] and
    [sep]; with the default arguments, flattening the result once more
    returns it unchanged. *)
Theorem flatten_result_is_flat_and_stable (d : dict) :
  let r := flatten py_repr (PDict d) in
  is_flat r = true
  /\ NoDup (dict_keys r)
  /\ flatten py_repr (PDict r) = r
  /\ (forall parent_key sep,
        is_flat (flatten_json_result py_repr (PDict d) parent_key sep) = true
        /\ NoDup (dict_keys (flatten_json_result py_repr (PDict d) parent_key sep))).
Proof.
  cbv zeta. destruct (flatten_well_formed d "" "_") as [Hflat Hnd].
  split; [exact Hflat|split; [exact Hnd|split]].
  - unfold flatten. rewrite (flatten_dict_is_fold (flatten_json_result _ _ _ _)).
    rewrite (fold_flat_is_update _ [] "_" Hflat).
    now apply (dict_update_fresh (flatten_json_result py_repr (PDict d) "" "_") []).
  - intros parent_key sep. apply flatten_well_formed.
Qed.

Lemma child_key_nonempty (parent_key sep k : string) :
  parent_key <> "" -> child_key parent_key sep k = parent_key ++ sep ++ k.
Proof.
  intros H. unfold child_key. apply String.eqb_neq in H. now rewrite H.
Qed.

Lemma append_nonempty (a b : string) : a <> "" -> a ++ b <> "".
Proof. destruct a; [congruence|discriminate]. Qed.

Lemma nested_keys_by_size (n : nat) :
  forall (d : dict) (parent_key sep key : string),
    pyval_size (PDict d) <= n ->
    parent_key <> "" ->
    In key (dict_keys (flatten_json_result py_repr (PDict d) parent_key sep)) ->
    exists rest, key = parent_key ++ sep ++ rest.
Proof.
  induction n as [|n IH]; intros d parent_key sep key Hsize Hp; [simpl in Hsize; lia|].
  rewrite flatten_dict_is_fold.
  assert (Hacc : forall items,
            In key (dict_keys (fold_left (item_update parent_key sep) d items)) ->
            In key (dict_keys items) \/ exists rest, key = parent_key ++ sep ++ rest).
  { simpl in Hsize. apply le_S_n in Hsize. revert Hsize.
    induction d as [|[k v] d IHd]; intros Hsize items Hin; [now left|].
    cbn [fold_left] in Hin. simpl in Hsize.
    apply IHd in Hin; [|lia]. destruct Hin as [Hin|Hin]; [|now right].
    unfold item_update in Hin. cbn [fst snd] in Hin.
    rewrite (child_key_nonempty _ _ _ Hp) in Hin.
    destruct v as [| | | | | |l|dv];
      try (apply keys_of_dict_set in Hin as [Hin|Hin]; [now left|right; now exists k]).
    apply keys_of_dict_update in Hin as [Hin|Hin]; [now left|right].
    apply IH in Hin; [|lia|now apply append_nonempty].
    destruct Hin as [rest Hrest]. exists (k ++ sep ++ rest).
    rewrite Hrest. now rewrite !ApiClientsFacts.append_assoc. }
  intros Hin. apply Hacc in Hin. destruct Hin as [[]|Hin]. exact Hin.
Qed.

(** X9. Under a parent key that is not empty every key of the result
    starts with parent_key + sep; so the keys that come from an object
    nested under a key k (not empty) all start with k_.  An object nested
    under the empty key gives its keys without any prefix: it flattens as
    if it stood at the top. *)
Theorem nested_keys_carry_the_parent_key (d : dict) :
  (forall parent_key sep key,
      parent_key <> "" ->
      In key (dict_keys (flatten_json_result py_repr (PDict d) parent_key sep)) ->
      exists rest, key = parent_key ++ sep ++ rest)
  /\ (forall k key,
        k <> "" ->
        In key (dict_keys (flatten py_repr (PDict [(k, PDict d)]))) ->
        exists rest, key = k ++ "_" ++ rest)
  /\ flatten py_repr (PDict [("", PDict d)]) = flatten py_repr (PDict d).
Proof.
  split; [|split].
  - intros parent_key sep key Hp Hin.
    now apply (nested_keys_by_size (pyval_size (PDict d)) d parent_key sep key).
  - intros k key Hk Hin. unfold flatten in Hin.
    rewrite flatten_dict_is_fold in Hin. cbn [fold_left] in Hin.
    unfold item_update in Hin. cbn [fst snd] in Hin.
    apply keys_of_dict_update in Hin as [[]|Hin].
    assert (Hck : child_key "" "_" k = k) by reflexivity.
    rewrite Hck in Hin.
    now apply (nested_keys_by_size (pyval_size (PDict d)) d k "_" key).
  - unfold flatten. rewrite (flatten_dict_is_fold [("", PDict d)]).
    cbn [fold_left]. unfold item_update. cbn [fst snd].
    change (child_key "" "_" "") with "".
    apply (dict_update_fresh (flatten_json_result py_repr (PDict d) "" "_") []).
    apply flatten_keys_distinct.
Qed.

(** X10. When two paths of the input flatten to the same key, the value
    met last replaces the earlier one and nothing reports it: with a key
    a_b at the top and a key b nested under a, the result has the single
    key a_b, holding whichever of the two values comes last. *)
Theorem colliding_keys_keep_the_last_value (a b : string) (v1 v2 : pyval) :
  a <> "" -> scalar v1 = true -> scalar v2 = true ->
  flatten py_repr (PDict [(a ++ "_" ++ b, v1); (a, PDict [(b, v2)])])
  = [(a ++ "_" ++ b, v2)]
  /\ flatten py_repr (PDict [(a, PDict [(b, v2)]); (a ++ "_" ++ b, v1)])
     = [(a ++ "_" ++ b, v1)].
Proof.
  intros Ha H1 H2. unfold flatten.
  assert (Hnested : flatten_json_result py_repr (PDict [(b, v2)]) a "_"
                    = [(a ++ "_" ++ b, v2)]).
  { rewrite flatten_dict_is_fold. cbn [fold_left]. unfold item_update. cbn [fst snd].
    rewrite (child_key_nonempty _ _ _ Ha).
    destruct v2; try discriminate; reflexivity. }
  assert (Hck : forall k, child_key "" "_" k = k) by reflexivity.
  split.
  - rewrite flatten_dict_is_fold. cbn [fold_left]. unfold item_update. cbn [fst snd].
    rewrite !Hck, Hnested.
    destruct v1; try discriminate; unfold dict_update; simpl;
      now rewrite String.eqb_refl.
  - rewrite flatten_dict_is_fold. cbn [fold_left]. unfold item_update. cbn [fst snd].
    rewrite !Hck, Hnested.
    destruct v1; try discriminate; unfold dict_update; simpl;
      now rewrite String.eqb_refl.
Qed.

End Flattener.

Lemma colliding_keys_witness :
  flatten PlainFormat.no_repr
    (PDict [("band_gap", PFloat "1.1"); ("band", PDict [("gap", PFloat "3.4")])])
  = [("band_gap", PFloat "3.4")].
Proof.
  destruct (colliding_keys_keep_the_last_value PlainFormat.no_repr "band" "gap"
              (PFloat "1.1") (PFloat "3.4")) as [H _];
    [discriminate|reflexivity|reflexivity|exact H].
Defined.

End FlattenerFacts.

Module OrchestratorFacts.
Import Py Json PyOps Queue Config Utils ApiClients DataProcessor.
Import PyFacts UtilsFacts ApiClientsFacts DocumentFacts PipelineFacts RunFacts.
Import FlattenerFacts.

(** The progress messages among the lines of a queue. *)
Definition progress_of (lines : list log_line) : list (nat * nat) :=
  flat_map (fun line => match line with
                        | ProgressEvent processed total => [(processed, total)]
                        | _ => []
                        end) lines.

Lemma progress_of_app (a b : list log_line) :
  progress_of (a ++ b) = (progress_of a ++ progress_of b)%list.
Proof. unfold progress_of. apply flat_map_app. Qed.

Lemma reader_reports_no_progress (file : read_outcome DataFrame) :
  progress_of (fst (read_csv_robustly file)) = [].
Proof. destruct file; reflexivity. Qed.

Lemma progress_of_save (env : environment) (b : list dict) (h : bool) (s : state) :
  progress_of (queue (_save_batch_results env b h s)) = progress_of (queue s).
Proof.
  destruct b as [|r b]; [reflexivity|]. simpl. rewrite progress_of_app. simpl.
  destruct (to_csv env _); now rewrite app_nil_r.
Qed.

Section Orchestrator.
Variable cfg : config.
Variable py_repr : pyval -> string.
Variable str_format : string -> string -> result string.
Variable exn_str : exn -> string.

Lemma lines_of_no_progress (api_client : BaseAPIClient) (prompt_template : string)
  (df : DataFrame) (t : task) :
  progress_of (lines_of cfg py_repr str_format exn_str api_client prompt_template df t) = [].
Proof.
  unfold lines_of, merge_result.
  destruct (future_result cfg py_repr str_format api_client prompt_template t) as [v|e];
    [destruct (py_truthy v)|]; reflexivity.
Qed.

Lemma progress_step (env : environment) (api_client : BaseAPIClient)
  (prompt_template : string) (df : DataFrame) (total : nat) (c : collector) (f : task) :
  let c' := collect_step cfg py_repr str_format exn_str env api_client prompt_template
              df total c f in
  progress_of (queue (st c'))
  = (progress_of (queue (st c)) ++ [(S (processed_count c), total)])%list
  /\ processed_count c' = S (processed_count c).
Proof.
  cbv zeta. unfold collect_step. cbn [st processed_count]. split; [|reflexivity].
  destruct (SAVE_INTERVAL cfg <=? _)%nat; [rewrite progress_of_save|];
    cbn [say bump queue]; rewrite !progress_of_app, lines_of_no_progress; reflexivity.
Qed.

Lemma progress_steps (env : environment) (api_client : BaseAPIClient)
  (prompt_template : string) (df : DataFrame) (total : nat) (l : list task)
  (c : collector) :
  let c' := fold_left (collect_step cfg py_repr str_format exn_str env api_client
                         prompt_template df total) l c in
  progress_of (queue (st c'))
  = (progress_of (queue (st c))
     ++ map (fun i => (i, total)) (seq (S (processed_count c)) (length l)))%list
  /\ processed_count c' = processed_count c + length l.
Proof.
  cbv zeta. revert c. induction l as [|f l IH]; intros c.
  - simpl. rewrite app_nil_r. split; [reflexivity|lia].
  - cbn [fold_left].
    destruct (progress_step env api_client prompt_template df total c f) as [Hq Hc].
    cbv zeta in Hq, Hc.
    destruct (IH (collect_step cfg py_repr str_format exn_str env api_client
                    prompt_template df total c f)) as [IHq IHc].
    rewrite IHq, IHc, Hq, Hc. cbn [length seq map]. rewrite <- app_assoc.
    split; [reflexivity|lia].
Qed.

Lemma prepare_reports_no_progress (env : environment) (process_count : Z)
  (resume_mode : bool) (st0 : state) :
  progress_of (queue (fst (prepare cfg env process_count resume_mode st0)))
  = progress_of (queue st0).
Proof.
  unfold prepare.
  pose proof (reader_reports_no_progress (input_file env)) as Hin.
  destruct (read_csv_robustly (input_file env)) as [lines [df0|]]; cbn [fst] in Hin.
  2:{ cbn [fst say queue]. rewrite progress_of_app, Hin. apply app_nil_r. }
  destruct (negb (forallb _ _)).
  { cbn [fst say queue]. rewrite !progress_of_app, Hin. simpl. now rewrite !app_nil_r. }
  assert (Hres : progress_of (fst (load_resume_set env resume_mode)) = []).
  { unfold load_resume_set. destruct (resume_mode && output_exists env)%bool; [|reflexivity].
    pose proof (reader_reports_no_progress (output_file env)) as Hout.
    destruct (read_csv_robustly (output_file env)) as [l [d|]]; cbn [fst] in Hout |- *;
      [|exact Hout].
    destruct (has_column d "UID"); cbn [fst]; [|exact Hout].
    rewrite progress_of_app, Hout. reflexivity. }
  destruct (load_resume_set env resume_mode) as [resume_lines uids]. cbn [fst] in Hres.
  destruct (length _ =? 0)%nat; destruct (has_column df0 "UID");
    cbn [fst say queue]; rewrite !progress_of_app, Hin, Hres; simpl;
    now rewrite ?app_nil_r.
Qed.

(** X11. In every run the progress messages on the queue are (1, N),
    (2, N), ..., (m, N), in this order, where N is the number of records to
    process and m the number of results merged. *)
Theorem progress_counts_the_merged_results (env : environment)
  (api_client : BaseAPIClient) (process_count : Z) (prompt_template : string)
  (resume_mode : bool) :
  let r := run_analysis cfg py_repr str_format exn_str env api_client process_count
             prompt_template resume_mode in
  progress_of (queue (final r))
  = map (fun i => (i, length (df_to_process r))) (seq 1 (length (merged_futures r))).
Proof.
  cbv zeta.
  destruct (run_analysis_cases cfg py_repr str_format exn_str env api_client
              process_count prompt_template resume_mode)
    as [e [Hcase [Hdf [_ [_ [Hmer [_ [_ Hq]]]]]]]].
  rewrite Hq, Hdf, Hmer, progress_of_app.
  assert (Hlast : progress_of
                    [if stop_event env (reads (final e)) then AbortedLine else FinishedLine]
                  = []) by (now destruct (stop_event env _)).
  rewrite Hlast, app_nil_r.
  pose proof (prepare_reports_no_progress env process_count resume_mode st_start) as Hprep.
  destruct Hcase as [[_ He]|[df [todo [Hp He]]]]; subst e.
  - cbn [returned_early final merged_futures df_to_process]. rewrite Hprep. reflexivity.
  - set (s5 := fst (prepare cfg env process_count resume_mode st_start)) in *.
    unfold process. rewrite submit_loop_spec.
    cbn [final merged_futures df_to_process say queue reads flushes].
    rewrite progress_of_app. cbn [progress_of flat_map app]. rewrite app_nil_r.
    rewrite progress_of_save.
    match goal with
    | |- context [collect_loop _ _ _ _ _ _ _ _ ?n ?l ?c] =>
        change (collect_loop cfg py_repr str_format exn_str env api_client
                  prompt_template df n l c)
          with (the_loop cfg py_repr str_format exn_str env api_client
                  prompt_template df n l c);
        set (c0 := c); set (completed := l)
    end.
    rewrite collect_loop_spec.
    set (j := clear_reads env (reads (st c0)) (length completed)).
    destruct (progress_steps env api_client prompt_template df (length todo)
                (firstn j completed) c0) as [Hprog _].
    destruct (steps_merged cfg py_repr str_format exn_str env api_client prompt_template
                df (length todo) (firstn j completed) c0) as [Hm _].
    cbv zeta in Hprog.
    assert (Hstart : progress_of (queue (st c0)) = []).
    { unfold c0. cbn [st queue]. rewrite progress_of_app. fold s5. rewrite Hprep.
      reflexivity. }
    destruct (skipn j completed);
      cbn [collect_break st merged bump queue];
      rewrite Hprog, Hm, Hstart; cbn [c0 processed_count merged app];
      reflexivity.
Qed.

(** *** The selection *)


Lemma iterrows_indices (rs : list row) (i : nat) :
  map index (iterrows i rs) = seq i (length rs).
Proof.
  revert i. induction rs as [|r rs IH]; intros i; [reflexivity|].
  cbn [iterrows map length seq index]. now rewrite IH.
Qed.

Lemma seq_strongly_sorted (n i : nat) : StronglySorted lt (seq i n).
Proof.
  revert i. induction n as [|n IH]; intros i; [constructor|].
  cbn [seq]. constructor; [apply IH|].
  apply Forall_forall. intros x Hx. apply in_seq in Hx. lia.
Qed.

Lemma sorted_filter (f : task -> bool) (l : list task) :
  StronglySorted lt (map index l) -> StronglySorted lt (map index (filter f l)).
Proof.
  induction l as [|t l IH]; intros H; [constructor|].
  cbn [map] in H. inversion H as [|x l' Hrest Hall]; subst.
  cbn [filter]. destruct (f t); [|now apply IH].
  cbn [map]. constructor; [now apply IH|].
  rewrite Forall_forall in *. intros x Hx. apply Hall.
  apply in_map_iff in Hx as [u [Hu Hin]]. apply filter_In in Hin as [Hin _].
  apply in_map_iff. now exists u.
Qed.

Lemma sorted_firstn (n : nat) (l : list task) :
  StronglySorted lt (map index l) -> StronglySorted lt (map index (firstn n l)).
Proof.
  revert n. induction l as [|t l IH]; intros n H; [now rewrite firstn_nil|].
  destruct n as [|n]; [constructor|].
  cbn [map] in H. inversion H as [|x l' Hrest Hall]; subst.
  cbn [firstn map]. constructor; [now apply IH|].
  rewrite Forall_forall in *. intros x Hx. apply Hall.
  apply in_map_iff in Hx as [u [Hu Hin]]. apply firstn_incl in Hin.
  apply in_map_iff. now exists u.
Qed.

Lemma unprocessed_sorted (env : environment) (df : DataFrame) (uids : list cell) :
  StronglySorted lt (map index (unprocessed env df uids)).
Proof.
  unfold unprocessed. apply sorted_filter. rewrite iterrows_indices.
  apply seq_strongly_sorted.
Qed.



(** *** Runs that end before any work *)

(** The line [run_analysis] puts last when nothing was read from the stop
    flag before. *)
Definition closing_line (env : environment) : log_line :=
  if stop_event env 0 then AbortedLine else FinishedLine.

(** X13. A run whose input cannot be read puts the reader's lines and the
    closing line on the queue, nothing else.  A run whose input lacks a
    required column puts the reader's lines, the count of articles, the
    error line and the closing line.  A run that finds every record already
    processed ends with the line saying so and the closing line.  None of
    them submits a task or appends to the output file. *)
Theorem unusable_input_ends_the_run (env : environment) (api_client : BaseAPIClient)
  (process_count : Z) (prompt_template : string) (resume_mode : bool) :
  let r := run_analysis cfg py_repr str_format exn_str env api_client process_count
             prompt_template resume_mode in
  let reader_lines := fst (read_csv_robustly (input_file env)) in
  (snd (read_csv_robustly (input_file env)) = None ->
   queue (final r) = (reader_lines ++ [closing_line env])%list
   /\ df_to_process r = [] /\ submitted r = [] /\ flushes (final r) = [])
  /\ (forall df0,
        snd (read_csv_robustly (input_file env)) = Some df0 ->
        forallb (has_column df0) (REQUIRED_INPUT_COLUMNS cfg) = false ->
        queue (final r)
        = (reader_lines
           ++ [ReadOkLine (length (rows df0)); MissingColumnsLine; closing_line env])%list
        /\ df_to_process r = [] /\ submitted r = [] /\ flushes (final r) = [])
  /\ (forall df0,
        snd (read_csv_robustly (input_file env)) = Some df0 ->
        forallb (has_column df0) (REQUIRED_INPUT_COLUMNS cfg) = true ->
        select env (working_frame df0) (snd (load_resume_set env resume_mode)) process_count
        = [] ->
        (exists before,
            queue (final r) = (before ++ [NothingToDoLine; closing_line env])%list)
        /\ submitted r = [] /\ flushes (final r) = []).
Proof.
  cbv zeta. unfold run_analysis, _execute_analysis, prepare, closing_line.
  destruct (read_csv_robustly (input_file env)) as [lines [df1|]]; cbn [fst snd].
  - split; [discriminate|split].
    + intros df0 Hread Hcols. inversion Hread; subst df1. rewrite Hcols.
      cbn [negb returned_early final read_stop say queue reads flushes
           df_to_process submitted app].
      rewrite <- !app_assoc. now repeat split.
    + intros df0 Hread Hcols Hnone. inversion Hread; subst df1. rewrite Hcols.
      cbn [negb].
      destruct (load_resume_set env resume_mode) as [resume_lines uids].
      cbn [snd] in Hnone. rewrite Hnone.
      cbn [length Nat.eqb returned_early final read_stop say queue reads flushes
           df_to_process submitted].
      split; [|split; [reflexivity|now destruct (has_column df0 "UID")]].
      destruct (has_column df0 "UID"); cbn [say queue reads];
        match goal with
        | |- exists before, ((?b ++ [NothingToDoLine]) ++ [?c])%list = _ =>
            exists b; now rewrite <- app_assoc
        end.
  - split; [|split; intros df0 Hread; discriminate].
    intros _. cbn [returned_early final read_stop say queue reads flushes
                   df_to_process submitted app].
    now repeat split.
Qed.

(** *** An input without a UID column *)





(** *** The appends to the output file *)

(** Every append of the state is a call of [to_csv] of its own, numbered
    from 0, with a batch that is not empty; one that failed left its line
    on the queue. *)
Definition appends_ok (env : environment) (s : state) : Prop :=
  forall i f,
    nth_error (flushes s) i = Some f ->
    saved f = to_csv env i /\ batch f <> []
    /\ (saved f = false -> In SaveErrorLine (queue s)).

Lemma appends_ok_say (env : environment) (lines : list log_line) (s : state) :
  appends_ok env s -> appends_ok env (say lines s).
Proof.
  intros H i f Hf. destruct (H i f Hf) as [H1 [H2 H3]].
  split; [exact H1|split; [exact H2|]].
  intros Hs. cbn [say queue]. apply in_or_app. left. now apply H3.
Qed.

Lemma appends_ok_bump (env : environment) (s : state) :
  appends_ok env s -> appends_ok env (bump s).
Proof. intros H i f Hf. exact (H i f Hf). Qed.

Lemma appends_ok_save (env : environment) (b : list dict) (h : bool) (s : state) :
  appends_ok env s -> appends_ok env (_save_batch_results env b h s).
Proof.
  intros H. destruct b as [|r b]; [exact H|].
  intros i f Hf. cbn [_save_batch_results flushes queue] in Hf |- *.
  destruct (Nat.lt_ge_cases i (length (flushes s))) as [Hlt|Hge].
  - rewrite nth_error_app1 in Hf by exact Hlt.
    destruct (H i f Hf) as [H1 [H2 H3]].
    split; [exact H1|split; [exact H2|]].
    intros Hs. apply in_or_app. left. now apply H3.
  - rewrite nth_error_app2 in Hf by exact Hge.
    destruct (i - length (flushes s)) as [|m] eqn:Ei.
    + cbn [nth_error] in Hf. inversion Hf; subst f. cbn [saved batch].
      replace i with (length (flushes s)) by lia.
      split; [reflexivity|split; [discriminate|]].
      intros Hs. rewrite Hs. apply in_or_app. right. right. now left.
    + cbn [nth_error] in Hf. destruct m; discriminate.
Qed.

Lemma appends_ok_step (env : environment) (api_client : BaseAPIClient)
  (prompt_template : string) (df : DataFrame) (total : nat) (c : collector) (f : task) :
  appends_ok env (st c) ->
  appends_ok env (st (collect_step cfg py_repr str_format exn_str env api_client
                        prompt_template df total c f)).
Proof.
  intros H. unfold collect_step. cbn [st].
  destruct (SAVE_INTERVAL cfg <=? _)%nat.
  - now apply appends_ok_save, appends_ok_say, appends_ok_bump.
  - now apply appends_ok_say, appends_ok_bump.
Qed.

Lemma appends_ok_steps (env : environment) (api_client : BaseAPIClient)
  (prompt_template : string) (df : DataFrame) (total : nat) (l : list task)
  (c : collector) :
  appends_ok env (st c) ->
  appends_ok env (st (fold_left (collect_step cfg py_repr str_format exn_str env
                                   api_client prompt_template df total) l c)).
Proof.
  revert c. induction l as [|f l IH]; intros c H; [exact H|].
  cbn [fold_left]. apply IH. now apply appends_ok_step.
Qed.

Lemma appends_ok_process (env : environment) (api_client : BaseAPIClient)
  (prompt_template : string) (df : DataFrame) (todo : list task) (s : state) :
  appends_ok env s ->
  appends_ok env (final (process cfg py_repr str_format exn_str env api_client
                           prompt_template df todo s)).
Proof.
  intros H. unfold process. rewrite submit_loop_spec. cbn [final].
  apply appends_ok_say, appends_ok_save.
  match goal with
  | |- appends_ok env (st (collect_loop _ _ _ _ _ _ _ _ ?n ?l ?c)) =>
      change (collect_loop cfg py_repr str_format exn_str env api_client
                prompt_template df n l c)
        with (the_loop cfg py_repr str_format exn_str env api_client
                prompt_template df n l c);
      assert (H0 : appends_ok env (st c))
  end.
  { cbn [st]. intros i f Hf. cbn [flushes queue] in Hf |- *.
    destruct (H i f Hf) as [H1 [H2 H3]].
    split; [exact H1|split; [exact H2|]].
    intros Hs. apply in_or_app. left. now apply H3. }
  rewrite collect_loop_spec.
  match goal with
  | |- context [fold_left _ ?l ?c] =>
      pose proof (appends_ok_steps env api_client prompt_template df (length todo) l c H0)
        as Hfold
  end.
  destruct (skipn _ _); [exact Hfold|].
  cbn [collect_break st]. now apply appends_ok_bump.
Qed.

Lemma appends_ok_run (env : environment) (api_client : BaseAPIClient)
  (process_count : Z) (prompt_template : string) (resume_mode : bool) :
  appends_ok env
    (final (run_analysis cfg py_repr str_format exn_str env api_client process_count
              prompt_template resume_mode)).
Proof.
  unfold run_analysis. cbn [read_stop final].
  apply appends_ok_say.
  match goal with
  | |- appends_ok env {| queue := queue ?x; reads := _; flushes := _ |} =>
      change (appends_ok env (bump x))
  end.
  apply appends_ok_bump.
  unfold _execute_analysis.
  destruct (prepare_control cfg env process_count resume_mode
              {| queue := []; reads := 0; flushes := [] |}) as [_ Hf].
  destruct (prepare cfg env process_count resume_mode _) as [s [[df todo]|]];
    cbn [fst] in Hf; cbn [flushes] in Hf.
  - apply appends_ok_process. intros i f Hi. rewrite Hf in Hi.
    destruct i; discriminate.
  - cbn [returned_early final]. intros i f Hi.
    rewrite Hf in Hi. destruct i; discriminate.
Qed.

Lemma rows_written_all_saved (fl : list flush) :
  Forall (fun f => saved f = true) fl -> rows_written fl = flat_map batch fl.
Proof.
  unfold rows_written. induction fl as [|f fl IH]; intros H; [reflexivity|].
  inversion H as [|x l Hf Hrest]; subst. simpl. rewrite Hf. f_equal. now apply IH.
Qed.

Lemma run_rows (env : environment) (api_client : BaseAPIClient)
  (process_count : Z) (prompt_template : string) (resume_mode : bool) (df0 : DataFrame) :
  snd (read_csv_robustly (input_file env)) = Some df0 ->
  let r := run_analysis cfg py_repr str_format exn_str env api_client process_count
             prompt_template resume_mode in
  flat_map batch (flushes (final r))
  = map (row_of cfg py_repr str_format exn_str api_client prompt_template
           (working_frame df0))
      (merged_futures r).
Proof.
  intros Hread. cbv zeta.
  destruct (run_analysis_cases cfg py_repr str_format exn_str env api_client
              process_count prompt_template resume_mode)
    as [e [Hcase [_ [_ [_ [Hmer [Hfl _]]]]]]].
  destruct (prepare_control cfg env process_count resume_mode st_start) as [_ Hf0].
  rewrite Hfl, Hmer.
  destruct Hcase as [[_ He]|[df [todo [Hp He]]]]; subst e.
  - cbn [returned_early final merged_futures]. rewrite Hf0. reflexivity.
  - destruct (process_spec cfg py_repr str_format exn_str env api_client
                prompt_template df todo
                (fst (prepare cfg env process_count resume_mode st_start)))
      as [_ [_ [Hm [_ [_ [Hrows _]]]]]].
    rewrite Hrows, Hm, Hf0. cbn [flat_map app st_start flushes].
    apply prepare_plan in Hp as [df1 [Hin1 [_ [Hdf' _]]]].
    rewrite Hread in Hin1. inversion Hin1; subst df1. now rewrite Hdf'.
Qed.

Lemma run_headers (env : environment) (api_client : BaseAPIClient)
  (process_count : Z) (prompt_template : string) (resume_mode : bool) :
  headers_ok (sink_has_content env)
    (flushes (final (run_analysis cfg py_repr str_format exn_str env api_client
                       process_count prompt_template resume_mode))).
Proof.
  destruct (run_analysis_cases cfg py_repr str_format exn_str env api_client
              process_count prompt_template resume_mode)
    as [e [Hcase [_ [_ [_ [_ [Hfl _]]]]]]].
  destruct (prepare_control cfg env process_count resume_mode st_start) as [_ Hf0].
  rewrite Hfl.
  destruct Hcase as [[_ He]|[df [todo [_ He]]]]; subst e.
  - cbn [returned_early final]. rewrite Hf0. exact I.
  - apply process_spec. exact Hf0.
Qed.

(** X15. In every run the i-th append to the output file is the i-th call
    of [to_csv], its batch is not empty, and a failed one is reported on
    the queue.  The batches, in order, hold exactly the rows of the merged
    results in the order of completion: each row is handed to [to_csv]
    once, and a failed append is not tried again.  When every [to_csv]
    succeeds the file gains exactly these rows; when every one fails, it
    gains none. *)
Theorem every_row_is_appended_once (env : environment) (api_client : BaseAPIClient)
  (process_count : Z) (prompt_template : string) (resume_mode : bool) :
  let r := run_analysis cfg py_repr str_format exn_str env api_client process_count
             prompt_template resume_mode in
  (forall i f,
      nth_error (flushes (final r)) i = Some f ->
      saved f = to_csv env i /\ batch f <> []
      /\ (saved f = false -> In SaveErrorLine (queue (final r))))
  /\ (forall df0,
        snd (read_csv_robustly (input_file env)) = Some df0 ->
        flat_map batch (flushes (final r))
        = map (row_of cfg py_repr str_format exn_str api_client prompt_template
                 (working_frame df0))
            (merged_futures r))
  /\ ((forall i, to_csv env i = true) ->
      rows_written (flushes (final r)) = flat_map batch (flushes (final r)))
  /\ ((forall i, to_csv env i = false) -> rows_written (flushes (final r)) = []).
Proof.
  cbv zeta.
  pose proof (appends_ok_run env api_client process_count prompt_template resume_mode)
    as Hok.
  split; [exact Hok|split; [|split]].
  - intros df0 Hread. now apply run_rows.
  - intros Hall. apply rows_written_all_saved. apply Forall_forall.
    intros f Hin. apply In_nth_error in Hin as [i Hi].
    destruct (Hok i f Hi) as [Hs _]. now rewrite Hs.
  - intros Hnone. unfold rows_written.
    assert (Hall : Forall (fun f => saved f = false)
                     (flushes (final (run_analysis cfg py_repr str_format exn_str env
                                        api_client process_count prompt_template
                                        resume_mode)))).
    { apply Forall_forall. intros f Hin. apply In_nth_error in Hin as [i Hi].
      destruct (Hok i f Hi) as [Hs _]. now rewrite Hs. }
    induction Hall as [|f fl Hf _ IH]; [reflexivity|].
    simpl. now rewrite Hf.
Qed.

(** X16. When the first [to_csv] of a run fails, no append of the run that
    succeeds carries the header (the flag that the header is written is
    set all the same), and the failure is on the queue if the run made an
    append at all. *)
Theorem failed_first_append_loses_the_header (env : environment)
  (api_client : BaseAPIClient) (process_count : Z) (prompt_template : string)
  (resume_mode : bool) :
  to_csv env 0 = false ->
  let r := run_analysis cfg py_repr str_format exn_str env api_client process_count
             prompt_template resume_mode in
  Forall (fun f => saved f = true -> write_header f = false) (flushes (final r))
  /\ (flushes (final r) <> [] -> In SaveErrorLine (queue (final r))).
Proof.
  intros Hfail. cbv zeta.
  pose proof (appends_ok_run env api_client process_count prompt_template resume_mode)
    as Hok.
  pose proof (run_headers env api_client process_count prompt_template resume_mode)
    as Hhead.
  destruct (flushes (final (run_analysis cfg py_repr str_format exn_str env api_client
                              process_count prompt_template resume_mode)))
    as [|f rest] eqn:Efl.
  - split; [constructor|congruence].
  - destruct (Hok 0 f) as [Hs [_ Hlog]]; [now rewrite Efl|].
    rewrite Hfail in Hs.
    split.
    + constructor; [rewrite Hs; discriminate|].
      destruct Hhead as [_ Hrest]. apply Forall_forall. intros g Hg _.
      rewrite Forall_forall in Hrest. now apply Hrest.
    + intros _. now apply Hlog.
Qed.

(** *** Each record at most once *)

Lemma sorted_no_dup (l : list nat) : StronglySorted lt l -> NoDup l.
Proof.
  induction 1 as [|x l Hs IH Hall]; constructor; [|exact IH].
  intros Hin. rewrite Forall_forall in Hall. specialize (Hall x Hin). lia.
Qed.

Lemma no_dup_firstn (n : nat) (l : list task) :
  NoDup (map index l) -> NoDup (map index (firstn n l)).
Proof.
  revert n. induction l as [|t l IH]; intros n Hnd; [rewrite firstn_nil; constructor|].
  destruct n as [|n]; [constructor|].
  cbn [firstn map] in *. inversion Hnd as [|x l' Hnotin Hrest]; subst.
  constructor; [|now apply IH].
  intros Hin. apply Hnotin. apply in_map_iff in Hin as [u [Hu Hin]].
  apply firstn_incl in Hin. apply in_map_iff. now exists u.
Qed.

Lemma selection_sorted (env : environment) (df : DataFrame) (uids : list cell)
  (process_count : Z) :
  StronglySorted lt (map index (select env df uids process_count)).
Proof.
  unfold select. pose proof (unprocessed_sorted env df uids) as H.
  destruct (0 <? process_count)%Z; [now apply sorted_firstn|exact H].
Qed.

(** X17. The records to process, and the submitted ones, come in strictly
    increasing index order: no row of the input is submitted twice in a
    run.  When [as_completed] hands over exactly the submitted futures,
    the merged results belong to submitted futures, each at most once. *)
Theorem no_record_is_submitted_twice (env : environment) (api_client : BaseAPIClient)
  (process_count : Z) (prompt_template : string) (resume_mode : bool) :
  let r := run_analysis cfg py_repr str_format exn_str env api_client process_count
             prompt_template resume_mode in
  StronglySorted lt (map index (df_to_process r))
  /\ StronglySorted lt (map index (submitted r))
  /\ NoDup (map index (submitted r))
  /\ ((forall l, Permutation (as_completed env l) l) ->
      NoDup (map index (merged_futures r))
      /\ incl (merged_futures r) (submitted r)
      /\ length (merged_futures r) <= length (submitted r)).
Proof.
  cbv zeta.
  destruct (run_analysis_cases cfg py_repr str_format exn_str env api_client
              process_count prompt_template resume_mode)
    as [e [Hcase [Hdf [Hsub [_ [Hmer _]]]]]].
  rewrite Hdf, Hsub, Hmer.
  destruct Hcase as [[_ He]|[df [todo [Hp He]]]]; subst e.
  - cbn [returned_early df_to_process submitted merged_futures map].
    repeat split; try constructor. intros x [].
  - destruct (process_spec cfg py_repr str_format exn_str env api_client
                prompt_template df todo
                (fst (prepare cfg env process_count resume_mode st_start)))
      as [Htodo [Hs [Hm _]]].
    rewrite Htodo, Hs, Hm.
    apply prepare_plan in Hp as [df0 [_ [_ [_ [Ht _]]]]].
    assert (Hsorted : StronglySorted lt (map index todo))
      by (subst todo; apply selection_sorted).
    assert (Hsubmitted : StronglySorted lt
                           (map index
                              (firstn (clear_reads env
                                         (reads (fst (prepare cfg env process_count
                                                        resume_mode st_start)))
                                         (length todo)) todo)))
      by (now apply sorted_firstn).
    split; [exact Hsorted|split; [exact Hsubmitted|split;
      [now apply sorted_no_dup|]]].
    intros Hperm.
    match goal with
    | |- NoDup (map index (firstn ?j (as_completed env ?l))) /\ _ =>
        set (j2 := j); set (futures := l) in *
    end.
    assert (Hincl : incl (firstn j2 (as_completed env futures)) futures).
    { intros t Hin. apply firstn_incl in Hin.
      eapply Permutation_in; [apply Hperm|exact Hin]. }
    split; [|split; [exact Hincl|]].
    + assert (Hnd : NoDup (map index (as_completed env futures))).
      { eapply Permutation_NoDup;
          [apply Permutation_sym, Permutation_map, Hperm|].
        now apply sorted_no_dup. }
      now apply no_dup_firstn.
    + rewrite length_firstn, (Permutation_length (Hperm futures)). lia.
Qed.

(** *** The row a result becomes *)





End Orchestrator.

(** *** Concrete runs *)

Import PlainFormat.



(** A run whose first append fails and whose later ones succeed. *)
Definition first_append_fails (input : DataFrame) : environment :=
  {| input_file := ReadUtf8 input;
     output_exists := false;
     output_size := 0;
     output_file := NotFound;
     stop_after := None;
     as_completed := fun l => l;
     to_csv := fun i => negb (i =? 0)%nat;
     isin := isin_by_value |}.

Lemma failed_first_append_witness :
  Forall (fun f => saved f = true -> write_header f = false)
    (flushes (final (example_run (save_every 1) (first_append_fails two_untitled) false))).
Proof.
  pose proof (failed_first_append_loses_the_header (save_every 1) no_repr format_plain
                no_message (first_append_fails two_untitled) example_client 0
                example_template false eq_refl) as H.
  cbv zeta in H. exact (proj1 H).
Defined.

End OrchestratorFacts.

Module SettingsFacts.
Import Py Json PyOps PyContainers SettingsManager PyFacts JsonFacts FlattenerFacts.
Import ApiClientsFacts.

(** Every key of [subs] is found in [inner] by Python's [in]. *)
Definition covers (inner : pyval) (subs : dict) : Prop :=
  forall sub_key, In sub_key (dict_keys subs) -> py_in sub_key inner = Ret true.

Definition grows (a b : pyval) : Prop :=
  forall x, py_in x a = Ret true -> py_in x b = Ret true.

Lemma dict_get_some_iff_key {V : Type} (d : list (string * V)) (k : string) :
  In k (dict_keys d) <-> exists v, dict_get d k = Some v.
Proof.
  induction d as [|[k' v'] d IH]; simpl.
  - split; [intros []|intros [v H]; discriminate].
  - destruct (String.eqb k' k) eqn:E.
    + apply String.eqb_eq in E. split; [intros _; now exists v'|now left].
    + apply String.eqb_neq in E. rewrite <- IH. tauto.
Qed.

Lemma dict_covers_itself (subs : dict) : covers (PDict subs) subs.
Proof.
  intros sk Hin. apply dict_get_some_iff_key in Hin as [v Hv].
  simpl. now rewrite Hv.
Qed.

Lemma grows_after_set (inner_items : dict) (k : string) (v : pyval) :
  grows (PDict inner_items) (PDict (dict_set inner_items k v)).
Proof.
  intros x. simpl. rewrite dict_get_after_set.
  destruct (String.eqb x k); [reflexivity|tauto].
Qed.

(** [d.setdefault(k, v)] for every item of [subs], in order. *)
Definition setdefaults (inner_items subs : dict) : dict :=
  fold_left (fun acc kv => match dict_get acc (fst kv) with
                           | Some _ => acc
                           | None => dict_set acc (fst kv) (snd kv)
                           end) subs inner_items.

(** What the inner loop makes of the value found under the key, when it
    ends without an exception. *)
Definition filled (inner : pyval) (subs : dict) : pyval :=
  match inner with
  | PDict inner_items => PDict (setdefaults inner_items subs)
  | other => other
  end.

Lemma fill_sub_keys_ok (subs : dict) :
  forall (d : dict) (key : string) (inner r : pyval),
    dict_get d key = Some inner ->
    fill_sub_keys (PDict d) key subs = Ret r ->
    exists d',
      r = PDict d' /\ dict_get d' key = Some (filled inner subs)
      /\ covers (filled inner subs) subs /\ grows inner (filled inner subs)
      /\ (forall k, k <> key -> dict_get d' k = dict_get d k).
Proof.
  induction subs as [|[sub_key sub_value] subs IH]; intros d key inner r Hkey Hfill.
  - simpl in Hfill. inversion Hfill; subst r. exists d.
    assert (Hsame : filled inner [] = inner) by (now destruct inner).
    rewrite Hsame.
    split; [reflexivity|split; [exact Hkey|split; [intros sk []|split]]].
    + intros x Hx. exact Hx.
    + reflexivity.
  - cbn [fill_sub_keys getitem_str] in Hfill. rewrite Hkey in Hfill.
    destruct (py_in sub_key inner) as [[|]|e] eqn:Ein; [| |discriminate].
    + destruct (IH d key inner r Hkey Hfill) as [d' [Hr [Hk [Hc [Hg Hf]]]]].
      assert (Hsame : filled inner ((sub_key, sub_value) :: subs) = filled inner subs).
      { destruct inner as [| | | | | | |inner_items]; try reflexivity.
        unfold filled, setdefaults. cbn [fold_left fst snd].
        simpl in Ein. destruct (dict_get inner_items sub_key); [reflexivity|discriminate]. }
      rewrite Hsame. exists d'.
      split; [exact Hr|split; [exact Hk|split; [|split; [exact Hg|exact Hf]]]].
      intros sk [Hsk|Hsk]; [subst sk; now apply Hg|now apply Hc].
    + destruct inner as [| | | | | | |inner_items]; try discriminate.
      cbn [setitem_str] in Hfill.
      set (inner1 := PDict (dict_set inner_items sub_key sub_value)) in *.
      destruct (IH (dict_set d key inner1) key inner1 r) as [d' [Hr [Hk [Hc [Hg Hf]]]]];
        [apply dict_get_set_same|exact Hfill|].
      assert (Hsame : filled (PDict inner_items) ((sub_key, sub_value) :: subs)
                      = filled inner1 subs).
      { unfold filled, setdefaults, inner1. cbn [fold_left fst snd].
        simpl in Ein. destruct (dict_get inner_items sub_key); [discriminate|reflexivity]. }
      rewrite Hsame. exists d'.
      split; [exact Hr|split; [exact Hk|split; [|split]]].
      * intros sk [Hsk|Hsk]; [|now apply Hc]. subst sk. apply Hg.
        unfold inner1. simpl. now rewrite dict_get_set_same.
      * intros x Hx. apply Hg. now apply grows_after_set.
      * intros k Hne. rewrite (Hf k Hne). now apply dict_get_set_other.
Qed.

(** What [load_settings] leaves under a key of the defaults, given what the
    file had there. *)
Definition merged_value (found : option pyval) (value : pyval) : pyval :=
  match found with
  | None => value
  | Some inner =>
      match value with
      | PDict subs => filled inner subs
      | _ => inner
      end
  end.

Lemma merge_defaults_ok (defaults : dict) :
  NoDup (dict_keys defaults) ->
  forall (d : dict) (r : pyval),
    merge_defaults (PDict d) defaults = Ret r ->
    exists d',
      r = PDict d'
      /\ (forall key value,
            In (key, value) defaults ->
            dict_get d' key = Some (merged_value (dict_get d key) value)
            /\ (forall subs, value = PDict subs ->
                  covers (merged_value (dict_get d key) value) subs))
      /\ (forall k, ~ In k (dict_keys defaults) -> dict_get d' k = dict_get d k).
Proof.
  induction defaults as [|[key value] defaults IH]; intros Hnd d r Hmerge.
  - simpl in Hmerge. inversion Hmerge; subst r. exists d.
    split; [reflexivity|split; [intros k v []|reflexivity]].
  - inversion Hnd as [|x l Hnotin Hrest]; subst.
    cbn [merge_defaults py_in] in Hmerge.
    assert (Hstep : exists d1,
               merge_defaults (PDict d1) defaults = Ret r
               /\ dict_get d1 key = Some (merged_value (dict_get d key) value)
               /\ (forall subs, value = PDict subs ->
                     covers (merged_value (dict_get d key) value) subs)
               /\ (forall k, k <> key -> dict_get d1 k = dict_get d k)).
    { destruct (dict_get d key) as [inner|] eqn:Hkey.
      - destruct value as [| | | | | | |subs];
          try (exists d; split; [exact Hmerge|split; [exact Hkey|split;
                 [intros subs Hs; discriminate Hs|reflexivity]]]).
        destruct (fill_sub_keys (PDict d) key subs) as [result|e] eqn:Hfill;
          [|discriminate].
        destruct (fill_sub_keys_ok subs d key inner result Hkey Hfill)
          as [d1 [Hr [Hk [Hc [_ Hf]]]]].
        subst result. exists d1.
        split; [exact Hmerge|split; [exact Hk|split; [|exact Hf]]].
        intros subs' Hs. inversion Hs; subst. exact Hc.
      - cbn [setitem_str] in Hmerge.
        exists (dict_set d key value).
        split; [exact Hmerge|split; [apply dict_get_set_same|split]].
        + intros subs Hs. subst value. apply dict_covers_itself.
        + intros k Hne. now apply dict_get_set_other. }
    destruct Hstep as [d1 [Hmerge1 [Hk1 [Hc1 Hf1]]]].
    destruct (IH Hrest d1 r Hmerge1) as [d' [Hr [Hall Hframe]]].
    exists d'. split; [exact Hr|split].
    + intros k v [Hkv|Hkv].
      * inversion Hkv; subst k v. split; [|exact Hc1].
        rewrite (Hframe key Hnotin). exact Hk1.
      * destruct (Hall k v Hkv) as [Hget Hcov].
        assert (Hne : k <> key).
        { intros Heq. subst k. apply Hnotin. unfold dict_keys.
          now apply (in_map fst) in Hkv. }
        rewrite (Hf1 k Hne) in Hget, Hcov. now split.
    + intros k Hk. simpl in Hk. rewrite Hframe by tauto. apply Hf1.
      intros Heq. apply Hk. now left.
Qed.

Lemma fill_sub_keys_raises (subs : dict) :
  forall (loaded : pyval) (key : string) (e : exn),
    py_in key loaded = Ret true ->
    fill_sub_keys loaded key subs = Raise e -> e = TypeError.
Proof.
  induction subs as [|[sub_key sub_value] subs IH]; intros loaded key e Hin Hfill;
    [discriminate|].
  cbn [fill_sub_keys] in Hfill.
  destruct loaded as [| | | | |s|l|d]; try discriminate;
    try (cbn [getitem_str] in Hfill; now inversion Hfill).
  cbn [getitem_str] in Hfill. simpl in Hin.
  destruct (dict_get d key) as [inner|] eqn:Hkey; [|discriminate].
  destruct (py_in sub_key inner) as [[|]|e'] eqn:Esub.
  - apply (IH (PDict d) key e); [simpl; now rewrite Hkey|exact Hfill].
  - destruct inner as [| | | | | | |inner_items];
      try (cbn [setitem_str] in Hfill; now inversion Hfill).
    cbn [setitem_str] in Hfill.
    apply (IH _ key e) in Hfill; [exact Hfill|].
    simpl. now rewrite dict_get_set_same.
  - inversion Hfill; subst e'.
    destruct inner; simpl in Esub; try discriminate; now inversion Esub.
Qed.

Lemma merge_defaults_raises (defaults : dict) :
  forall (loaded : pyval) (e : exn),
    merge_defaults loaded defaults = Raise e -> e = TypeError.
Proof.
  induction defaults as [|[key value] defaults IH]; intros loaded e Hmerge;
    [discriminate|].
  cbn [merge_defaults] in Hmerge.
  destruct (py_in key loaded) as [[|]|e'] eqn:Ein.
  - destruct value as [| | | | | | |subs]; try (now apply (IH loaded)).
    destruct (fill_sub_keys loaded key subs) as [result|e''] eqn:Hfill.
    + now apply (IH result).
    + inversion Hmerge; subst e''. now apply (fill_sub_keys_raises subs loaded key).
  - destruct loaded as [| | | | | | |d]; try (simpl in Hmerge; now inversion Hmerge).
    cbn [setitem_str] in Hmerge. exact (IH _ e Hmerge).
  - inversion Hmerge; subst e'.
    destruct loaded; simpl in Ein; try discriminate; now inversion Ein.
Qed.

Lemma merge_defaults_needs_a_dict (loaded : pyval) :
  (forall d, loaded <> PDict d) ->
  merge_defaults loaded default_items = Raise TypeError.
Proof.
  intros Hnd. unfold default_items. cbn [merge_defaults].
  destruct loaded as [| | | | |s|l|d]; try reflexivity.
  - cbn [py_in]. destruct (contains "api_keys" s); reflexivity.
  - cbn [py_in]. destruct (existsb _ l); reflexivity.
  - now elim (Hnd d).
Qed.

Lemma default_keys_distinct : NoDup (dict_keys default_items).
Proof.
  unfold default_items, dict_keys. cbn [map fst].
  repeat constructor; simpl; intuition discriminate.
Qed.

Lemma lookup_of_member (items : dict) (key : string) (value : pyval) :
  NoDup (dict_keys items) -> In (key, value) items -> dict_get items key = Some value.
Proof.
  induction items as [|[k v] l IH]; intros Hnd Hin; [contradiction|].
  inversion Hnd as [|x l' Hnotin Hrest]; subst.
  simpl. destruct Hin as [H|H].
  - inversion H; subst. now rewrite String.eqb_refl.
  - destruct (String.eqb k key) eqn:E; [|now apply IH].
    apply String.eqb_eq in E. subst k. exfalso. apply Hnotin.
    unfold dict_keys. now apply (in_map fst) in H.
Qed.

(** Settings that lack nothing the defaults have. *)
Definition complete (settings : pyval) : Prop :=
  exists d,
    settings = PDict d
    /\ (forall key value,
          In (key, value) default_items ->
          exists v, dict_get d key = Some v
                    /\ (forall subs, value = PDict subs -> covers v subs)).

Lemma defaults_are_complete : complete _load_defaults.
Proof.
  exists default_items. split; [reflexivity|].
  intros key value Hin. exists value.
  split; [now apply lookup_of_member; [apply default_keys_distinct|]|].
  intros subs Hs. subst value. apply dict_covers_itself.
Qed.

Lemma load_settings_complete (py : interpreter) (file : settings_file)
  (settings : pyval) :
  snd (load_settings py file) = Ret settings -> complete settings.
Proof.
  unfold load_settings. destruct file as [|text|e].
  - intros H; inversion H. apply defaults_are_complete.
  - destruct (loads py text) as [loaded| |e|] eqn:El.
    + destruct (merge_defaults loaded default_items) as [merged|e] eqn:Em.
      * intros H; inversion H; subst merged.
        destruct loaded as [| | | | | | |d];
          try (rewrite merge_defaults_needs_a_dict in Em by (intros d; discriminate);
               discriminate).
        destruct (merge_defaults_ok default_items default_keys_distinct d settings Em)
          as [d' [Hr [Hall _]]].
        exists d'. split; [exact Hr|].
        intros key value Hin. destruct (Hall key value Hin) as [Hget Hcov].
        eexists. split; [exact Hget|exact Hcov].
      * destruct (is_type_error e); intros H; inversion H.
        apply defaults_are_complete.
    + intros H; inversion H. apply defaults_are_complete.
    + destruct (is_type_error e); intros H; inversion H. apply defaults_are_complete.
    + discriminate.
  - destruct (is_type_error e); intros H; inversion H. apply defaults_are_complete.
Qed.

(** X19. Whenever [load_settings] returns, whatever the settings file
    holds, [self.settings] is a dict with every key of the defaults, and
    each provider of SUPPORTED_API_PROVIDERS is [in] what it holds under
    api_keys and under selected_models. *)
Theorem load_settings_leaves_complete_settings (py : interpreter)
  (file : settings_file) (settings : pyval) :
  snd (load_settings py file) = Ret settings ->
  exists d,
    settings = PDict d
    /\ (forall key, In key (dict_keys default_items) -> exists v, dict_get d key = Some v)
    /\ (forall section provider,
          In section ["api_keys"; "selected_models"] ->
          In provider Providers.SUPPORTED_API_PROVIDERS ->
          exists inner, dict_get d section = Some inner /\ py_in provider inner = Ret true).
Proof.
  intros Hload. destruct (load_settings_complete py file settings Hload) as [d [Hd Hall]].
  exists d. split; [exact Hd|split].
  - intros key Hkey. unfold dict_keys in Hkey. apply in_map_iff in Hkey as [[k v] [Hk Hin]].
    simpl in Hk. subst k. destruct (Hall key v Hin) as [w [Hw _]]. now exists w.
  - intros section provider Hsection Hprovider.
    assert (Hsubs : exists subs,
               In (section, PDict subs) default_items
               /\ dict_keys subs = Providers.SUPPORTED_API_PROVIDERS).
    { destruct Hsection as [Hs|[Hs|[]]]; subst section.
      - exists (map (fun pc => (fst pc, PStr "")) Providers.API_CONFIGS).
        split; [now left|reflexivity].
      - exists (map (fun pc => (fst pc, PStr (Providers.default_model (snd pc))))
                  Providers.API_CONFIGS).
        split; [right; now left|reflexivity]. }
    destruct Hsubs as [subs [Hin Hkeys]].
    destruct (Hall section (PDict subs) Hin) as [inner [Hget Hcov]].
    exists inner. split; [exact Hget|].
    apply (Hcov subs eq_refl). now rewrite Hkeys.
Qed.

Lemma complete_settings_witness :
  exists d, _load_defaults = PDict d
            /\ forall key, In key (dict_keys default_items) ->
                           exists v, dict_get d key = Some v.
Proof.
  destruct (load_settings_leaves_complete_settings cpython (SettingsText "{}")
              _load_defaults)
    as [d [Hd [Hkeys _]]].
  - vm_compute. reflexivity.
  - exists d. split; [exact Hd|exact Hkeys].
Defined.

(** X20. [load_settings] falls back to exactly the defaults, logging the
    matching line, when the file does not exist, when [json.load] ends in
    a JSONDecodeError, when it returns a JSON value that is not an object,
    and when it returns an object holding under api_keys or
    selected_models a value that is not an object and in which some
    provider is not found (a number, null, a string that lacks it).  It
    raises in two cases only, and never a TypeError: what opening or
    reading the file raised, and what [json.load] raised other than a
    JSONDecodeError, which is the plain ValueError of an integer literal
    beyond the interpreter's digit limit or the RecursionError of nesting
    beyond its recursion limit; then nothing is logged.  A settings file
    holding an integer of 4301 digits makes it raise ValueError. *)
Theorem load_settings_falls_back_to_defaults (py : interpreter)
  (file : settings_file) :
  (file = NoSettingsFile ->
   load_settings py file = ([SettingsMissingLine], Ret _load_defaults))
  /\ (forall text,
        file = SettingsText text -> loads py text = JSONDecodeError ->
        load_settings py file = ([SettingsUnusableLine], Ret _load_defaults))
  /\ (forall text v,
        file = SettingsText text -> loads py text = Loaded v ->
        (forall d, v <> PDict d) ->
        load_settings py file = ([SettingsUnusableLine], Ret _load_defaults))
  /\ (forall text d section subs x provider,
        file = SettingsText text -> loads py text = Loaded (PDict d) ->
        In (section, PDict subs) default_items ->
        dict_get d section = Some x -> (forall inner_items, x <> PDict inner_items) ->
        In provider (dict_keys subs) -> py_in provider x <> Ret true ->
        load_settings py file = ([SettingsUnusableLine], Ret _load_defaults))
  /\ (forall text e,
        file = SettingsText text -> loads py text = LoadsRaises e ->
        (e = ValueError \/ e = RecursionError)
        /\ load_settings py file = ([], Raise e))
  /\ (forall e,
        snd (load_settings py file) = Raise e ->
        e <> TypeError
        /\ load_settings py file = ([], Raise e)
        /\ (file = SettingsReadRaises e
            \/ exists text, file = SettingsText text /\ loads py text = LoadsRaises e))
  /\ load_settings cpython (SettingsText ApiClientsFacts.long_integer_answer)
     = ([], Raise ValueError).
Proof.
  split; [|split; [|split; [|split; [|split; [|split]]]]].
  - intros Hf. now subst file.
  - intros text Hf Hl. subst file. unfold load_settings. now rewrite Hl.
  - intros text v Hf Hl Hv. subst file. unfold load_settings. rewrite Hl.
    now rewrite (merge_defaults_needs_a_dict v Hv).
  - intros text d section subs x provider Hf Hl Hin Hx Hnd Hp Hnot.
    subst file. unfold load_settings. rewrite Hl.
    destruct (merge_defaults (PDict d) default_items) as [merged|e] eqn:Em.
    + exfalso.
      destruct (merge_defaults_ok default_items default_keys_distinct d merged Em)
        as [d' [_ [Hall _]]].
      destruct (Hall section (PDict subs) Hin) as [_ Hcov].
      specialize (Hcov subs eq_refl provider Hp). rewrite Hx in Hcov.
      cbn [merged_value] in Hcov.
      assert (Hsame : filled x subs = x).
      { destruct x; try reflexivity. now elim (Hnd d0). }
      rewrite Hsame in Hcov. contradiction.
    + apply merge_defaults_raises in Em. subst e. reflexivity.
  - intros text e Hf Hl. subst file.
    pose proof (JsonFacts.loads_raises py text e Hl) as He.
    split; [exact He|]. unfold load_settings. rewrite Hl.
    destruct He as [He|He]; subst e; reflexivity.
  - intros e. unfold load_settings. destruct file as [|text|e0].
    + discriminate.
    + pose proof (loads_never_out_of_fuel py text) as Hfuel.
      destruct (loads py text) as [loaded| |e1|] eqn:El; [|discriminate| |congruence].
      * destruct (merge_defaults loaded default_items) as [merged|e1] eqn:Em;
          [discriminate|].
        apply merge_defaults_raises in Em. subst e1. discriminate.
      * destruct (JsonFacts.loads_raises py text e1 El) as [He|He]; subst e1;
          cbn; intros H; inversion H; subst e;
          (split; [discriminate|split; [reflexivity|right; now exists text]]).
    + destruct (is_type_error e0) eqn:Et; [discriminate|].
      intros H; inversion H; subst e0. split; [|split; [reflexivity|now left]].
      intros Heq. subst e. discriminate.
  - vm_compute. reflexivity.
Qed.

Lemma setdefaults_keeps (subs inner_items : dict) (name : string) (v : pyval) :
  dict_get inner_items name = Some v ->
  dict_get (setdefaults inner_items subs) name = Some v.
Proof.
  unfold setdefaults. revert inner_items.
  induction subs as [|[sk sv] subs IH]; intros inner_items Hget; [exact Hget|].
  cbn [fold_left fst snd]. apply IH.
  destruct (dict_get inner_items sk) eqn:Esk; [exact Hget|].
  rewrite dict_get_after_set. destruct (String.eqb name sk) eqn:E; [|exact Hget].
  apply String.eqb_eq in E. subst sk. congruence.
Qed.

Lemma lookup_outside (items : dict) (k : string) :
  ~ In k (dict_keys items) -> dict_get items k = None.
Proof.
  intros Hk. destruct (dict_get items k) as [v|] eqn:E; [|reflexivity].
  exfalso. apply Hk. apply dict_get_some_iff_key. now exists v.
Qed.

(** X21. When [load_settings] accepts the file, every value of the file
    that is not an object stays under its key, an object of the file keeps
    all its items, a key the file lacks gets the default value, and
    [get_api_key] and [get_selected_model] return what the file holds for
    a provider. *)
Theorem file_values_win_over_defaults (py : interpreter) (text : string) (d : dict)
  (settings : pyval) :
  loads py text = Loaded (PDict d) ->
  load_settings py (SettingsText text) = ([SettingsLoadedLine], Ret settings) ->
  exists d',
    settings = PDict d'
    /\ (forall k v,
          dict_get d k = Some v -> (forall items, v <> PDict items) ->
          dict_get d' k = Some v)
    /\ (forall k items,
          dict_get d k = Some (PDict items) ->
          exists items',
            dict_get d' k = Some (PDict items')
            /\ (forall name v,
                  dict_get items name = Some v -> dict_get items' name = Some v))
    /\ (forall k, dict_get d k = None -> dict_get d' k = dict_get default_items k)
    /\ (forall provider keys key,
          dict_get d "api_keys" = Some (PDict keys) ->
          dict_get keys provider = Some key ->
          get_api_key settings provider = Ret key)
    /\ (forall provider models chosen,
          dict_get d "selected_models" = Some (PDict models) ->
          dict_get models provider = Some chosen ->
          get_selected_model settings provider = Ret chosen).
Proof.
  intros Hl Hload. unfold load_settings in Hload. rewrite Hl in Hload.
  destruct (merge_defaults (PDict d) default_items) as [merged|e] eqn:Em.
  2:{ destruct (is_type_error e); discriminate. }
  inversion Hload; subst merged. clear Hload.
  destruct (merge_defaults_ok default_items default_keys_distinct d settings Em)
    as [d' [Hr [Hall Hframe]]].
  exists d'. split; [exact Hr|].
  assert (Hcases : forall k,
            (exists value, In (k, value) default_items
                           /\ dict_get d' k = Some (merged_value (dict_get d k) value))
            \/ (~ In k (dict_keys default_items) /\ dict_get d' k = dict_get d k)).
  { intros k. destruct (in_dec string_dec k (dict_keys default_items)) as [Hin|Hout].
    - left. unfold dict_keys in Hin. apply in_map_iff in Hin as [[k0 value] [Hk Hin]].
      simpl in Hk. subst k0. exists value. split; [exact Hin|]. now apply Hall.
    - right. split; [exact Hout|now apply Hframe]. }
  assert (Hdicts : forall k items,
            dict_get d k = Some (PDict items) ->
            exists items',
              dict_get d' k = Some (PDict items')
              /\ (forall name v,
                    dict_get items name = Some v -> dict_get items' name = Some v)).
  { intros k items Hk.
    destruct (Hcases k) as [[value [Hin Hget]]|[_ Hget]]; rewrite Hk in Hget.
    - destruct value as [| | | | | | |subs];
        try (exists items; split; [exact Hget|tauto]).
      exists (setdefaults items subs). split; [exact Hget|].
      intros name v. apply setdefaults_keeps.
    - exists items. split; [exact Hget|tauto]. }
  split; [|split; [exact Hdicts|split; [|split]]].
  - intros k v Hk Hv.
    destruct (Hcases k) as [[value [Hin Hget]]|[_ Hget]]; rewrite Hk in Hget;
      [|exact Hget].
    rewrite Hget. f_equal. unfold merged_value.
    destruct value; try reflexivity.
    destruct v; try reflexivity. now elim (Hv d1).
  - intros k Hk.
    destruct (Hcases k) as [[value [Hin Hget]]|[Hout Hget]]; rewrite Hk in Hget.
    + rewrite Hget. symmetry.
      apply lookup_of_member; [apply default_keys_distinct|exact Hin].
    + rewrite Hget. symmetry. now apply lookup_outside.
  - intros provider keys key Hk Hp.
    destruct (Hdicts _ _ Hk) as [items' [Hget Hkeep]].
    subst settings. unfold get_api_key, get_nested. cbn [py_get].
    rewrite Hget. cbn [py_get]. now rewrite (Hkeep _ _ Hp).
  - intros provider models chosen Hk Hp.
    destruct (Hdicts _ _ Hk) as [items' [Hget Hkeep]].
    subst settings. unfold get_selected_model, get_nested. cbn [py_get].
    rewrite Hget. cbn [py_get]. now rewrite (Hkeep _ _ Hp).
Qed.

(** A settings file that names one key and the last provider, and what
    [load_settings] makes of it. *)
Definition example_settings_text : string :=
  "{" ++ quote ++ "api_keys" ++ quote ++ ": {" ++ quote ++ "OpenAI" ++ quote ++ ": "
      ++ quote ++ "sk-1" ++ quote ++ "}, "
      ++ quote ++ "last_provider" ++ quote ++ ": " ++ quote ++ "DeepSeek" ++ quote ++ "}".

Definition example_settings_dict : dict :=
  [("api_keys", PDict [("OpenAI", PStr "sk-1")]); ("last_provider", PStr "DeepSeek")].

Definition example_settings : pyval :=
  Eval vm_compute in
    match snd (load_settings cpython (SettingsText example_settings_text)) with
    | Ret settings => settings
    | Raise _ => PNone
    end.

Lemma file_values_witness :
  get_api_key example_settings "OpenAI" = Ret (PStr "sk-1").
Proof.
  destruct (file_values_win_over_defaults cpython example_settings_text
              example_settings_dict example_settings) as [d' [_ [_ [_ [_ [Hkey _]]]]]].
  - vm_compute. reflexivity.
  - vm_compute. reflexivity.
  - apply (Hkey "OpenAI" [("OpenAI", PStr "sk-1")] (PStr "sk-1")); reflexivity.
Defined.

Lemma nested_round_trip (d : dict) (section name : string) (value : pyval) :
  (dict_get d section = None \/ exists items, dict_get d section = Some (PDict items)) ->
  exists d',
    set_nested (PDict d) section name value = Ret (PDict d')
    /\ get_nested (PDict d') section name = Ret value
    /\ (forall other,
          other <> name ->
          get_nested (PDict d') section other = get_nested (PDict d) section other)
    /\ (forall k, k <> section -> dict_get d' k = dict_get d k).
Proof.
  intros Hshape. unfold set_nested, get_nested. cbn [py_in py_get].
  destruct Hshape as [Hnone|[items Hsome]].
  - rewrite Hnone. cbn [setitem_str getitem_str].
    rewrite dict_get_set_same. cbn [setitem_str].
    eexists. split; [reflexivity|].
    rewrite dict_get_set_same. cbn [py_get dict_set dict_get].
    rewrite String.eqb_refl.
    split; [reflexivity|split].
    + intros other Hne. apply String.eqb_neq in Hne.
      rewrite String.eqb_sym in Hne. now rewrite Hne.
    + intros k Hne. rewrite dict_get_set_other by exact Hne.
      now rewrite dict_get_set_other by exact Hne.
  - rewrite Hsome. cbn [getitem_str]. rewrite Hsome. cbn [setitem_str].
    eexists. split; [reflexivity|].
    rewrite dict_get_set_same. cbn [py_get]. rewrite dict_get_set_same.
    split; [reflexivity|split].
    + intros other Hne. now rewrite dict_get_set_other by exact Hne.
    + intros k Hne. now rewrite dict_get_set_other by exact Hne.
Qed.

(** X22. [set_api_key] followed by [get_api_key] gives the key back and
    leaves the keys of the other providers, the selected models and every
    other setting as they were, also when the settings had no api_keys
    entry; [set_selected_model] and [get_selected_model] do the same for
    the models.  When the entry holds something else than a dict, the
    setter raises TypeError and the getter AttributeError. *)
Theorem settings_setters_round_trip (d : dict) (provider text : string) :
  ((dict_get d "api_keys" = None
    \/ exists items, dict_get d "api_keys" = Some (PDict items)) ->
   exists d',
     set_api_key (PDict d) provider text = Ret (PDict d')
     /\ get_api_key (PDict d') provider = Ret (PStr text)
     /\ (forall other,
           other <> provider ->
           get_api_key (PDict d') other = get_api_key (PDict d) other)
     /\ (forall other, get_selected_model (PDict d') other
                       = get_selected_model (PDict d) other)
     /\ (forall k default,
           k <> "api_keys" -> get (PDict d') k default = get (PDict d) k default))
  /\ ((dict_get d "selected_models" = None
       \/ exists items, dict_get d "selected_models" = Some (PDict items)) ->
      exists d',
        set_selected_model (PDict d) provider text = Ret (PDict d')
        /\ get_selected_model (PDict d') provider = Ret (PStr text)
        /\ (forall other,
              other <> provider ->
              get_selected_model (PDict d') other = get_selected_model (PDict d) other)
        /\ (forall other, get_api_key (PDict d') other = get_api_key (PDict d) other)
        /\ (forall k default,
              k <> "selected_models" ->
              get (PDict d') k default = get (PDict d) k default))
  /\ (forall section x,
        dict_get d section = Some x -> (forall items, x <> PDict items) ->
        set_nested (PDict d) section provider (PStr text) = Raise TypeError
        /\ get_nested (PDict d) section provider = Raise AttributeError).
Proof.
  split; [|split].
  - intros Hshape.
    destruct (nested_round_trip d "api_keys" provider (PStr text) Hshape)
      as [d' [Hset [Hget [Hother Hframe]]]].
    exists d'. split; [exact Hset|split; [exact Hget|split; [exact Hother|split]]].
    + intros other. unfold get_selected_model, get_nested. cbn [py_get].
      now rewrite Hframe by discriminate.
    + intros k default Hne. unfold get. cbn [py_get]. now rewrite Hframe.
  - intros Hshape.
    destruct (nested_round_trip d "selected_models" provider (PStr text) Hshape)
      as [d' [Hset [Hget [Hother Hframe]]]].
    exists d'. split; [exact Hset|split; [exact Hget|split; [exact Hother|split]]].
    + intros other. unfold get_api_key, get_nested. cbn [py_get].
      now rewrite Hframe by discriminate.
    + intros k default Hne. unfold get. cbn [py_get]. now rewrite Hframe.
  - intros section x Hx Hnd. unfold set_nested, get_nested. cbn [py_in py_get].
    rewrite Hx. cbn [getitem_str]. rewrite Hx.
    destruct x; try (now split). now elim (Hnd d0).
Qed.

End SettingsFacts.

Module PromptFacts.
Import Py PyFacts PromptManager FlattenerFacts SettingsFacts.

Lemma dict_get_app {V : Type} (a b : list (string * V)) (k : string) :
  dict_get (a ++ b)%list k
  = match dict_get a k with
    | Some v => Some v
    | None => dict_get b k
    end.
Proof.
  induction a as [|[k' v'] a IH]; simpl; [reflexivity|].
  destruct (String.eqb k' k); [reflexivity|exact IH].
Qed.

(** After [d.update(other)] a key has the value its last item in [other]
    gives it, if there is one. *)
Lemma dict_get_update_last {V : Type} (other d : list (string * V)) (k : string) :
  dict_get (dict_update d other) k
  = match dict_get (rev other) k with
    | Some v => Some v
    | None => dict_get d k
    end.
Proof.
  unfold dict_update. revert d.
  induction other as [|[k' v'] other IH]; intros d; [reflexivity|].
  cbn [fold_left fst snd rev]. rewrite IH, dict_get_app.
  destruct (dict_get (rev other) k); [reflexivity|].
  cbn [dict_get]. rewrite dict_get_after_set, String.eqb_sym.
  now destruct (String.eqb k' k).
Qed.

(** *** File names *)

Lemma rev_onto_app (a b acc : string) :
  string_rev_onto (a ++ b) acc = string_rev_onto b (string_rev_onto a acc).
Proof. revert acc. induction a as [|c a IH]; intros acc; simpl; [reflexivity|apply IH]. Qed.

Lemma rev_onto_acc (s acc : string) :
  string_rev_onto s acc = string_rev s ++ acc.
Proof.
  unfold string_rev. revert acc. induction s as [|c s IH]; intros acc; [reflexivity|].
  simpl. rewrite IH, (IH (String c EmptyString)).
  now rewrite ApiClientsFacts.append_assoc.
Qed.

Lemma ends_with_suffix (base suffix : string) : ends_with suffix (base ++ suffix) = true.
Proof.
  unfold ends_with, string_rev at 2. rewrite rev_onto_app, rev_onto_acc.
  assert (H : forall p r, strip_prefix p (p ++ r) = Some r).
  { induction p as [|c p IH]; intros r; simpl; [reflexivity|].
    now rewrite Ascii.eqb_refl. }
  fold (string_rev suffix). now rewrite H.
Qed.

Lemma rfind_from_app (c : ascii) (a b : string) (i : nat) (last : option nat) :
  rfind_from c (a ++ b) i last
  = rfind_from c b (i + String.length a) (rfind_from c a i last).
Proof.
  revert i last. induction a as [|x a IH]; intros i last; simpl.
  - now rewrite Nat.add_0_r.
  - rewrite IH. f_equal. lia.
Qed.

Lemma rfind_from_absent (c : ascii) (s : string) (i : nat) (last : option nat) :
  ApiClientsFacts.occurs c s = false -> rfind_from c s i last = last.
Proof.
  revert i last. induction s as [|x s IH]; intros i last H; [reflexivity|].
  simpl in H |- *. apply orb_false_elim in H as [Hx Hs].
  rewrite Hx. now apply IH.
Qed.

Lemma substring_prefix (a b : string) : substring 0 (String.length a) (a ++ b) = a.
Proof.
  induction a as [|x a IH]; simpl; [now destruct b|now rewrite IH].
Qed.

Lemma splitext_root_txt (base : string) :
  base <> "" ->
  ApiClientsFacts.occurs "." base = false ->
  ApiClientsFacts.occurs "/" base = false ->
  splitext_root (base ++ ".txt") = base.
Proof.
  intros Hne Hdot Hsep. unfold splitext_root, rfind.
  rewrite !rfind_from_app, (rfind_from_absent _ _ _ _ Hdot),
    (rfind_from_absent _ _ _ _ Hsep).
  cbn [rfind_from Ascii.eqb Bool.eqb plus Nat.leb].
  rewrite Nat.sub_0_r, substring_prefix.
  destruct base as [|x base]; [congruence|].
  simpl in Hdot. apply orb_false_elim in Hdot as [Hx _].
  cbn [all_dots]. now rewrite Hx.
Qed.

Section Loading.
Variable str_title : string -> string.

(** The prompts the listing holds: for each [.txt] file that can be read,
    its name and its text, in the order of the listing. *)
Definition readable (entries : list (string * result string)) : list (string * string) :=
  flat_map (fun entry : string * result string =>
              let (filename, read) := entry in
              if ends_with ".txt" filename then
                match read with
                | Ret content => [(prompt_name_of str_title filename, content)]
                | Raise _ => []
                end
              else []) entries.

Lemma load_loop_spec (entries : list (string * result string)) :
  forall lines prompts,
    snd (fold_left (load_one str_title) entries (lines, prompts))
    = dict_update prompts (readable entries)
    /\ (forall filename e,
          In (filename, Raise e) entries -> ends_with ".txt" filename = true ->
          In (PromptLoadErrorLine filename)
             (fst (fold_left (load_one str_title) entries (lines, prompts))))
    /\ (forall line, In line lines ->
          In line (fst (fold_left (load_one str_title) entries (lines, prompts))))
    /\ (~ In NoPromptsLine lines ->
        ~ In NoPromptsLine (fst (fold_left (load_one str_title) entries (lines, prompts)))).
Proof.
  induction entries as [|[filename read] entries IH]; intros lines prompts.
  - cbn. repeat split; auto. intros f e [].
  - cbn [fold_left readable flat_map]. fold (readable entries).
    unfold load_one at 2 4 6 8.
    destruct (ends_with ".txt" filename) eqn:Etxt.
    + destruct read as [content|e0].
      * destruct (IH (lines ++ [PromptLoadedLine (prompt_name_of str_title filename)])%list
                    (dict_set prompts (prompt_name_of str_title filename) content))
          as [Hp [He [Hl Hn]]].
        split; [exact Hp|split; [|split]].
        -- intros f e [Hin|Hin] Hf; [discriminate|now apply (He f e)].
        -- intros line Hin. apply Hl. apply in_or_app. now left.
        -- intros Hno. apply Hn. rewrite in_app_iff. intros [H|[H|[]]];
             [contradiction|discriminate].
      * destruct (IH (lines ++ [PromptLoadErrorLine filename])%list prompts)
          as [Hp [He [Hl Hn]]].
        split; [exact Hp|split; [|split]].
        -- intros f e [Hin|Hin] Hf; [|now apply (He f e)].
           inversion Hin; subst. apply Hl. apply in_or_app. right. now left.
        -- intros line Hin. apply Hl. apply in_or_app. now left.
        -- intros Hno. apply Hn. rewrite in_app_iff. intros [H|[H|[]]];
             [contradiction|discriminate].
    + destruct (IH lines prompts) as [Hp [He [Hl Hn]]].
      split; [exact Hp|split; [|split; [exact Hl|exact Hn]]].
      intros f e [Hin|Hin] Hf; [|now apply (He f e)].
      inversion Hin; subst. congruence.
Qed.

(** X23. For a directory that can be listed, [load_prompts] offers under
    each name the text of the last readable .txt file of the listing that
    has this name, so a file replaces an earlier one of the same name; the
    names offered are those of the readable .txt files, each once; a .txt
    file that cannot be read is reported and leaves the others loaded; the
    warning that no prompt was found is logged exactly when no .txt file
    could be read.  A file base.txt, with base not empty and free of dots
    and slashes, is named by the title-cased base with spaces for
    underscores. *)
Theorem later_prompt_file_wins (entries : list (string * result string)) :
  let loaded := load_prompts str_title (Listing entries) in
  exists prompts,
    snd loaded = Ret prompts
    /\ (forall name,
          get_prompt_template prompts name = dict_get (rev (readable entries)) name)
    /\ (forall name,
          In name (get_prompt_names prompts) <-> In name (map fst (readable entries)))
    /\ NoDup (get_prompt_names prompts)
    /\ (forall filename e,
          In (filename, Raise e) entries -> ends_with ".txt" filename = true ->
          In (PromptLoadErrorLine filename) (fst loaded))
    /\ (In NoPromptsLine (fst loaded) <-> readable entries = [])
    /\ (forall base,
          base <> "" ->
          ApiClientsFacts.occurs "." base = false ->
          ApiClientsFacts.occurs "/" base = false ->
          ends_with ".txt" (base ++ ".txt") = true
          /\ prompt_name_of str_title (base ++ ".txt")
             = str_title (replace_underscores base)).
Proof.
  cbv zeta. unfold load_prompts.
  assert (Hname : forall base,
            base <> "" ->
            ApiClientsFacts.occurs "." base = false ->
            ApiClientsFacts.occurs "/" base = false ->
            ends_with ".txt" (base ++ ".txt") = true
            /\ prompt_name_of str_title (base ++ ".txt")
               = str_title (replace_underscores base)).
  { intros base Hne Hdot Hsep. split; [apply ends_with_suffix|].
    unfold prompt_name_of. now rewrite splitext_root_txt. }
  destruct (load_loop_spec entries [] []) as [Hp [He [_ Hn]]].
  destruct (fold_left (load_one str_title) entries ([], [])) as [lines prompts] eqn:Ef.
  cbn [fst snd] in Hp, He, Hn.
  assert (Hkeys : forall name,
            In name (dict_keys prompts) <-> In name (map fst (readable entries))).
  { intros name. rewrite Hp, keys_of_dict_update. simpl. tauto. }
  assert (Hnd : NoDup (dict_keys prompts)).
  { rewrite Hp. apply nodup_dict_update. constructor. }
  assert (Hget : forall name,
            dict_get prompts name = dict_get (rev (readable entries)) name).
  { intros name. rewrite Hp, dict_get_update_last.
    now destruct (dict_get (rev (readable entries)) name). }
  assert (Hempty : prompts = [] <-> readable entries = []).
  { split; intros H.
    - destruct (readable entries) as [|[n c] l] eqn:Er; [reflexivity|].
      exfalso. assert (Hin : In n (dict_keys prompts)) by (apply Hkeys; now left).
      rewrite H in Hin. contradiction.
    - destruct prompts as [|[n c] l]; [reflexivity|].
      exfalso. assert (Hin : In n (map fst (readable entries)))
        by (apply Hkeys; now left).
      rewrite H in Hin. contradiction. }
  destruct prompts as [|p ps]; cbn [fst snd].
  - exists []. split; [reflexivity|split; [exact Hget|split; [exact Hkeys|split;
      [exact Hnd|split]]]].
    + intros f e Hin Hf. apply in_or_app. left. now apply (He f e).
    + split; [|exact Hname].
      split; [intros _; now apply Hempty|].
      intros _. apply in_or_app. right. now left.
  - exists (p :: ps). split; [reflexivity|split; [exact Hget|split; [exact Hkeys|split;
      [exact Hnd|split; [exact He|split; [|exact Hname]]]]]].
    split.
    + intros Hin. exfalso. apply Hn; [intros []|exact Hin].
    + intros Hr. apply Hempty in Hr. discriminate.
Qed.

End Loading.

End PromptFacts.
